(** * Export pipeline of obsidian-webpage-export: a shallow embedding

    The development follows the TypeScript sources
    - [plugin/website/webpage.ts]  (classes [Webpage] and [Index]),
    - [plugin/website/website.ts]  (class [Website], both revisions),
    - [shared/website-data.ts]     (the persisted records),
    - [main.ts]                    ([HTMLExportPlugin.exportFolder]).

    JavaScript strings are modelled by [string] (sequences of 8-bit code
    units, i.e. the ASCII fragment of the UTF-16 strings of the source),
    [string | undefined] by [option string], plain objects used as
    dictionaries by [gmap string _], arrays by [list].  Mutation of the
    shared [Website] object is written as explicit state passing. *)

From Stdlib Require Import String Ascii List Arith Lia Bool.
From stdpp Require Import base option list gmap strings.

Import ListNotations.
Local Open Scope string_scope.
Local Open Scope list_scope.

(** ** JavaScript string primitives *)

Module JS.

(** [s.startsWith(p)] *)
Definition startsWith (s p : string) : bool := String.prefix p s.

(** [s.substring(n)] *)
Definition substringFrom (n : nat) (s : string) : string :=
  String.substring n (String.length s - n) s.

(** [s.endsWith(p)] *)
Definition endsWith (s p : string) : bool :=
  (String.length p <=? String.length s)%nat
  && String.eqb (substringFrom (String.length s - String.length p) s) p.

Definition isUpper (c : ascii) : bool :=
  let n := nat_of_ascii c in (65 <=? n)%nat && (n <=? 90)%nat.

Definition lowerChar (c : ascii) : ascii :=
  if isUpper c then ascii_of_nat (nat_of_ascii c + 32) else c.

(** [s.toLowerCase()] on the ASCII fragment *)
Fixpoint toLowerCase (s : string) : string :=
  match s with
  | EmptyString => EmptyString
  | String c r => String (lowerChar c) (toLowerCase r)
  end.

(** The class [\w] of JavaScript regular expressions. *)
Definition isWordChar (c : ascii) : bool :=
  let n := nat_of_ascii c in
  ((48 <=? n) && (n <=? 57) || (65 <=? n) && (n <=? 90)
   || (97 <=? n) && (n <=? 122) || (n =? 95))%nat.

(** [s.split(sep)] for a one-character separator: never the empty list. *)
Fixpoint split (sep : ascii) (s : string) : list string :=
  match s with
  | EmptyString => [EmptyString]
  | String c r =>
      if Ascii.eqb c sep then EmptyString :: split sep r
      else match split sep r with
           | [] => [String c EmptyString]
           | h :: t => String c h :: t
           end
  end.

(** [parts.join(sep)] *)
Fixpoint join (sep : string) (parts : list string) : string :=
  match parts with
  | [] => EmptyString
  | [p] => p
  | p :: rest => p ++ sep ++ join sep rest
  end.

(** [s.replaceAll(pat, rep)] for a non-empty pattern [pat]: occurrences
    are replaced from left to right and do not overlap.  [skip] counts
    the characters of a matched occurrence still to be dropped. *)
Fixpoint replaceAllFrom (skip : nat) (pat rep s : string) : string :=
  match s with
  | EmptyString => EmptyString
  | String c r =>
      match skip with
      | S k => replaceAllFrom k pat rep r
      | O =>
          if String.prefix pat s
          then rep ++ replaceAllFrom (String.length pat - 1) pat rep r
          else String c (replaceAllFrom 0 pat rep r)
      end
  end.

Definition replaceAll (pat rep s : string) : string :=
  replaceAllFrom 0 pat rep s.

Definition isSpace (c : ascii) : bool :=
  let n := nat_of_ascii c in ((n =? 32) || (9 <=? n) && (n <=? 13))%nat.

Fixpoint trimStart (s : string) : string :=
  match s with
  | String c r => if isSpace c then trimStart r else s
  | EmptyString => EmptyString
  end.

Fixpoint rev (s : string) : string :=
  match s with
  | EmptyString => EmptyString
  | String c r => rev r ++ String c EmptyString
  end.

(** [s.trim()] *)
Definition trim (s : string) : string := rev (trimStart (rev (trimStart s))).

(** Truthiness of a string value: [""] is falsy. *)
Definition truthy (s : string) : bool := negb (String.eqb s "").

(** Truthiness of [string | undefined | null]. *)
Definition truthyOpt (o : option string) : bool :=
  match o with Some s => truthy s | None => false end.

End JS.

(** ** Paths *)

(** Modelled from the spec: the class [Path] of [plugin/utils/path] is not
    among the sources.  A path object is represented by its working
    directory and its path string; the operations the export pipeline
    calls on it form the interface [PathLib]. *)
Record Path := mkPath { workingDirectory : string; path : string }.

Class PathLib := {
  (** [new Path(s).path]: the parsed path string *)
  parsePath : string -> string;
  (** [p.pathname], for the path object whose path string is given (as
      for all the operations below) *)
  pathnameOf : string -> string;
  (** the path string after [p.fullName = name] *)
  setFullName : string -> string -> string;
  (** the path string after [p.setExtension(ext)], [p.setFileName(name)] *)
  setExtension : string -> string -> string;
  setFileName : string -> string -> string;
  (** [p.fullName], [p.basename], [p.extensionName] *)
  fullNameOf : string -> string;
  basenameOf : string -> string;
  extensionNameOf : string -> string;
  (** the path string after [p.slugify(flag)] *)
  slugify : bool -> string -> string;
  (** [Path.getRelativePathFromVault(p, true).path] *)
  relativeFromVault : string -> string;
  (** [Path.getRelativePath(p, new Path(p.workingDirectory), true).path] *)
  relativeToRoot : string -> string;
  (** [Path.joinStrings(a, b).path] *)
  joinStrings : string -> string -> string;
}.

Module SpecPath.

Definition segments (p : string) : list string := JS.split "/" p.

Definition fullName (p : string) : string := List.last (segments p) "".

Definition withFullName (name p : string) : string :=
  JS.join "/" (List.removelast (segments p) ++ [name]).

Definition nameParts (p : string) : list string := JS.split "." (fullName p).

Definition basename (p : string) : string :=
  match nameParts p with
  | [] | [_] => fullName p
  | parts => JS.join "." (List.removelast parts)
  end.

Definition extensionName (p : string) : string :=
  match nameParts p with
  | [] | [_] => ""
  | parts => List.last parts ""
  end.

Definition withExtension (ext p : string) : string :=
  withFullName (basename p ++ "." ++ ext) p.

Definition withFileName (name p : string) : string :=
  withFullName (if String.eqb (extensionName p) "" then name
                else name ++ "." ++ extensionName p) p.

(** one [..] per directory segment *)
Definition toRoot (p : string) : string :=
  JS.join "/" (List.map (fun _ => "..") (List.removelast (segments p))).

Definition slugChar (c : ascii) : ascii :=
  if Ascii.eqb c " " then "-"%char else JS.lowerChar c.

Fixpoint slug (p : string) : string :=
  match p with
  | EmptyString => EmptyString
  | String c r => String (slugChar c) (slug r)
  end.

Definition joinStr (a b : string) : string :=
  if String.eqb a "" then b
  else if JS.endsWith a "/" then a ++ b else a ++ "/" ++ b.

End SpecPath.

(** Modelled from the spec: the path operations as the spec words them
    ("preserve relative directory structure", "web-safe slug form
    (lowercase, ASCII, hyphen-separated) ... applied consistently to both
    filenames and directory segments").  The file name is the last
    [/]-separated segment, the extension what follows its last dot. *)
#[export] Instance specPath : PathLib := {|
  parsePath := fun s => s;
  pathnameOf := fun s => s;
  setFullName := SpecPath.withFullName;
  setExtension := SpecPath.withExtension;
  setFileName := SpecPath.withFileName;
  fullNameOf := SpecPath.fullName;
  basenameOf := SpecPath.basename;
  extensionNameOf := SpecPath.extensionName;
  slugify := fun flag p => if flag then SpecPath.slug p else p;
  relativeFromVault := fun s => s;
  relativeToRoot := SpecPath.toRoot;
  joinStrings := SpecPath.joinStr;
|}.

(** ** Persisted records ([shared/website-data.ts]) *)

Inductive ObsidianFileType :=
  Markdown | Canvas | Excalidraw | Kanban | AttachmentType | Other.

#[export] Instance ObsidianFileType_eq_dec : EqDecision ObsidianFileType.
Proof. solve_decision. Defined.

Record Stat := mkStat {
  createdTime : nat;
  modifiedTime : nat;
  sourceSize : nat;
}.

Record HeadingData := mkHeadingData {
  heading : string;
  level : nat;
  id : string;
}.

(** [WebpageData extends FileData]: the fields the pipeline reads or
    writes. *)
Record WebpageData := mkWebpageData {
  stat : Stat;
  wpPath : string;            (* FileData.path *)
  sourcePath : string;
  showInTree : bool;
  treeOrder : nat;
  backlinks : list string;
  type : ObsidianFileType;
  headers : list HeadingData;
  aliases : list string;
  inlineTags : list string;
  frontmatterTags : list string;
  links : list string;
  attachments : list string;
  contentPath : string;
  title : string;
  pathToRoot : string;
  icon : string;
  description : string;
  url : string;
}.

(** [new WebpageData()] *)
Definition newWebpageData : WebpageData := {|
  stat := mkStat 0 0 0; wpPath := ""; sourcePath := ""; showInTree := false;
  treeOrder := 0; backlinks := []; type := Other; headers := [];
  aliases := []; inlineTags := []; frontmatterTags := []; links := [];
  attachments := []; contentPath := ""; title := ""; pathToRoot := "";
  icon := ""; description := ""; url := "";
|}.

(** [WebsiteData]: the path tables of the manifest. *)
Record WebsiteData := mkWebsiteData {
  allFiles : list string;
  sourceToTarget : gmap string string;
  targetToSource : gmap string string;
}.

(** ** The host application and the rendered document *)

Record TFile := mkTFile {
  filePath : string;      (* TFile.path *)
  fileName : string;      (* TFile.name *)
  fileBasename : string;  (* TFile.basename *)
  fileExtension : string;
  ctime : nat;
  mtime : nat;
  size : nat;
}.

(** A front-matter value: a scalar or a list. *)
Inductive FMValue := FMString (s : string) | FMList (l : list string).

(** [value.toString()] *)
Definition fmToString (v : FMValue) : string :=
  match v with FMString s => s | FMList l => JS.join "," l end.

Definition fmToList (v : FMValue) : list string :=
  match v with FMString s => [s] | FMList l => l end.

(** The heading elements, the link-carrying elements and the text nodes
    of a rendered document, each in document order, as the selectors of
    [webpage.ts] return them. *)
Record HeadingEl := mkHeadingEl {
  tagName : string;                 (* "H1" .. "H6" *)
  elId : string;
  hasHeadingClass : bool;           (* matches .heading *)
  dataHeading : option string;      (* getAttribute("data-heading") *)
  textContent : string;
  innerHTML : string;               (* once .heading-collapse-indicator is removed *)
  inEmbedContent : bool;            (* matches .markdown-embed-content * *)
  inEmbedBlock : bool;              (* inside [class^='block-language-'] or .markdown-embed.inline-embed *)
  inSizer : bool;                   (* the wrapper's parent has class markdown-preview-sizer *)
  childPosition : nat;              (* index of the wrapper among its parent's children *)
}.

Record LinkEl := mkLinkEl {
  attr : string;                    (* the href, resp. src, attribute *)
  target : option string;
  classes : list string;
}.

Record TextNode := mkTextNode {
  text : string;
  skipped : bool;                   (* parentElement.closest(skipSelector) *)
}.

Record Content := mkContent {
  hrefEls : list LinkEl;            (* [href]:not(head * ) *)
  srcEls : list LinkEl;             (* [src]:not(head * ) *)
  headingEls : list HeadingEl;      (* h1 .. h6 *)
  textNodes : list TextNode;
  pageTitleEl : option string;      (* id of the h1.page-title element addTitle prepends *)
}.

(** The document [createHTMLDocument()] returns, as far as [addTitle]
    looks at it: the class list of its body and its h1 .. h6 elements. *)
Record PageDocument := mkPageDocument {
  bodyClassList : list string;
  docHeadingEls : list HeadingEl;
}.

(** [document.implementation.createHTMLDocument()], with the empty div
    of [createDiv] in its body. *)
Definition newPageDocument : PageDocument := mkPageDocument [] [].

(** [document.body.createDiv()] *)
Definition emptyContent : Content := mkContent [] [] [] [] None.

(** What [MarkdownRendererAPI.renderFile(source, options)] leaves and
    returns: the state of the element handed over as [options.container],
    which the renderer fills, and the fields of the render info. *)
Record RenderInfo := mkRenderInfo {
  container : Content;
  contentEl : Content;
  viewType : option ObsidianFileType;
}.

(** What the pipeline consumes from the host ([app.metadataCache],
    [app.vault], [MarkdownRendererAPI]) and the constants of [Shared] and
    [Settings]; none of them is among the sources. *)
Record Host := mkHost {
  (** keys of [getBacklinksForFile(file).data] *)
  getBacklinksForFile : string -> list string;
  (** [getFirstLinkpathDest(path, exporting)?.path] *)
  getFirstLinkpathDest : string -> string -> option string;
  (** [app.vault.resolveFileUrl(src)?.path]; [None] also when it throws *)
  resolveFileUrl : string -> option string;
  (** [app.vault.getFileByPath] *)
  getFileByPath : string -> option TFile;
  (** [getFileCache(file)?.frontmatter ?? {}] *)
  frontmatterOf : string -> gmap string FMValue;
  (** the persisted page record read at a metadata path, if any *)
  storedMetadata : string -> option WebpageData;
  (** [MarkdownRendererAPI.renderFile], [renderMarkdownSimpleEl] (inner text) *)
  renderFile : TFile -> option RenderInfo;
  renderInline : string -> string;
  (** [MarkdownRendererAPI.isConvertable], [viewableMediaExtensions] *)
  isConvertable : string -> bool;
  viewableMediaExtensions : list string;
  (** [Website.getIcon], which consults [IconHandler] and the plugin registry *)
  getIcon : TFile -> string * bool;
  (** the h1 .. h6 elements of [pageTemplate.getFinalLayout()] *)
  layoutHeadingEls : list HeadingEl;
  (** [Shared.libFolderName], [Settings.titleProperty] *)
  libFolderName : string;
  titleProperty : string;
}.

(** ** Edit distance *)

(** Modelled from the spec: [Utils.levenshteinDistance] is not among the
    sources; the spec calls it the edit distance of the two texts
    (insertions, deletions and substitutions, each of cost one). *)
Fixpoint levenshteinDistance (s t : string) : nat :=
  match s with
  | EmptyString => String.length t
  | String a s' =>
      (fix inner (t : string) : nat :=
         match t with
         | EmptyString => String.length s
         | String b t' =>
             if Ascii.eqb a b then levenshteinDistance s' t'
             else S (Nat.min (levenshteinDistance s' t)
                             (Nat.min (inner t') (levenshteinDistance s' t')))
         end) t
  end.

(** The quotient [a / b] of two string lengths as a JavaScript number, and
    the comparisons [addTitle] makes on it.  A quotient of two integers
    below 2^32 is rounded to a double that lies below the double 0.2
    (resp. 0.1) exactly when the rational lies below 1/5 (resp. 1/10), so
    the rational comparison is the one the code computes. *)
Inductive Quot := QNaN | QInf | QFin (num den : nat).

Definition jsDiv (a b : nat) : Quot :=
  if (b =? 0)%nat then (if (a =? 0)%nat then QNaN else QInf) else QFin a b.

(** [Math.min] *)
Definition jsMin (x y : Quot) : Quot :=
  match x, y with
  | QNaN, _ | _, QNaN => QNaN
  | QInf, _ => y
  | _, QInf => x
  | QFin a b, QFin c d => if (a * d <=? c * b)%nat then x else y
  end.

(** [x < num/den] *)
Definition jsLt (x : Quot) (num den : nat) : bool :=
  match x with
  | QFin a b => (a * den <? num * b)%nat
  | _ => false
  end.

(** ** [Webpage], [Attachment], the search index and [Website] *)

Inductive LogEntry :=
  | UsedSimilarHeader (headerText : string)
  | ReplacedSimilarHeader (headerText : string)
  | UsedTopHeader (headerText : string)
  | ReplacedTopHeader (headerText : string).

Record TitleInfo := mkTitleInfo { tiTitle : string; isDefault : bool }.

Record Webpage := mkWebpage {
  source : TFile;
  attachmentSourcePaths : list string;
  isModified : bool;
  isLoaded : bool;
  loadedMetadata : WebpageData;
  titleInfo : TitleInfo;
  pageMeta : WebpageData;           (* this.metadata *)
  content : option Content;         (* this.content *)
  pageDocument : option PageDocument;
  hasTemplate : bool;               (* this.template is set *)
  headTitle : option string;        (* the title element addHead writes *)
  templatePath : string;
  metadataPath : string;
  wContentPath : string;
  wPathToRoot : string;
  headingsCache : list HeadingData;
  log : list LogEntry;
}.

Record Attachment := mkAttachment {
  attTargetPath : string;
  attSource : TFile;
  attShowInTree : bool;
}.

(** The documents of a MiniSearch index: the id field and the processed
    terms of the indexed fields.  MiniSearch is an external library;
    [has], [discard] and [add] follow its documentation ([add] throws on
    an id that is already present). *)
Record SearchDoc := mkSearchDoc { docId : string; docTerms : list string }.

(** A file written below the export destination. *)
Inductive Written :=
  | WMetadata (p : string) | WContent (p : string) | WTemplate (p : string)
  | WAttachment (p : string).

Record Options := mkOptions {
  slugifyPaths : bool;
  exportRoot : string;
  relativeHeaderLinks : bool;
  addHeadTag : bool;
  optAddTitle : bool;
  siteURL : string;
  siteName : string;
}.

Record Website := mkWebsite {
  options : Options;
  metadata : WebsiteData;
  targetPath : string;              (* this.targetPath.path *)
  files : list TFile;
  webpages : list Webpage;
  siteAttachments : list Attachment;   (* this.attachments *)
  minisearch : option (list SearchDoc);   (* this.searchIndex.minisearch *)
  written : list Written;
}.

Definition setMetadata (w : Website) (m : WebsiteData) : Website :=
  {| options := options w; metadata := m; targetPath := targetPath w;
     files := files w; webpages := webpages w;
     siteAttachments := siteAttachments w; minisearch := minisearch w;
     written := written w |}.

Definition setWebpages (w : Website) (ps : list Webpage) : Website :=
  {| options := options w; metadata := metadata w; targetPath := targetPath w;
     files := files w; webpages := ps;
     siteAttachments := siteAttachments w; minisearch := minisearch w;
     written := written w |}.

Definition setAttachments (w : Website) (l : list Attachment) : Website :=
  {| options := options w; metadata := metadata w; targetPath := targetPath w;
     files := files w; webpages := webpages w;
     siteAttachments := l; minisearch := minisearch w;
     written := written w |}.

Definition setMinisearch (w : Website) (ms : option (list SearchDoc)) : Website :=
  {| options := options w; metadata := metadata w; targetPath := targetPath w;
     files := files w; webpages := webpages w;
     siteAttachments := siteAttachments w; minisearch := ms;
     written := written w |}.

Definition addWritten (w : Website) (l : list Written) : Website :=
  {| options := options w; metadata := metadata w; targetPath := targetPath w;
     files := files w; webpages := webpages w;
     siteAttachments := siteAttachments w; minisearch := minisearch w;
     written := written w ++ l |}.

Section WebsitePaths.
Context `{PathLib}.

(** [Website.hasFile] *)
Definition hasFile (w : Website) (p : string) : bool :=
  bool_decide (is_Some (targetToSource (metadata w) !! p))
  || bool_decide (is_Some (sourceToTarget (metadata w) !! p)).

(** The path [getTargetFilePath] computes when it does not answer from
    the table (lines 293-297). *)
Definition computeTarget (o : Options) (src : string) (filename : option string) : string :=
  let p0 := parsePath src in
  let p1 := match filename with
            | Some f => if JS.truthy f then setFullName f p0 else p0
            | None => p0
            end in
  let p2 := slugify (slugifyPaths o) p1 in
  if JS.startsWith p2 (exportRoot o)
  then parsePath (JS.substringFrom (String.length (exportRoot o)) p2)
  else p2.

(** [Website.getTargetFilePath(sourcePath, filename?, bypassCache)] *)
Definition getTargetFilePath (w : Website) (src : string)
    (filename : option string) (bypassCache : bool) : Path * Website :=
  let m := metadata w in
  let cached := if bypassCache then None else sourceToTarget m !! src in
  if JS.truthyOpt cached
  then (mkPath (targetPath w) (parsePath (default "" cached)), w)
  else
    let t := computeTarget (options w) src filename in
    let s2t := if bypassCache then sourceToTarget m
               else <[src := t]> (sourceToTarget m) in
    (mkPath (joinStrings (targetPath w) (exportRoot (options w))) t,
     setMetadata w {| allFiles := allFiles m ++ [t];
                      sourceToTarget := s2t;
                      targetToSource := <[t := src]> (targetToSource m) |}).

(** The loop of [Website.initMetadata] (lines 215-223): the tables are
    emptied, then every file is registered under its [.html] name. *)
Definition htmlFileName (src : string) : string :=
  fullNameOf (setExtension "html" (parsePath src)).

Definition registerFile (w : Website) (src : string) : Website :=
  snd (getTargetFilePath w src (Some (htmlFileName src)) false).

Definition initTables (w : Website) (srcs : list string) : Website :=
  fold_left registerFile srcs
    (setMetadata w {| allFiles := []; sourceToTarget := ∅; targetToSource := ∅ |}).

(** The string [Website.getFilePathFromSrc(src, exportingFilePath)]
    hands to [new Path]. *)
Definition getFilePathFromSrc (h : Host) (src exporting : string) : string :=
  if JS.startsWith src "app://" then
    match resolveFileUrl h src with
    | Some (String c r) => String c r
    | _ =>
        let s1 := JS.replaceAll "\" "/" (JS.replaceAll "app://" "" src) in
        let first := List.hd "" (JS.split "/" s1) in
        let s2 := JS.replaceAll (first ++ "/") "" s1 in
        relativeFromVault (parsePath s2)
    end
  else
    let parts := JS.split "#" src in
    let hash := JS.trim <$> (parts !! 1%nat) in
    let dest := default "" (getFirstLinkpathDest h (List.hd "" parts) exporting) in
    if JS.truthyOpt hash then (dest ++ "#" ++ default "" hash)%string else dest.

End WebsitePaths.

Section WebpageOps.
Context `{PathLib}.
Variable h : Host.

(** [Website.getTitle(file)] for a [TFile]. *)
Definition getTitle (file : TFile) : TitleInfo :=
  let fm := frontmatterOf h (filePath file) in
  let titleFromFrontmatter :=
    match fm !! titleProperty h with
    | Some v => Some v
    | None => fm !! "banner_header"
    end in
  let title0 := default (fileBasename file) (fmToString <$> titleFromFrontmatter) in
  let title1 :=
    if JS.endsWith title0 ".excalidraw"
    then String.substring 0 (String.length title0 - 11) title0
    else title0 in
  mkTitleInfo title1 (String.eqb title1 (fileBasename file)).

(** [new Webpage(website, source)] *)
Definition newWebpage (w : Website) (file : TFile) : Webpage * Website :=
  let '(tp, w') := getTargetFilePath w (filePath file) None false in
  let templatePath := setExtension "html" (path tp) in
  ({| source := file; attachmentSourcePaths := []; isModified := false;
      isLoaded := false; loadedMetadata := newWebpageData;
      titleInfo := mkTitleInfo "" true; pageMeta := newWebpageData;
      content := None; pageDocument := None; hasTemplate := false;
      headTitle := None; templatePath := templatePath;
      metadataPath := setExtension "json" templatePath;
      wContentPath := setFileName (basenameOf templatePath ++ "-content") templatePath;
      wPathToRoot := relativeToRoot templatePath;
      headingsCache := []; log := [] |}, w').

(** [Webpage.initMetadata]: line 148, the comparison of modification
    times, is commented out in the source; line 149 sets the flag. *)
Definition initMetadata (o : Options) (p : Webpage) : Webpage :=
  let loaded := default newWebpageData (storedMetadata h (metadataPath p)) in
  let ti := getTitle (source p) in
  let fm := frontmatterOf h (filePath (source p)) in
  let descr :=
    match fm !! "description" with
    | Some v => fmToString v
    | None => default "" (fmToString <$> fm !! "summary")
    end in
  let m := {|
    stat := mkStat (ctime (source p)) (mtime (source p)) (size (source p));
    wpPath := templatePath p;
    sourcePath := filePath (source p);
    showInTree := true;
    treeOrder := 0;
    backlinks := backlinks loaded;
    type := type loaded;
    headers := headers loaded;
    aliases := default [] (fmToList <$> fm !! "aliases");
    inlineTags := inlineTags loaded;
    frontmatterTags := frontmatterTags loaded;
    links := links loaded;
    attachments := attachments loaded;
    contentPath := wContentPath p;
    title := tiTitle ti;
    pathToRoot := wPathToRoot p;
    icon := fst (getIcon h (source p));
    description := descr;
    url := joinStrings (siteURL o) (templatePath p) |} in
  {| source := source p; attachmentSourcePaths := attachmentSourcePaths p;
     isModified := true;
     isLoaded := isLoaded p; loadedMetadata := loaded; titleInfo := ti;
     pageMeta := m; content := content p; pageDocument := pageDocument p;
     hasTemplate := hasTemplate p;
     headTitle := headTitle p; templatePath := templatePath p;
     metadataPath := metadataPath p; wContentPath := wContentPath p;
     wPathToRoot := wPathToRoot p; headingsCache := headingsCache p;
     log := log p |}.

Definition setLoaded (p : Webpage) : Webpage :=
  {| source := source p; attachmentSourcePaths := attachmentSourcePaths p;
     isModified := isModified p; isLoaded := true;
     loadedMetadata := loadedMetadata p; titleInfo := titleInfo p;
     pageMeta := pageMeta p; content := content p;
     pageDocument := pageDocument p;
     hasTemplate := hasTemplate p; headTitle := headTitle p;
     templatePath := templatePath p; metadataPath := metadataPath p;
     wContentPath := wContentPath p; wPathToRoot := wPathToRoot p;
     headingsCache := headingsCache p; log := log p |}.

(** [Webpage.load] *)
Definition load (o : Options) (p : Webpage) : Webpage :=
  setLoaded (initMetadata o p).

(** The prefix test shared by [getLinksToOtherPages] and
    [getLinksToAttachments]. *)
Definition isLocalLink (link : string) : bool :=
  negb (JS.startsWith link "#")
  && negb (JS.startsWith link (libFolderName h ++ "/"))
  && negb (JS.startsWith link "https:")
  && negb (JS.startsWith link "http")
  && negb (JS.startsWith link "data:").

Definition getHrefLinks (c : option Content) : list string :=
  match c with Some c => List.map attr (hrefEls c) | None => [] end.

Definition getSrcLinks (c : option Content) : list string :=
  match c with Some c => List.map attr (srcEls c) | None => [] end.

(** [Webpage.getLinksToOtherPages] *)
Definition getLinksToOtherPages (w : Website) (c : option Content) : list string :=
  List.filter (hasFile w) (List.filter isLocalLink (getHrefLinks c)).

(** [Webpage.getLinksToAttachments] *)
Definition getLinksToAttachments (c : option Content) : list string :=
  List.filter isLocalLink (getSrcLinks c).

(** [Webpage.getBacklinks]: every backlink source the host reports goes
    through [getTargetFilePath], which registers the ones it does not
    know yet. *)
Fixpoint targetsOf (w : Website) (srcs : list string) : list string * Website :=
  match srcs with
  | [] => ([], w)
  | s :: rest =>
      let '(tp, w1) := getTargetFilePath w s None false in
      let '(ts, w2) := targetsOf w1 rest in
      (path tp :: ts, w2)
  end.

Definition getBacklinks (w : Website) (p : Webpage) : list string * Website :=
  targetsOf w (getBacklinksForFile h (filePath (source p))).

(** [Webpage.headingTextToID] *)
Definition headingTextToID (heading : option string) : string :=
  match heading with
  | Some s => JS.replaceAll ":" "" (JS.replaceAll " " "_" s)
  | None => ""
  end.

(** The regular expression [\w+:(\/\/|\\\\)] of [resolveLink], searched
    anywhere in the link: a word character, a colon, then two slashes or
    two backslashes. *)
Fixpoint matchesScheme (link : string) : bool :=
  match link with
  | EmptyString => false
  | String c rest =>
      JS.isWordChar c && (JS.startsWith rest "://" || JS.startsWith rest ":\\")
      || matchesScheme rest
  end.

(** [Webpage.resolveLink(link)]; [None] is [undefined]. *)
Definition resolveLink (w : Website) (p : Webpage) (link : option string)
    : option string * Website :=
  match link with
  | None => (Some "", w)
  | Some link =>
      if negb (JS.truthy link) then (Some "", w)
      else if negb (JS.startsWith link "app://") && matchesScheme link then (None, w)
      else if JS.startsWith link "data:" then (None, w)
      else if JS.startsWith link "?" then (None, w)
      else if JS.startsWith link "#" then
        let hrefValue := headingTextToID (Some link) in
        (Some (if relativeHeaderLinks (options w) then hrefValue
               else (templatePath p ++ hrefValue)%string), w)
      else
        let linkSplit := List.hd "" (JS.split "?" (List.hd "" (JS.split "#" link))) in
        let attachmentPath :=
          pathnameOf (parsePath (getFilePathFromSrc h linkSplit (filePath (source p)))) in
        let '(attachmentTargetPath, w') := getTargetFilePath w attachmentPath None false in
        (* [if (!attachmentTargetPath) return;] a Path object is never falsy *)
        let hash0 := default "" (JS.split "#" link !! 1%nat) in
        let hash1 := if JS.truthy hash0 then ("#" ++ hash0)%string else hash0 in
        let hash2 := if String.eqb (extensionNameOf (path attachmentTargetPath)) "html"
                     then headingTextToID (Some hash1) else hash1 in
        (Some (path attachmentTargetPath ++ hash2)%string, w')
  end.

(** [classList.toggle(name, force)] *)
Definition toggleClass (name : string) (force : bool) (cs : list string) : list string :=
  if force then (if existsb (String.eqb name) cs then cs else cs ++ [name])
  else List.filter (fun c => negb (String.eqb c name)) cs.

(** The body of the loops of [remapLinks] and [remapEmbedLinks]. *)
Definition remapEl (w : Website) (p : Webpage) (el : LinkEl) : LinkEl * Website :=
  let '(newHref, w') := resolveLink w p (Some (attr el)) in
  ({| attr := default (attr el) newHref;
      target := Some "_self";
      classes := toggleClass "is-unresolved" (negb (JS.truthyOpt newHref)) (classes el) |},
   w').

Fixpoint remapEls (w : Website) (p : Webpage) (els : list LinkEl) : list LinkEl * Website :=
  match els with
  | [] => ([], w)
  | el :: rest =>
      let '(el', w1) := remapEl w p el in
      let '(rest', w2) := remapEls w1 p rest in
      (el' :: rest', w2)
  end.

Definition remapHeadingId (e : HeadingEl) : HeadingEl :=
  {| tagName := tagName e;
     elId := headingTextToID (Some (default (textContent e) (dataHeading e)));
     hasHeadingClass := hasHeadingClass e; dataHeading := dataHeading e;
     textContent := textContent e; innerHTML := innerHTML e;
     inEmbedContent := inEmbedContent e; inEmbedBlock := inEmbedBlock e;
     inSizer := inSizer e; childPosition := childPosition e |}.

(** [Webpage.remapLinks] *)
Definition remapLinks (w : Website) (p : Webpage) (c : Content) : Content * Website :=
  let '(els, w') := remapEls w p (hrefEls c) in
  ({| hrefEls := els; srcEls := srcEls c;
      headingEls := List.map remapHeadingId (headingEls c);
      textNodes := textNodes c; pageTitleEl := pageTitleEl c |}, w').

(** [Webpage.remapEmbedLinks] *)
Definition remapEmbedLinks (w : Website) (p : Webpage) (c : Content) : Content * Website :=
  let '(els, w') := remapEls w p (srcEls c) in
  ({| hrefEls := hrefEls c; srcEls := els; headingEls := headingEls c;
      textNodes := textNodes c; pageTitleEl := pageTitleEl c |}, w').

End WebpageOps.

(** Field updates of the mutable [Webpage] and [WebpageData] objects. *)
Definition withPageMeta (p : Webpage) (m : WebpageData) : Webpage :=
  {| source := source p; attachmentSourcePaths := attachmentSourcePaths p;
     isModified := isModified p; isLoaded := isLoaded p;
     loadedMetadata := loadedMetadata p; titleInfo := titleInfo p;
     pageMeta := m; content := content p; pageDocument := pageDocument p;
     hasTemplate := hasTemplate p;
     headTitle := headTitle p; templatePath := templatePath p;
     metadataPath := metadataPath p; wContentPath := wContentPath p;
     wPathToRoot := wPathToRoot p; headingsCache := headingsCache p;
     log := log p |}.

Definition withContent (p : Webpage) (c : option Content) : Webpage :=
  {| source := source p; attachmentSourcePaths := attachmentSourcePaths p;
     isModified := isModified p; isLoaded := isLoaded p;
     loadedMetadata := loadedMetadata p; titleInfo := titleInfo p;
     pageMeta := pageMeta p; content := c; pageDocument := pageDocument p;
     hasTemplate := hasTemplate p;
     headTitle := headTitle p; templatePath := templatePath p;
     metadataPath := metadataPath p; wContentPath := wContentPath p;
     wPathToRoot := wPathToRoot p; headingsCache := headingsCache p;
     log := log p |}.

Definition withPageDocument (p : Webpage) (d : option PageDocument) : Webpage :=
  {| source := source p; attachmentSourcePaths := attachmentSourcePaths p;
     isModified := isModified p; isLoaded := isLoaded p;
     loadedMetadata := loadedMetadata p; titleInfo := titleInfo p;
     pageMeta := pageMeta p; content := content p; pageDocument := d;
     hasTemplate := hasTemplate p;
     headTitle := headTitle p; templatePath := templatePath p;
     metadataPath := metadataPath p; wContentPath := wContentPath p;
     wPathToRoot := wPathToRoot p; headingsCache := headingsCache p;
     log := log p |}.

Definition withAttachmentSourcePaths (p : Webpage) (l : list string) : Webpage :=
  {| source := source p; attachmentSourcePaths := l;
     isModified := isModified p; isLoaded := isLoaded p;
     loadedMetadata := loadedMetadata p; titleInfo := titleInfo p;
     pageMeta := pageMeta p; content := content p; pageDocument := pageDocument p;
     hasTemplate := hasTemplate p;
     headTitle := headTitle p; templatePath := templatePath p;
     metadataPath := metadataPath p; wContentPath := wContentPath p;
     wPathToRoot := wPathToRoot p; headingsCache := headingsCache p;
     log := log p |}.

Definition withHeadingsCache (p : Webpage) (l : list HeadingData) : Webpage :=
  {| source := source p; attachmentSourcePaths := attachmentSourcePaths p;
     isModified := isModified p; isLoaded := isLoaded p;
     loadedMetadata := loadedMetadata p; titleInfo := titleInfo p;
     pageMeta := pageMeta p; content := content p; pageDocument := pageDocument p;
     hasTemplate := hasTemplate p;
     headTitle := headTitle p; templatePath := templatePath p;
     metadataPath := metadataPath p; wContentPath := wContentPath p;
     wPathToRoot := wPathToRoot p; headingsCache := l; log := log p |}.

Definition withTemplate (p : Webpage) (head : option string) : Webpage :=
  {| source := source p; attachmentSourcePaths := attachmentSourcePaths p;
     isModified := isModified p; isLoaded := isLoaded p;
     loadedMetadata := loadedMetadata p; titleInfo := titleInfo p;
     pageMeta := pageMeta p; content := content p; pageDocument := pageDocument p;
     hasTemplate := true;
     headTitle := head; templatePath := templatePath p;
     metadataPath := metadataPath p; wContentPath := wContentPath p;
     wPathToRoot := wPathToRoot p; headingsCache := headingsCache p;
     log := log p |}.

Definition addLog (p : Webpage) (e : LogEntry) : Webpage :=
  {| source := source p; attachmentSourcePaths := attachmentSourcePaths p;
     isModified := isModified p; isLoaded := isLoaded p;
     loadedMetadata := loadedMetadata p; titleInfo := titleInfo p;
     pageMeta := pageMeta p; content := content p; pageDocument := pageDocument p;
     hasTemplate := hasTemplate p;
     headTitle := headTitle p; templatePath := templatePath p;
     metadataPath := metadataPath p; wContentPath := wContentPath p;
     wPathToRoot := wPathToRoot p; headingsCache := headingsCache p;
     log := log p ++ [e] |}.

Definition withType (m : WebpageData) (t : ObsidianFileType) : WebpageData :=
  {| stat := stat m; wpPath := wpPath m; sourcePath := sourcePath m;
     showInTree := showInTree m; treeOrder := treeOrder m;
     backlinks := backlinks m; type := t; headers := headers m;
     aliases := aliases m; inlineTags := inlineTags m;
     frontmatterTags := frontmatterTags m; links := links m;
     attachments := attachments m; contentPath := contentPath m;
     title := title m; pathToRoot := pathToRoot m; icon := icon m;
     description := description m; url := url m |}.

Definition withTitle (m : WebpageData) (t : string) : WebpageData :=
  {| stat := stat m; wpPath := wpPath m; sourcePath := sourcePath m;
     showInTree := showInTree m; treeOrder := treeOrder m;
     backlinks := backlinks m; type := type m; headers := headers m;
     aliases := aliases m; inlineTags := inlineTags m;
     frontmatterTags := frontmatterTags m; links := links m;
     attachments := attachments m; contentPath := contentPath m;
     title := t; pathToRoot := pathToRoot m; icon := icon m;
     description := description m; url := url m |}.

Definition withModifiedTime (m : WebpageData) (now : nat) : WebpageData :=
  {| stat := mkStat (createdTime (stat m)) now (sourceSize (stat m));
     wpPath := wpPath m; sourcePath := sourcePath m;
     showInTree := showInTree m; treeOrder := treeOrder m;
     backlinks := backlinks m; type := type m; headers := headers m;
     aliases := aliases m; inlineTags := inlineTags m;
     frontmatterTags := frontmatterTags m; links := links m;
     attachments := attachments m; contentPath := contentPath m;
     title := title m; pathToRoot := pathToRoot m; icon := icon m;
     description := description m; url := url m |}.

(** The four lists [fillMetadataAfterRender] assigns. *)
Definition withGraph (m : WebpageData) (hs : list HeadingData)
    (ls bs ats : list string) : WebpageData :=
  {| stat := stat m; wpPath := wpPath m; sourcePath := sourcePath m;
     showInTree := showInTree m; treeOrder := treeOrder m;
     backlinks := bs; type := type m; headers := hs;
     aliases := aliases m; inlineTags := inlineTags m;
     frontmatterTags := frontmatterTags m; links := ls;
     attachments := ats; contentPath := contentPath m;
     title := title m; pathToRoot := pathToRoot m; icon := icon m;
     description := description m; url := url m |}.

Section WebpageBuild.
Context `{PathLib}.
Variable h : Host.

(** [parseInt(headerEl.tagName[1])] for the tags H1 .. H6 *)
Definition tagLevel (tag : string) : nat :=
  match tag with
  | String _ (String d _) => nat_of_ascii d - 48
  | _ => 0
  end.

(** [Webpage.getHeadings] *)
Definition getHeadings (c : option Content) : list HeadingData :=
  match c with
  | None => []
  | Some c =>
      List.map (fun e =>
        {| heading := default (textContent e) (dataHeading e);
           level := tagLevel (tagName e) + (if inEmbedBlock e then 6 else 0);
           id := elId e |})
        (List.filter hasHeadingClass (headingEls c))
  end.

(** [Webpage.getRenderedHeadings] *)
Definition getRenderedHeadings (p : Webpage) : list HeadingData * Webpage :=
  match headingsCache p with
  | _ :: _ => (headingsCache p, p)
  | [] =>
      let hs := List.map (fun d =>
                  {| heading := renderInline h (heading d);
                     level := level d; id := id d |})
                  (getHeadings (content p)) in
      (hs, withHeadingsCache p hs)
  end.

(** [link != this.metadata.path] *)
Definition notSelf (self link : string) : bool := negb (String.eqb link self).

(** [Webpage.fillMetadataAfterRender] *)
Definition fillMetadataAfterRender (w : Website) (p : Webpage) : Webpage * Website :=
  let '(hs, p1) := getRenderedHeadings p in
  let self := wpPath (pageMeta p1) in
  let ls := List.filter (notSelf self) (getLinksToOtherPages h w (content p1)) in
  let '(bs0, w') := getBacklinks h w p1 in
  let bs := List.filter (notSelf self) bs0 in
  let ats := List.filter (notSelf self) (getLinksToAttachments h (content p1)) in
  (withPageMeta p1 (withGraph (pageMeta p1) hs ls bs ats), w').

(** The first element [pageDocument.querySelector] finds for
    [:is(h1, ..., h6):not(.markdown-embed-content * )], and the document
    once that element is removed. *)
Definition firstHeader (d : PageDocument) : option HeadingEl :=
  List.find (fun e => negb (inEmbedContent e)) (docHeadingEls d).

Fixpoint removeFirst (l : list HeadingEl) : list HeadingEl :=
  match l with
  | [] => []
  | e :: r => if negb (inEmbedContent e) then r else e :: removeFirst r
  end.

Definition removeFirstHeader (d : PageDocument) : PageDocument :=
  {| bodyClassList := bodyClassList d; docHeadingEls := removeFirst (docHeadingEls d) |}.

(** Lines 332-360 of [addTitle]: an [h1] of classes [page-title] and
    [heading], whose id is the title, is prepended to [this.content].
    Its text is filled by [renderMarkdownSimpleEl], which is called
    without [await], so what the element holds when the page is indexed
    and saved is not fixed by this file: the element is kept apart in
    [pageTitleEl], and is not listed among [headingEls] and [textNodes].
    The headings of a page are read from the content before [addTitle]
    runs ([fillMetadataAfterRender]) and from the cache afterwards, as
    long as the cache is not empty. *)
Definition prependTitleEl (c : Content) (t : string) : Content :=
  {| hrefEls := hrefEls c; srcEls := srcEls c; headingEls := headingEls c;
     textNodes := textNodes c; pageTitleEl := Some t |}.

(** The header is taken as the title (when the title is the default
    one) and removed from the document; [used] and [replaced] are the
    two log entries. *)
Definition takeHeader (p : Webpage) (d : PageDocument) (fh : HeadingEl)
    (used replaced : LogEntry) : Webpage :=
  let p1 := if isDefault (titleInfo p)
            then addLog (withPageMeta p (withTitle (pageMeta p) (innerHTML fh))) used
            else addLog p replaced in
  withPageDocument p1 (Some (removeFirstHeader d)).

(** [Webpage.addTitle].  The header is looked up in, and removed from,
    [this.pageDocument]; the title element is prepended to
    [this.content].  ([build], its only caller, has created the
    document.) *)
Definition addTitle (p : Webpage) : Webpage :=
  match content p, pageDocument p with
  | Some c, Some d =>
      if negb (bool_decide (type (pageMeta p) = Markdown)) then p
      else
        let p1 :=
          match firstHeader d with
          | None => p
          | Some fh =>
              let firstHeaderText :=
                JS.toLowerCase (default (textContent fh) (dataHeading fh)) in
              let lowerTitle := JS.toLowerCase (title (pageMeta p)) in
              let base := fileBasename (source p) in
              let titleDiff :=
                jsDiv (levenshteinDistance firstHeaderText lowerTitle)
                      (String.length lowerTitle) in
              let basenameDiff :=
                jsDiv (levenshteinDistance firstHeaderText (JS.toLowerCase base))
                      (String.length base) in
              let difference := jsMin titleDiff basenameDiff in
              let showInlineTitle :=
                existsb (String.eqb "show-inline-title") (bodyClassList d) in
              if String.eqb (tagName fh) "H1" && jsLt difference 1 5
                 || String.eqb (tagName fh) "H2" && jsLt difference 1 10
              then takeHeader p d fh (UsedSimilarHeader firstHeaderText)
                                     (ReplacedSimilarHeader firstHeaderText)
              else if String.eqb (tagName fh) "H1" && negb showInlineTitle
              then
                if inSizer fh && (childPosition fh <=? 2)%nat
                then takeHeader p d fh (UsedTopHeader firstHeaderText)
                                       (ReplacedTopHeader firstHeaderText)
                else p
              else p
          end in
        withContent p1 (Some (prependTitleEl c (title (pageMeta p1))))
  | _, _ => p
  end.

Inductive BuildOutcome := Skipped | RenderFailed | Built.

(** [pseudoBody.append(this.website.pageTemplate.getFinalLayout())]: the
    layout comes after the content in the body of the document. *)
Definition appendLayout (p : Webpage) : Webpage :=
  withPageDocument p
    (option_map (fun d => {| bodyClassList := bodyClassList d;
                             docHeadingEls := docHeadingEls d ++ layoutHeadingEls h |})
       (pageDocument p)).

(** Lines 176-213 of [Webpage.build]: what happens to a page that is
    loaded and marked modified.  Line 184,
    [this.content.outerHTML = ...], replaces the empty div in the body of
    the document by a copy of the rendered element; [this.content] goes
    on naming the element that was handed to the renderer as its
    container, now outside the document. *)
Definition buildModified (w : Website) (p0 : Webpage) : BuildOutcome * Webpage * Website :=
  match renderFile h (source p0) with
  | None =>
      (RenderFailed,
       withPageDocument (withContent p0 (Some emptyContent)) (Some newPageDocument), w)
  | Some renderInfo =>
      let p1 := withPageDocument (withContent p0 (Some (container renderInfo)))
                  (Some (mkPageDocument [] (headingEls (contentEl renderInfo)))) in
      let p2 := withPageMeta p1 (withType (pageMeta p1) (default Other (viewType renderInfo))) in
      let p3 := withAttachmentSourcePaths p2 (getLinksToAttachments h (content p2)) in
      let '(c4, w4) := remapLinks h w p3 (container renderInfo) in
      let '(c5, w5) := remapEmbedLinks h w4 p3 c4 in
      let '(p6, w6) := fillMetadataAfterRender w5 (withContent p3 (Some c5)) in
      let p7 := withTemplate (appendLayout p6)
                  (if addHeadTag (options w) then Some (title (pageMeta p6)) else None) in
      let p8 := if optAddTitle (options w) then addTitle p7 else p7 in
      (Built, p8, w6)
  end.

(** [Webpage.build] *)
Definition build (w : Website) (p : Webpage) : BuildOutcome * Webpage * Website :=
  let p0 := if isLoaded p then p else load h (options w) p in
  if negb (isModified p0) then (Skipped, p0, w)
  else buildModified w p0.

(** [Webpage.save], at the time [now]: the page, the files written, and
    whether the call returned.  [saveMetadata] stamps the time and writes
    the record; [saveContent] reads [this.content.outerHTML] and
    [saveTemplate] reads [this.template.outerHTML], so each of them
    throws a [TypeError] on a field that was never set, after the files
    before it have been written. *)
Definition save (now : nat) (p : Webpage) : Webpage * list Written * bool :=
  if negb (isModified p) then (p, [], true)
  else
    let p1 := withPageMeta p (withModifiedTime (pageMeta p) now) in
    match content p with
    | None => (p1, [WMetadata (metadataPath p)], false)
    | Some _ =>
        if hasTemplate p
        then (p1, [WMetadata (metadataPath p); WContent (wContentPath p);
                   WTemplate (templatePath p)], true)
        else (p1, [WMetadata (metadataPath p); WContent (wContentPath p)], false)
    end.

(** [Webpage.dispose]: the content and the template are taken out of
    the document, which is dropped; the fields keep naming them. *)
Definition dispose (p : Webpage) : Webpage := withPageDocument p None.

End WebpageBuild.

(** ** [Index]: the search index *)

Definition stopWords : list string :=
  ["a"; "about"; "actually"; "almost"; "also"; "although"; "always"; "am";
   "an"; "and"; "any"; "are"; "as"; "at"; "be"; "became"; "become"; "but";
   "by"; "can"; "could"; "did"; "do"; "does"; "each"; "either"; "else";
   "for"; "from"; "had"; "has"; "have"; "hence"; "how"; "i"; "if"; "in";
   "is"; "it"; "its"; "just"; "may"; "maybe"; "me"; "might"; "mine"; "must";
   "my"; "mine"; "must"; "my"; "neither"; "nor"; "not"; "of"; "oh"; "ok";
   "when"; "where"; "whereas"; "wherever"; "whenever"; "whether"; "which";
   "while"; "who"; "whom"; "whoever"; "whose"; "why"; "will"; "with";
   "within"; "without"; "would"; "yes"; "yet"; "you"; "your"].

(** [stopWords.includes(term)] *)
Definition isStopWord (term : string) : bool :=
  existsb (String.eqb term) stopWords.

(** [minisearchOptions.processTerm]; [None] is [null]: the term is dropped. *)
Definition processTerm (term : string) : option string :=
  if isStopWord term then None else Some (JS.toLowerCase term).

(** [minisearch.has(id)], [minisearch.discard(id)], [minisearch.add(doc)] *)
Definition msHas (ms : list SearchDoc) (key : string) : bool :=
  existsb (fun d => String.eqb (docId d) key) ms.

Definition msDiscard (ms : list SearchDoc) (key : string) : list SearchDoc :=
  List.filter (fun d => negb (String.eqb (docId d) key)) ms.

Definition msAdd (ms : list SearchDoc) (d : SearchDoc) : option (list SearchDoc) :=
  if msHas ms (docId d) then None else Some (ms ++ [d]).

(** [content.replace(/\s+/g, ' ')] *)
Fixpoint collapseSpaces (inRun : bool) (s : string) : string :=
  match s with
  | EmptyString => EmptyString
  | String c r =>
      if JS.isSpace c
      then (if inRun then collapseSpaces true r else String " " (collapseSpaces true r))
      else String c (collapseSpaces false r)
  end.

Section IndexOps.
Context `{PathLib}.
Variable h : Host.
(** MiniSearch's tokenizer. *)
Variable tokenize : string -> list string.

(** [Index.getSearchContent] *)
Definition getSearchContent (p : Webpage) : string :=
  match content p with
  | None => ""
  | Some c =>
      let kept := List.filter (fun n => negb (skipped n)) (textNodes c) in
      let body := String.concat "" (List.map (fun n => " " ++ text n ++ " ")%string kept) in
      let all := (body ++ JS.join " " (links (pageMeta p))
                       ++ JS.join " " (attachments (pageMeta p)))%string in
      collapseSpaces false (JS.trim all)
  end.

(** The terms MiniSearch stores for a document: each indexed field is
    turned into a string, tokenized, and every token goes through
    [processTerm]. *)
Definition indexedTerms (fields : list string) : list string :=
  List.concat (List.map (fun f => omap processTerm (tokenize f)) fields).

(** [Index.addWebpageToMinisearch]; [None] when [minisearch.add] throws.
    [headersInfo.shift()] acts on the array that is both the headings
    cache and [metadata.headers]. *)
Definition addWebpageToMinisearch (ms : option (list SearchDoc)) (p : Webpage)
    : option (option (list SearchDoc) * Webpage) :=
  match ms with
  | None => Some (None, p)
  | Some docs =>
      let webpagePath := templatePath p in
      let docs1 := if msHas docs webpagePath then msDiscard docs webpagePath else docs in
      let '(headersInfo, p1) := getRenderedHeadings h p in
      let shifted :=
        match headersInfo with
        | d :: rest =>
            if (level d =? 1)%nat && String.eqb (heading d) (title (pageMeta p1))
            then Some rest else None
        | [] => None
        end in
      let p2 :=
        match shifted with
        | Some rest =>
            withHeadingsCache
              (withPageMeta p1
                 (withGraph (pageMeta p1) rest (links (pageMeta p1))
                    (backlinks (pageMeta p1)) (attachments (pageMeta p1))))
              rest
        | None => p1
        end in
      let hdrs := List.map heading (default headersInfo shifted) in
      let m := pageMeta p2 in
      let doc :=
        {| docId := webpagePath;
           docTerms := indexedTerms
             [title m; JS.join "," (aliases m); JS.join "," hdrs;
              JS.join "," (inlineTags m ++ frontmatterTags m); webpagePath;
              (description m ++ " " ++ getSearchContent p2)%string] |} in
      match msAdd docs1 doc with
      | Some docs2 => Some (Some docs2, p2)
      | None => None
      end
  end.

(** ** [Website]: loading and building *)

(** [Website.createAttachment] *)
Definition createAttachment (w : Website) (file : TFile) : Attachment * Website :=
  let '(tp, w') := getTargetFilePath w (filePath file) None true in
  (mkAttachment (path tp) file true, w').

Fixpoint loadWebpages (w : Website) (fs : list TFile) : list Webpage * Website :=
  match fs with
  | [] => ([], w)
  | f :: rest =>
      let '(p, w1) := newWebpage w f in
      let '(ps, w2) := loadWebpages w1 rest in
      (load h (options w) p :: ps, w2)
  end.

Fixpoint createAttachments (w : Website) (fs : list TFile) : list Attachment * Website :=
  match fs with
  | [] => ([], w)
  | f :: rest =>
      let '(a, w1) := createAttachment w f in
      let '(l, w2) := createAttachments w1 rest in
      (a :: l, w2)
  end.

Definition isAttachmentFile (f : TFile) : bool :=
  negb (isConvertable h (fileExtension f))
  || existsb (String.eqb (fileExtension f)) (viewableMediaExtensions h).

(** [Website.initWebpages] *)
Definition initWebpages (w : Website) : Website :=
  let '(ps, w1) := loadWebpages w (files w) in
  let '(atts, w2) := createAttachments w1 (List.filter isAttachmentFile (files w)) in
  setAttachments (setWebpages w2 ps) atts.

(** [Website.load], for options whose export root is already set: the
    tables of [initMetadata], then [initWebpages]. *)
Definition loadWebsite (w : Website) : Website :=
  initWebpages (setMinisearch (initTables w (List.map filePath (files w)))
                  (Some (default [] (minisearch w)))).

(** The first loop of [Website.build] (lines 85-102).  An exception in
    the [try] block ([minisearch.add] or [save] throwing) skips the rest
    of the block, so the attachment paths of the page are not collected;
    [dispose] runs in every case. *)
Fixpoint buildPages (now : nat) (w : Website) (ps : list Webpage)
    : list Webpage * list string * Website :=
  match ps with
  | [] => ([], [], w)
  | p :: rest =>
      let '(_, p1, w1) := build h w p in
      let '(p3, paths, w3) :=
        match addWebpageToMinisearch (minisearch w1) p1 with
        | Some (ms, p2) =>
            let '(p3, out, returned) := save now p2 in
            (p3, if returned then attachmentSourcePaths p3 else [],
             addWritten (setMinisearch w1 ms) out)
        | None => (p1, [], w1)
        end in
      let '(ps', paths', w') := buildPages now w3 rest in
      (dispose p3 :: ps', paths ++ paths', w')
  end.

(** The second loop (lines 105-114): one attachment per collected path
    that names a file of the vault. *)
Fixpoint attachNew (w : Website) (paths : list string) : Website :=
  match paths with
  | [] => w
  | a :: rest =>
      match getFileByPath h a with
      | Some file =>
          let '(att, w1) := createAttachment w file in
          attachNew (setAttachments w1 (siteAttachments w1 ++ [att])) rest
      | None => attachNew w rest
      end
  end.

(** [Website.saveAttachments] *)
Definition saveAttachments (w : Website) : Website :=
  addWritten w (List.map (fun a => WAttachment (attTargetPath a)) (siteAttachments w)).

(** [Website.build], as far as pages and attachments go (the template
    features, the manifest, the index file and the downloads of the asset
    library are left out). *)
Definition buildWebsite (now : nat) (w : Website) : Website :=
  let '(ps, newAttachmentPaths, w1) := buildPages now w (webpages w) in
  saveAttachments (attachNew (setWebpages w1 ps) newAttachmentPaths).

End IndexOps.

(** ** [HTMLExportPlugin.exportFolder]: the downloads of the first revision *)

Record Downloadable := mkDownloadable {
  dlFilename : string;
  dlRelativePath : option string;
}.

(** [f.relativePath == file.relativePath && f.filename == file.filename] *)
Definition sameDownload (file f : Downloadable) : bool :=
  bool_decide (dlRelativePath f = dlRelativePath file)
  && String.eqb (dlFilename f) (dlFilename file).

(** [array.findIndex(pred)]; [None] is -1. *)
Fixpoint findIndex {A} (pred : A -> bool) (l : list A) : option nat :=
  match l with
  | [] => None
  | x :: r => if pred x then Some 0 else S <$> findIndex pred r
  end.

(** [array.filter((x, index) => keep x index)], counting from [i]. *)
Fixpoint filterIndexed {A} (keep : A -> nat -> bool) (i : nat) (l : list A) : list A :=
  match l with
  | [] => []
  | x :: r => if keep x i then x :: filterIndexed keep (S i) r
              else filterIndexed keep (S i) r
  end.

(** Line 230: "remove duplicates and download". *)
Definition removeDuplicates (externalFiles : list Downloadable) : list Downloadable :=
  filterIndexed
    (fun file index =>
       bool_decide (findIndex (sameDownload file) externalFiles = Some index))
    0 externalFiles.

(** ** [Website.getCombinedHTML] (first revision of [website.ts]) *)

Module Combined.

(** An element created by [html.head.createEl("data")]. *)
Record DataEl := mkDataEl { dataId : string; dataValue : string }.

(** The parsed index document: the ids of the elements it had when it
    was parsed, and the data elements appended to its head since. *)
Record HtmlDoc := mkHtmlDoc {
  authoredIds : list string;
  headData : list DataEl;
}.

(** An entry of [index.webpages]: a downloadable page. *)
Record IndexPage := mkIndexPage { filename : string; data : option string }.

(** [index.websiteData]: the two tables as their entries in
    [Object.entries] order (the keys of an object are distinct), each
    value already serialised by [JSON.stringify], and the serialised
    remainder of the manifest. *)
Record SiteData := mkSiteData {
  fileInfo : list (string * string);
  webpagesInfo : list (string * string);
  manifestJson : string;
}.

Definition hexDigit (n : nat) : ascii :=
  if (n <? 10)%nat then ascii_of_nat (48 + n) else ascii_of_nat (55 + n).

(** The characters [encodeURI] leaves as they are. *)
Definition uriUnescaped (c : ascii) : bool :=
  let n := nat_of_ascii c in
  ((48 <=? n) && (n <=? 57) || (65 <=? n) && (n <=? 90) || (97 <=? n) && (n <=? 122))%nat
  || existsb (Ascii.eqb c) (list_ascii_of_string ";/?:@&=+$,#-_.!~*'()").

(** [encodeURI(s)]: every other code unit becomes [%XX]. *)
Fixpoint encodeURI (s : string) : string :=
  match s with
  | EmptyString => EmptyString
  | String c r =>
      if uriUnescaped c then String c (encodeURI r)
      else String "%" (String (hexDigit (nat_of_ascii c / 16))
                         (String (hexDigit (nat_of_ascii c mod 16)) (encodeURI r)))
  end.

(** The value of a hexadecimal digit. *)
Definition hexValue (c : ascii) : nat :=
  let n := nat_of_ascii c in if (n <? 58)%nat then n - 48 else n - 55.

(** [html.getElementById(id)] is not null *)
Definition getElementById (d : HtmlDoc) (key : string) : bool :=
  existsb (String.eqb key) (authoredIds d)
  || existsb (fun e => String.eqb (dataId e) key) (headData d).

(** [html.head.createEl("data")] with its id and value set *)
Definition createData (d : HtmlDoc) (key value : string) : HtmlDoc :=
  {| authoredIds := authoredIds d; headData := headData d ++ [mkDataEl key value] |}.

(** Lines 597-602: one data element per entry of [webpages]. *)
Definition embedWebpages (d : HtmlDoc) (entries : list (string * string)) : HtmlDoc :=
  fold_left (fun d '(p, json) => createData d (encodeURI p) (encodeURI json)) entries d.

(** Lines 605-611: "do the same for file info skipping already existing
    elements". *)
Definition embedFileInfo (d : HtmlDoc) (entries : list (string * string)) : HtmlDoc :=
  fold_left (fun d '(p, json) =>
               if getElementById d (encodeURI p) then d
               else createData d (encodeURI p) (encodeURI json)) entries d.

(** [index?.data] is truthy *)
Definition hasData (p : option IndexPage) : bool :=
  match p with Some p => JS.truthyOpt (data p) | None => false end.

Section GetCombinedHTML.
(** [new DOMParser().parseFromString(data, "text/html")]: the ids of the
    elements of the parsed document. *)
Variable parseIds : string -> list string.

(** [Website.getCombinedHTML]; [None] is the empty string returned when
    no index page is found. *)
Definition getCombinedHTML (pages : list IndexPage) (site : SiteData) : option HtmlDoc :=
  let index0 := List.find (fun f => String.eqb (filename f) "index.html") pages in
  let index1 := if negb (hasData index0) && (0 <? length pages)%nat
                then List.hd_error pages else index0 in
  if negb (hasData index1) then None
  else
    let html := mkHtmlDoc (parseIds (default "" (index1 ≫= data))) [] in
    let html1 := createData html "website-metadata" (encodeURI (manifestJson site)) in
    Some (embedFileInfo (embedWebpages html1 (webpagesInfo site)) (fileInfo site)).

End GetCombinedHTML.

End Combined.

(** ** Concrete vaults used by the examples *)

Module Fixtures.

Definition mdFile (dir base : string) : TFile :=
  {| filePath := (dir ++ base ++ ".md")%string; fileName := (base ++ ".md")%string;
     fileBasename := base; fileExtension := "md";
     ctime := 50; mtime := 100; size := 10 |}.

Definition pngFile (base : string) : TFile :=
  {| filePath := (base ++ ".png")%string; fileName := (base ++ ".png")%string;
     fileBasename := base; fileExtension := "png";
     ctime := 50; mtime := 100; size := 10 |}.

(** A host with an empty vault: nothing resolves, nothing renders. *)
Definition emptyHost : Host := {|
  getBacklinksForFile := fun _ => [];
  getFirstLinkpathDest := fun _ _ => None;
  resolveFileUrl := fun _ => None;
  getFileByPath := fun _ => None;
  frontmatterOf := fun _ => ∅;
  storedMetadata := fun _ => None;
  renderFile := fun _ => None;
  renderInline := fun s => s;
  isConvertable := fun ext => String.eqb ext "md";
  viewableMediaExtensions := ["png"; "jpg"];
  getIcon := fun _ => ("", true);
  layoutHeadingEls := [];
  libFolderName := "lib";
  titleProperty := "title";
|}.

Definition plainOptions : Options := {|
  slugifyPaths := false; exportRoot := "/"; relativeHeaderLinks := true;
  addHeadTag := true; optAddTitle := true; siteURL := ""; siteName := "Site";
|}.

Definition slugOptions : Options := {|
  slugifyPaths := true; exportRoot := "/"; relativeHeaderLinks := true;
  addHeadTag := true; optAddTitle := true; siteURL := ""; siteName := "Site";
|}.

Definition site (o : Options) (fs : list TFile) : Website := {|
  options := o;
  metadata := {| allFiles := []; sourceToTarget := ∅; targetToSource := ∅ |};
  targetPath := "out"; files := fs; webpages := []; siteAttachments := [];
  minisearch := None; written := [];
|}.

Definition link (href : string) : LinkEl := mkLinkEl href None [].

Definition h1 (txt : string) : HeadingEl := {|
  tagName := "H1"; elId := ""; hasHeadingClass := true; dataHeading := Some txt;
  textContent := txt; innerHTML := txt; inEmbedContent := false;
  inEmbedBlock := false; inSizer := true; childPosition := 0 |}.

(** The renderer fills the container with the rendered note and
    returns it as the content element. *)
Definition rendered (hrefs srcs : list string) (hs : list HeadingEl) : RenderInfo :=
  let c := {| hrefEls := List.map link hrefs; srcEls := List.map link srcs;
              headingEls := hs; textNodes := []; pageTitleEl := None |} in
  {| container := c; contentEl := c; viewType := Some Markdown |}.

(** The page [new Webpage(website, file)] creates, and the site after it. *)
Definition pageOf (w : Website) (f : TFile) : Webpage := fst (newWebpage w f).

End Fixtures.

(** ** Vocabulary of the statements *)

(** No upper-case letter is left in a lower-cased string. *)
Fixpoint allLower (s : string) : bool :=
  match s with
  | EmptyString => true
  | String c r => negb (JS.isUpper c) && allLower r
  end.


(** An external URL in the sense of [resolveLink]: the scheme pattern
    occurs in it and it does not start with [app://]. *)
Definition isExternalURL (link : string) : bool :=
  negb (JS.startsWith link "app://") && matchesScheme link.

(** A link that is not site-local: an external URL, a [data:] URI or a
    bare query string. *)
Definition isPassThrough (link : string) : bool :=
  isExternalURL link || JS.startsWith link "data:" || JS.startsWith link "?".

(** A path-bearing link: one that [resolveLink] sends through the
    source-to-target table. *)
Definition isPathBearing (link : string) : bool :=
  JS.truthy link && negb (isPassThrough link) && negb (JS.startsWith link "#").

Module LinkFixtures.
Import Fixtures.

(** A one-page site: [a.md], exported without slugification. *)
Definition files : list TFile := [mdFile "" "a"].
Definition w0 : Website := initTables (site plainOptions files) ["a.md"].
Definition pageA : Webpage := pageOf w0 (mdFile "" "a").

End LinkFixtures.

Module IncrementalFixtures.
Import Fixtures.

(** The record a previous export left for [a.md]: written at time 200. *)
Definition previous : WebpageData :=
  withModifiedTime (withTitle newWebpageData "a") 200.

(** The source [a.md] was last modified at time 100, before that export. *)
Definition host : Host := {|
  getBacklinksForFile := fun _ => [];
  getFirstLinkpathDest := fun _ _ => None;
  resolveFileUrl := fun _ => None;
  getFileByPath := fun _ => None;
  frontmatterOf := fun _ => ∅;
  storedMetadata := fun p => if String.eqb p "a.json" then Some previous else None;
  renderFile := fun _ => Some (rendered [] [] []);
  renderInline := fun s => s;
  isConvertable := fun ext => String.eqb ext "md";
  viewableMediaExtensions := ["png"; "jpg"];
  getIcon := fun _ => ("", true);
  layoutHeadingEls := [];
  libFolderName := "lib";
  titleProperty := "title";
|}.

End IncrementalFixtures.

(** The number of documents of the index stored under the id [key]. *)
Definition countId (key : string) (docs : list SearchDoc) : nat :=
  length (List.filter (fun d => String.eqb (docId d) key) docs).

(** The test of [addTitle] on the first header: its lower-cased text is
    within the threshold of the title or of the file's base name. *)
Definition similarHeading (ttl base : string) (fh : HeadingEl) : bool :=
  let firstHeaderText := JS.toLowerCase (default (textContent fh) (dataHeading fh)) in
  let lowerTitle := JS.toLowerCase ttl in
  let difference :=
    jsMin (jsDiv (levenshteinDistance firstHeaderText lowerTitle) (String.length lowerTitle))
          (jsDiv (levenshteinDistance firstHeaderText (JS.toLowerCase base))
                 (String.length base)) in
  String.eqb (tagName fh) "H1" && jsLt difference 1 5
  || String.eqb (tagName fh) "H2" && jsLt difference 1 10.

(** The first heading of a rendered element that is not inside the
    content of an embed. *)
Definition firstHeading (c : Content) : option HeadingEl :=
  List.find (fun e => negb (inEmbedContent e)) (headingEls c).

(** The edit distance between the heading's lower-cased text and the
    lower-cased base name of the file. *)
Definition headingDistance (base : string) (fh : HeadingEl) : nat :=
  levenshteinDistance (JS.toLowerCase (default (textContent fh) (dataHeading fh)))
                      (JS.toLowerCase base).

Module TitleFixtures.
Import Fixtures.

Definition intro : TFile := mdFile "" "introduction".

Definition hostRendering (hs : list HeadingEl) : Host := {|
  getBacklinksForFile := fun _ => [];
  getFirstLinkpathDest := fun _ _ => None;
  resolveFileUrl := fun _ => None;
  getFileByPath := fun _ => None;
  frontmatterOf := fun _ => ∅;
  storedMetadata := fun _ => None;
  renderFile := fun _ => Some (rendered [] [] hs);
  renderInline := fun s => s;
  isConvertable := fun ext => String.eqb ext "md";
  viewableMediaExtensions := ["png"; "jpg"];
  getIcon := fun _ => ("", true);
  layoutHeadingEls := [];
  libFolderName := "lib";
  titleProperty := "title";
|}.

Definition host : Host := hostRendering [h1 "Introduction"].

(** The heading [# *Intro*duction]: its text is "Introduction", its
    markup carries the emphasis. *)
Definition emphasised : HeadingEl := {|
  tagName := "H1"; elId := ""; hasHeadingClass := true;
  dataHeading := Some "Introduction"; textContent := "Introduction";
  innerHTML := "<em>Intro</em>duction"; inEmbedContent := false;
  inEmbedBlock := false; inSizer := true; childPosition := 0 |}.

Definition noTitleOptions : Options := {|
  slugifyPaths := false; exportRoot := "/"; relativeHeaderLinks := true;
  addHeadTag := true; optAddTitle := false; siteURL := ""; siteName := "Site";
|}.

Definition w0 (o : Options) : Website := initTables (site o [intro]) ["introduction.md"].
Definition page (o : Options) : Webpage := pageOf (w0 o) intro.

(** The page [build] returns. *)
Definition built (h : Host) (o : Options) : Webpage :=
  snd (fst (build h (w0 o) (page o))).

End TitleFixtures.

Module AttachmentFixtures.
Import Fixtures.

(** Two notes, [a.md] and [b.md], both embedding the image [img.png] of
    the vault. *)
Definition host : Host := {|
  getBacklinksForFile := fun _ => [];
  getFirstLinkpathDest := fun p _ => if String.eqb p "img.png" then Some "img.png" else None;
  resolveFileUrl := fun _ => None;
  getFileByPath := fun p => if String.eqb p "img.png" then Some (pngFile "img") else None;
  frontmatterOf := fun _ => ∅;
  storedMetadata := fun _ => None;
  renderFile := fun _ => Some (rendered [] ["img.png"] []);
  renderInline := fun s => s;
  isConvertable := fun ext => String.eqb ext "md";
  viewableMediaExtensions := ["png"; "jpg"];
  getIcon := fun _ => ("", true);
  layoutHeadingEls := [];
  libFolderName := "lib";
  titleProperty := "title";
|}.

Definition tokenize (s : string) : list string := JS.split " " s.

Definition loaded : Website :=
  loadWebsite host (site plainOptions [mdFile "" "a"; mdFile "" "b"]).

Definition exported : Website := buildWebsite host tokenize 300 loaded.

(** The attachment downloads among the files written. *)
Definition attachmentDownloads (w : Website) : list string :=
  omap (fun f => match f with WAttachment p => Some p | _ => None end) (written w).

End AttachmentFixtures.

(** The target [Website.initMetadata] derives for a source path: the
    file name is replaced by its [.html] name, the path is slugified when
    the option is set, and the export root is cut off. *)
Definition derivedTarget `{PathLib} (o : Options) (src : string) : string :=
  computeTarget o src (Some (htmlFileName src)).

(** The entry of the source-to-target table. *)
Definition targetOfSource (w : Website) (src : string) : option string :=
  sourceToTarget (metadata w) !! src.

(** Every entry of the table is the derived target of its source. *)
Definition tableDerived `{PathLib} (w : Website) : Prop :=
  forall s t, targetOfSource w s = Some t -> t = derivedTarget (options w) s.

Module MappingFixtures.
Import Fixtures.

Definition slugged : Website :=
  initTables (site slugOptions []) ["Notes.md"; "notes.md"; "docs/My Page.md"].

Definition plain : Website :=
  initTables (site plainOptions []) ["note.md"; "note.canvas"; "docs/My Page.md"].

End MappingFixtures.

Module BacklinkFixtures.
Import Fixtures.

Definition aFile : TFile := mdFile "" "a".
Definition bFile : TFile := mdFile "" "b".

(** The vault: [a.md] and [b.md]; the host's backlink cache lists [a.md]
    for [b.md].  [aRender] is what [a.md] renders to. *)
Definition hostWith (aRender : RenderInfo) : Host := {|
  getBacklinksForFile := fun p => if String.eqb p "b.md" then ["a.md"] else [];
  getFirstLinkpathDest := fun p _ =>
    if String.eqb p "b.md" || String.eqb p "b" then Some "b.md" else None;
  resolveFileUrl := fun _ => None;
  getFileByPath := fun _ => None;
  frontmatterOf := fun _ => ∅;
  storedMetadata := fun _ => None;
  renderFile := fun f => if String.eqb (filePath f) "a.md" then Some aRender
                         else Some (rendered [] [] []);
  renderInline := fun s => s;
  isConvertable := fun ext => String.eqb ext "md";
  viewableMediaExtensions := ["png"; "jpg"];
  getIcon := fun _ => ("", true);
  layoutHeadingEls := [];
  libFolderName := "lib";
  titleProperty := "title";
|}.


(** [a.md] links to [b.md]. *)
Definition linking : Host := hostWith (rendered ["b.md"] [] []).

Definition exported (h : Host) : Website :=
  buildWebsite h AttachmentFixtures.tokenize 300
    (loadWebsite h (site plainOptions [aFile; bFile])).


(** The site once its pages are loaded, and the two loaded pages; the
    page of [a.md] with its remapped content. *)
Definition w1 : Website := loadWebsite linking (site plainOptions [aFile; bFile]).

Definition pageA : Webpage :=
  withContent (load linking plainOptions (pageOf w1 aFile))
    (Some (container (rendered ["b.html"] [] []))).

Definition pageB : Webpage :=
  withContent (load linking plainOptions (pageOf w1 bFile))
    (Some (container (rendered [] [] []))).

End BacklinkFixtures.

Module CombinedFixtures.
Import Combined.

(** The index page carries an element whose id is [a.html]. *)
Definition parseIds (html : string) : list string :=
  if String.eqb html "<h2 id=a.html>" then ["a.html"] else [].

Definition pages : list IndexPage :=
  [mkIndexPage "index.html" (Some "<h2 id=a.html>"); mkIndexPage "a.html" (Some "<p>")].

Definition siteData : SiteData := {|
  fileInfo := [("index.html", "{}"); ("a.html", "{}"); ("img.png", "{}")];
  webpagesInfo := [("index.html", "{}"); ("a.html", "{}")];
  manifestJson := "{}";
|}.

(** A two-page vault whose second page is [my page.md]. *)
Definition spacedPages : list IndexPage :=
  [mkIndexPage "index.html" (Some "<p>"); mkIndexPage "my page.html" (Some "<p>")].

(** The same vault with the index page last and the first page not
    read yet: the base page is then the page named [index.html]. *)
Definition indexLast : list IndexPage :=
  [mkIndexPage "my page.html" None; mkIndexPage "index.html" (Some "<p>")].

Definition spacedData : SiteData := {|
  fileInfo := [("index.html", "{}"); ("my page.html", "{}")];
  webpagesInfo := [("index.html", "{}"); ("my page.html", "{}")];
  manifestJson := "{}";
|}.

(** The ids of the data elements of the combined document. *)
Definition dataIds (d : option HtmlDoc) : list string :=
  match d with Some d => List.map dataId (headData d) | None => [] end.

End CombinedFixtures.

(** The key [exportFolder] compares downloads by. *)
Definition dlKey (f : Downloadable) : option string * string :=
  (dlRelativePath f, dlFilename f).

(** ** Further vocabulary *)

(** Every character of the string satisfies the test. *)
Fixpoint allChars (f : ascii -> bool) (s : string) : bool :=
  match s with
  | EmptyString => true
  | String c r => f c && allChars f r
  end.

(** The character occurs in the string. *)
Fixpoint hasChar (c : ascii) (s : string) : bool :=
  match s with
  | EmptyString => false
  | String a r => Ascii.eqb a c || hasChar c r
  end.

(** Neither a space nor a colon. *)
Definition idChar (c : ascii) : bool :=
  negb (Ascii.eqb c " ") && negb (Ascii.eqb c ":").

(** The part of a link [resolveLink] looks up (before the first [#] and
    the first [?]) and the anchor it re-attaches (between the first and
    the second [#]). *)
Definition linkPath (link : string) : string :=
  List.hd "" (JS.split "?" (List.hd "" (JS.split "#" link))).

Definition linkAnchor (link : string) : string :=
  default "" (JS.split "#" link !! 1%nat).

(** The entries of the source-to-target table of [w] with a non-empty
    target are entries of the table of [w']. *)
Definition keepsEntries (w w' : Website) : Prop :=
  forall s t, targetOfSource w s = Some t -> JS.truthy t = true ->
              targetOfSource w' s = Some t.

(** Every target of the source-to-target table is a key of the inverse
    table and an element of [allFiles]. *)
Definition tablesLinked (w : Website) : Prop :=
  forall s t, targetOfSource w s = Some t ->
              is_Some (targetToSource (metadata w) !! t) /\ In t (allFiles (metadata w)).

(** Every key of the source-to-target table of [w] is a key of the table
    of [w']. *)
Definition keepsSources (w w' : Website) : Prop :=
  forall s, is_Some (sourceToTarget (metadata w) !! s) ->
            is_Some (sourceToTarget (metadata w') !! s).

(** What a call of [getTargetFilePath] maintains of the two tables. *)
Definition tablesStep (w w' : Website) : Prop :=
  (tablesLinked w -> tablesLinked w') /\ keepsSources w w'.

(** The anchor as [resolveLink] re-attaches it: with its [#] unless it
    is empty. *)
Definition linkHash (link : string) : string :=
  if JS.truthy (linkAnchor link) then ("#" ++ linkAnchor link)%string
  else linkAnchor link.

(** What is fixed when a page is created: its source and its three
    paths. *)
Definition pagePaths (p : Webpage) : TFile * string * string * string :=
  (source p, templatePath p, metadataPath p, wContentPath p).

(** [p'] is the page [p] with the same flags. *)
Definition sameIdentity (p p' : Webpage) : Prop :=
  pagePaths p' = pagePaths p /\ isModified p' = isModified p
  /\ isLoaded p' = isLoaded p /\ hasTemplate p' = hasTemplate p.

(** Closes a goal [sameIdentity p p'] when [p'] is [p] after field
    updates that leave the source, the paths and the flags alone. *)
Ltac same_page := unfold sameIdentity; repeat split; reflexivity.

(** [build] goes past its guard: the page is not loaded yet (loading
    marks it modified) or is marked modified. *)
Definition willBuild (p : Webpage) : bool := negb (isLoaded p) || isModified p.

(** The three files [save] writes for a page. *)
Definition artefacts (p : Webpage) : list Written :=
  [WMetadata (metadataPath p); WContent (wContentPath p); WTemplate (templatePath p)].

(** [w'] differs from [w] in its metadata only. *)
Definition onlyMetadata (w w' : Website) : Prop := w' = setMetadata w (metadata w').

(** The page holds a template once [build] is through: it held one
    before, or it is built and the renderer returns a result.  (Only then
    does [saveTemplate] find [this.template] set.) *)
Definition getsTemplate (h : Host) (p : Webpage) : bool :=
  hasTemplate p || willBuild p && bool_decide (is_Some (renderFile h (source p))).


(** ** Whitespace in the search content *)

Definition startsWithSpace (s : string) : bool :=
  match s with
  | String c _ => JS.isSpace c
  | EmptyString => false
  end.

Fixpoint lastIsSpace (s : string) : bool :=
  match s with
  | EmptyString => false
  | String c EmptyString => JS.isSpace c
  | String _ r => lastIsSpace r
  end.

(** Every whitespace character is a blank, and no blank follows a blank
    (or the start of the string, when [prevSpace] is set). *)
Fixpoint singleSpaced (prevSpace : bool) (s : string) : bool :=
  match s with
  | EmptyString => true
  | String c r =>
      if JS.isSpace c
      then Ascii.eqb c " " && negb prevSpace && singleSpaced true r
      else singleSpaced false r
  end.

(** The characters of a string that are not whitespace, in order. *)
Fixpoint nonSpaces (s : string) : string :=
  match s with
  | EmptyString => EmptyString
  | String c r => if JS.isSpace c then nonSpaces r else String c (nonSpaces r)
  end.

(** The text [getSearchContent] puts together before it normalises the
    whitespace: the text nodes, each between two blanks, then the links
    and the attachments of the record. *)
Definition rawSearchContent (c : Content) (p : Webpage) : string :=
  (String.concat ""
     (List.map (fun n => " " ++ text n ++ " ")
        (List.filter (fun n => negb (skipped n)) (textNodes c)))
   ++ JS.join " " (links (pageMeta p))
   ++ JS.join " " (attachments (pageMeta p)))%string.

(** ** The export root *)

(** How a call ends: with a value, with an exception, or not within the
    iterations granted. *)
Inductive Run (A : Type) := Returns (a : A) | Throws | Unfinished.
Arguments Returns {A} a.
Arguments Throws {A}.
Arguments Unfinished {A}.

(** The [while] loop of [Website.getBasePathForFiles] (the same loop
    finds the export root in [Website.load] of the first revision), run
    for at most [fuel] iterations.  [paths] holds the segments of every
    file path; [path[0]] of an exhausted path is [undefined], which
    [+ "/"] turns into the text [undefined/].  The limit of the engine
    on the length of a string is left out here; [boundedPathLoop] below
    has it. *)
Fixpoint commonPathLoop (fuel : nat) (commonPath : string) (paths : list (list string))
    : Run string :=
  match fuel with
  | O => Unfinished
  | S fuel' =>
      let first := head (default [] (head paths)) in
      if forallb (fun path => bool_decide (head path = first)) paths
      then
        let commonPath' := (commonPath ++ default "undefined" first ++ "/")%string in
        let paths' := List.map (drop 1) paths in
        if existsb (fun path => (length path =? 1)%nat) paths'
        then Returns commonPath'
        else commonPathLoop fuel' commonPath' paths'
      else Returns commonPath
  end.

(** [Website.getBasePathForFiles(files)]: the string handed to
    [new Path].  [parentPath] is [file.parent?.path]; with no file at
    all, [files[0].parent] throws. *)
Definition getBasePathForFiles (fuel : nat) (parentPath : TFile -> option string)
    (files : list TFile) : Run string :=
  match files with
  | [] => Throws
  | [f] => Returns (default "" (parentPath f))
  | _ => commonPathLoop fuel "" (List.map (fun f => JS.split "/" (filePath f)) files)
  end.

(** The same loop under the engine's limit on the length of a string:
    [commonPath += ...] throws a [RangeError] (invalid string length)
    as soon as the result would have more than [maxLength] characters.
    Until then the two loops go the same way. *)
Fixpoint boundedPathLoop (maxLength fuel : nat) (commonPath : string)
    (paths : list (list string)) : Run string :=
  match fuel with
  | O => Unfinished
  | S fuel' =>
      let first := head (default [] (head paths)) in
      if forallb (fun path => bool_decide (head path = first)) paths
      then
        let commonPath' := (commonPath ++ default "undefined" first ++ "/")%string in
        if (maxLength <? String.length commonPath')%nat then Throws
        else
          let paths' := List.map (drop 1) paths in
          if existsb (fun path => (length path =? 1)%nat) paths'
          then Returns commonPath'
          else boundedPathLoop maxLength fuel' commonPath' paths'
      else Returns commonPath
  end.

(** [Website.getBasePathForFiles(files)] under that limit.  The method
    has no handler, and neither has [Website.load], its caller: an
    exception of the loop ends the load. *)
Definition getBasePathForFilesWithin (maxLength fuel : nat)
    (parentPath : TFile -> option string) (files : list TFile) : Run string :=
  match files with
  | [] => Throws
  | [f] => Returns (default "" (parentPath f))
  | _ => boundedPathLoop maxLength fuel ""
           (List.map (fun f => JS.split "/" (filePath f)) files)
  end.

(** Lines 91-117 of [Website.load] in [website.ts], which holds the same
    loop inside [try]: the export root the options hold afterwards.  An
    exception (of the loop, or of [this.sourceFiles[0].parent] when there
    is no file) is logged by the handler and the export root stays as it
    was; [files] is the argument of [load], [None] when it is left
    out. *)
Definition findExportRoot `{PathLib} (maxLength fuel : nat)
    (parentPath : TFile -> option string) (exportRoot : string)
    (files : option (list TFile)) : Run string :=
  match files with
  | Some sourceFiles =>
      if String.eqb exportRoot ""
      then
        match sourceFiles with
        | [] => Returns exportRoot
        | [f] => Returns (default "" (parentPath f))
        | _ =>
            match boundedPathLoop maxLength fuel ""
                    (List.map (fun f => JS.split "/" (filePath f)) sourceFiles) with
            | Returns commonPath => Returns (parsePath commonPath ++ "/")%string
            | Throws => Returns exportRoot
            | Unfinished => Unfinished
            end
        end
      else Returns exportRoot
  | None => Returns exportRoot
  end.

(** The text the loop builds from the segments it has gone through. *)
Definition dirPrefix (segs : list string) : string :=
  String.concat "" (List.map (fun s => s ++ "/")%string segs).

(** All paths agree on segment [k]. *)
Definition agreeAt (k : nat) (paths : list (list string)) : bool :=
  forallb (fun path => bool_decide (path !! k = default [] (head paths) !! k)) paths.

(** ** Removing a page from the index *)

(** [Index.removeWebpageFromMinisearch], which [Index.removePage] calls. *)
Definition removeWebpageFromMinisearch (ms : option (list SearchDoc)) (p : Webpage)
    : option (list SearchDoc) :=
  match ms with
  | None => None
  | Some docs =>
      let webpagePath := templatePath p in
      Some (if msHas docs webpagePath then msDiscard docs webpagePath else docs)
  end.

Definition removePage (ms : option (list SearchDoc)) (p : Webpage)
    : option (list SearchDoc) :=
  removeWebpageFromMinisearch ms p.

(** ** [Website.validateSettings] (first revision) *)

Module Validation.

(** What [validateSettings] reads of [app.plugins]: the ids of the
    enabled plugins, Iconize's [iconsInNotesEnabled], Excalidraw's
    [previewImageType] and the version of the Banners manifest; [None] is
    [undefined]. *)
Record Plugins := mkPlugins {
  enabledPlugins : list string;
  iconsInNotesEnabled : option bool;
  previewImageType : option string;
  bannerVersion : option string;
}.

(** The four warnings; the one on Banners quotes the version text. *)
Inductive Warning :=
  | IconizeIcons
  | ExcalidrawEmbedMode
  | BannerVersion (version : string)
  | RssSiteUrl.

Definition enabled (ps : Plugins) (name : string) : bool :=
  existsb (String.eqb name) (enabledPlugins ps).

(** The warnings logged, in order.  [version < "2.0.5"] compares the
    two texts code unit by code unit. *)
Definition validateSettings (ps : Plugins) (addRSS : bool) (siteURL : option string)
    : list Warning :=
  (if enabled ps "obsidian-icon-folder" && negb (default false (iconsInNotesEnabled ps))
   then [IconizeIcons] else [])
  ++ (if enabled ps "obsidian-excalidraw-plugin"
         && negb (String.eqb (default "" (previewImageType ps)) "SVG")
      then [ExcalidrawEmbedMode] else [])
  ++ (if enabled ps "obsidian-banners"
      then let version := String.substring 0 5 (default "0.0.0" (bannerVersion ps)) in
           if String.ltb version "2.0.5" then [BannerVersion version] else []
      else [])
  ++ (if addRSS && negb (JS.truthyOpt siteURL) then [RssSiteUrl] else []).

(** The text of a version [a.b.c] with one digit each. *)
Definition digit (n : nat) : string := String (ascii_of_nat (48 + n)) EmptyString.

Definition versionText (a b c : nat) : string :=
  (digit a ++ "." ++ digit b ++ "." ++ digit c)%string.

(** The check of the triple, for all one-digit versions at once. *)
Definition textOrderAgrees : bool :=
  forallb (fun a => forallb (fun b => forallb (fun c =>
      Bool.eqb (String.ltb (String.substring 0 5 (versionText a b c)) "2.0.5")
               (100 * a + 10 * b + c <? 205)%nat)
    (seq 0 10)) (seq 0 10)) (seq 0 10).

End Validation.

(** ** [ObsidianStyles.load] *)

Module Styles.

(** [s.includes(sub)] *)
Fixpoint includes (s sub : string) : bool :=
  String.prefix sub s
  || match s with
     | EmptyString => false
     | String _ r => includes r sub
     end.

Definition stylesFilter : list string :=
  ["workspace-"; "cm-"; "cm6"; "ghost"; "leaf"; "CodeMirror";
   "@media"; "pdf"; "xfa"; "annotation"; "@keyframes";
   "load"; "@-webkit"; "setting"; "filter"; "decorator";
   "dictionary"; "status"; "windows"; "titlebar"; "source";
   "menu"; "message"; "popover"; "suggestion"; "prompt";
   "tab"; "HyperMD"; "workspace"; "publish";
   "backlink"; "sync"; "vault"; "mobile"; "tablet"; "phone";
   "textLayer"; "header"; "linux"; "macos"; "rename"; "edit";
   "progress"; "native"; "aria"; "tooltip";
   "drop"; "sidebar"; "mod-windows"; "is-frameless";
   "is-hidden-frameless"; "obsidian-app"; "show-view-header";
   "is-maximized"; "is-translucent"; "community"; "Layer"].

Definition stylesKeep : list string :=
  ["scrollbar"; "input[type"; "table"; "markdown-rendered";
   "css-settings-manager"; "inline-embed"; "background"; "token"].

(** A style sheet of the document: its [href] and the [cssText] of its
    rules. *)
Record StyleSheet := mkStyleSheet {
  href : option string;
  cssRules : list string;
}.

(** The sheet [load] reads: the first one whose [href] includes
    [app.css], else [document.styleSheets[1]]. *)
Definition appSheet (sheets : list StyleSheet) : option StyleSheet :=
  match List.find (fun e => JS.truthyOpt (href e) && includes (default "" (href e)) "app.css")
          sheets with
  | Some e => Some e
  | None => sheets !! 1%nat
  end.

(** The filter on the selectors of a rule. *)
Definition keptSelector (selector : string) : bool :=
  existsb (includes selector) stylesKeep
  || negb (existsb (includes selector) stylesFilter).

Definition newline : string := String (ascii_of_nat 10) EmptyString.

(** The selectors and the declarations the loop body takes from the
    text of a rule; [None] when [cssText.split("{")[1]] is [undefined]
    and [.split] throws. *)
Definition ruleParts (cssText : string) : option (list string * list string) :=
  match JS.split "{" cssText !! 1%nat with
  | None => None
  | Some body =>
      Some (List.filter keptSelector
              (List.map JS.trim (JS.split "," (List.hd "" (JS.split "{" cssText)))),
            JS.split ";" (List.hd "" (JS.split "}" body)))
  end.

(** What the loop body appends to [this.data]. *)
Definition ruleText (cssText : string) : option string :=
  match ruleParts cssText with
  | None => None
  | Some (selectors, declarations) =>
      if (length selectors =? 0)%nat then Some ""
      else Some (JS.join ", " selectors ++ " { " ++ JS.join "; " declarations
                 ++ " }" ++ newline)%string
  end.

Fixpoint loadRules (rules : list string) (data : string) : option string :=
  match rules with
  | [] => Some data
  | r :: rest =>
      match ruleText r with
      | None => None
      | Some t => loadRules rest (data ++ t)
      end
  end.

(** [ObsidianStyles.load]: the value of [this.data], [None] when the
    call throws ([overrides] is the imported text of
    [obsidian-styles.txt.css]). *)
Definition load (sheets : list StyleSheet) (overrides : string) : option string :=
  match appSheet sheets with
  | None => None
  | Some sheet =>
      match loadRules (cssRules sheet) "" with
      | None => None
      | Some data => Some (data ++ overrides)%string
      end
  end.

End Styles.

(** ** The header [addTitle] takes *)

(** The second test of [addTitle]: an H1 at the top of the sizer of a
    document without inline title. *)
Definition topHeading (d : PageDocument) (fh : HeadingEl) : bool :=
  String.eqb (tagName fh) "H1"
  && negb (existsb (String.eqb "show-inline-title") (bodyClassList d))
  && (inSizer fh && (childPosition fh <=? 2)%nat).

(** The first header of the document, when [addTitle] removes it. *)
Definition takenHeader (ttl base : string) (d : PageDocument) : option HeadingEl :=
  match firstHeader d with
  | Some fh => if similarHeading ttl base fh || topHeading d fh then Some fh else None
  | None => None
  end.

Module ExplicitTitleFixtures.
Import Fixtures.

(** [introduction.md] with [title: Introduction!] in its front matter
    and the heading "Introduction". *)
Definition host : Host := {|
  getBacklinksForFile := fun _ => [];
  getFirstLinkpathDest := fun _ _ => None;
  resolveFileUrl := fun _ => None;
  getFileByPath := fun _ => None;
  frontmatterOf := fun _ => {[ "title" := FMString "Introduction!" ]};
  storedMetadata := fun _ => None;
  renderFile := fun _ => Some (rendered [] [] [h1 "Introduction"]);
  renderInline := fun s => s;
  isConvertable := fun ext => String.eqb ext "md";
  viewableMediaExtensions := ["png"; "jpg"];
  getIcon := fun _ => ("", true);
  layoutHeadingEls := [];
  libFolderName := "lib";
  titleProperty := "title";
|}.

(** The page as [build] has it when it calls [addTitle]. *)
Definition page : Webpage := TitleFixtures.built host TitleFixtures.noTitleOptions.

End ExplicitTitleFixtures.

(** ** The graph data of a built page *)

(** Every path [hasFile] knows in [w] it knows in [w']. *)
Definition keepsKnown `{PathLib} (w w' : Website) : Prop :=
  forall l, hasFile w l = true -> hasFile w' l = true.

(** What the title insertion leaves alone: the path, the link lists and
    the attachment source paths of a page. *)
Definition graphOf (p : Webpage) : string * list string * list string * list string :=
  (wpPath (pageMeta p), links (pageMeta p), attachments (pageMeta p),
   attachmentSourcePaths p).

(** ** The base document of the combined output *)

(** The page [getCombinedHTML] parses as the base document: the first
    page named [index.html] when it has data, else the first page. *)
Definition basePage (pages : list Combined.IndexPage) : option Combined.IndexPage :=
  let index0 := List.find (fun f => String.eqb (Combined.filename f) "index.html") pages in
  if Combined.hasData index0 then index0 else List.hd_error pages.

(** ** The stem of a source path *)

(** The name the export gives to a segment of a path: its slug when
    web-style names are on. *)
Definition webName (o : Options) (s : string) : string :=
  if slugifyPaths o then SpecPath.slug s else s.

(** The stem of a source path, in the reading of [SpecPath]: its
    directory segments and the base name of its file (the file name
    without its last extension), each under its web name. *)
Definition stemOf (o : Options) (src : string) : list string * string :=
  (List.map (webName o) (List.removelast (SpecPath.segments src)),
   webName o (SpecPath.basename src)).

(** The html path of a stem: the directory segments and the base name
    with the extension [html], joined by slashes. *)
Definition htmlPathOf (stem : list string * string) : string :=
  JS.join "/" (fst stem ++ [(snd stem ++ ".html")%string]).

(** Lines 295-296 of [getTargetFilePath]: the export root is cut off a
    path that starts with it. *)
Definition cutRoot (o : Options) (p : string) : string :=
  if JS.startsWith p (exportRoot o)
  then JS.substringFrom (String.length (exportRoot o)) p else p.

(** ** Links and the host's link resolution *)



(** ** The tables of [initMetadata] *)

(** What the loop of [initMetadata] has done once it is through the
    sources [pre], none of them twice: every one of them has its derived
    target in the source-to-target table, [allFiles] lists these targets
    in order, and the target-to-source table holds, for a target, the
    last source registered with it. *)
Definition registered `{PathLib} (o : Options) (pre : list string) (w : Website) : Prop :=
  options w = o
  /\ (forall s, In s pre -> targetOfSource w s = Some (derivedTarget o s))
  /\ (forall s, ~ In s pre -> targetOfSource w s = None)
  /\ allFiles (metadata w) = List.map (derivedTarget o) pre
  /\ (forall t, targetToSource (metadata w) !! t
                = List.find (fun s => bool_decide (derivedTarget o s = t)) (List.rev pre)).

(** * Properties *)

(** ** Generic facts about the string primitives *)

Example split_hash : JS.split "#" "missing.md#sec" = ["missing.md"; "sec"].
Proof. reflexivity. Qed.

Example html_name : SpecPath.withExtension "html" "docs/My Note.md" = "docs/My Note.html".
Proof. reflexivity. Qed.

Example slug_name : SpecPath.slug "docs/My Note.html" = "docs/my-note.html".
Proof. reflexivity. Qed.

Example replace_all : JS.replaceAll "ab" "x" "ababcab" = "xxcx".
Proof. reflexivity. Qed.

Example heading_id : headingTextToID (Some "#My heading: part 2") = "#My_heading_part_2".
Proof. reflexivity. Qed.

Example edit_distance : levenshteinDistance "kitten" "sitting" = 3.
Proof. reflexivity. Qed.

Lemma startsWith_empty (p : string) : p <> "" -> JS.startsWith "" p = false.
Proof. destruct p; [congruence | reflexivity]. Qed.

Lemma truthy_false_iff (s : string) : JS.truthy s = false <-> s = "".
Proof.
  unfold JS.truthy. destruct s; simpl; split; intros; congruence.
Qed.

Lemma lowerChar_not_upper (c : ascii) : JS.isUpper (JS.lowerChar c) = false.
Proof. destruct c as [[] [] [] [] [] [] [] []]; reflexivity. Qed.

Lemma toLowerCase_length (s : string) :
  String.length (JS.toLowerCase s) = String.length s.
Proof. induction s; simpl; congruence. Qed.

Lemma toLowerCase_allLower (s : string) : allLower (JS.toLowerCase s) = true.
Proof.
  induction s as [| c r IH]; simpl; [reflexivity |].
  now rewrite lowerChar_not_upper, IH.
Qed.

(** ** C10: no self reference after [fillMetadataAfterRender] *)

Section SelfReferences.
Context `{PathLib}.
Variable h : Host.

Lemma notSelf_filter (self : string) (l : list string) :
  ~ In self (List.filter (notSelf self) l).
Proof.
  intros Hin. apply filter_In in Hin as [_ Hns].
  unfold notSelf in Hns. now rewrite String.eqb_refl in Hns.
Qed.

Lemma getRenderedHeadings_pageMeta (p : Webpage) :
  pageMeta (snd (getRenderedHeadings h p)) = pageMeta p
  /\ content (snd (getRenderedHeadings h p)) = content p
  /\ source (snd (getRenderedHeadings h p)) = source p
  /\ templatePath (snd (getRenderedHeadings h p)) = templatePath p.
Proof. unfold getRenderedHeadings. destruct (headingsCache p); simpl; auto. Qed.

(** The three lists [fillMetadataAfterRender] assigns, in closed form. *)
Lemma fillMetadataAfterRender_lists (w : Website) (p : Webpage) :
  let p' := fst (fillMetadataAfterRender h w p) in
  let self := wpPath (pageMeta p) in
  wpPath (pageMeta p') = self
  /\ links (pageMeta p') =
       List.filter (notSelf self) (getLinksToOtherPages h w (content p))
  /\ backlinks (pageMeta p') =
       List.filter (notSelf self) (fst (getBacklinks h w p))
  /\ attachments (pageMeta p') =
       List.filter (notSelf self) (getLinksToAttachments h (content p)).
Proof.
  unfold fillMetadataAfterRender.
  destruct (getRenderedHeadings_pageMeta p) as (Hm & Hc & Hs & _).
  destruct (getRenderedHeadings h p) as [hs p1]. simpl in Hm, Hc, Hs.
  unfold getBacklinks. rewrite Hm, Hc, Hs.
  destruct (targetsOf w _) as [bs w']. simpl. auto.
Qed.

(** C10. After [fillMetadataAfterRender], the page's own target path
    ([metadata.path]) occurs in none of its [links], [backlinks] and
    [attachments] lists, whatever the rendered content, the host's
    backlink cache and the state of the site. *)
Theorem fillMetadataAfterRender_no_self_reference (w : Website) (p : Webpage) :
  let m := pageMeta (fst (fillMetadataAfterRender h w p)) in
  ~ In (wpPath m) (links m)
  /\ ~ In (wpPath m) (backlinks m)
  /\ ~ In (wpPath m) (attachments m).
Proof.
  destruct (fillMetadataAfterRender_lists w p) as (Hp & Hl & Hb & Ha).
  cbv zeta. rewrite Hp, Hl, Hb, Ha.
  repeat split; apply notSelf_filter.
Qed.

End SelfReferences.

(** ** C8 and C4: link resolution *)

Section LinkResolution.
Context `{PathLib}.
Variable h : Host.

Lemma isPassThrough_truthy (link : string) :
  isPassThrough link = true -> JS.truthy link = true.
Proof. destruct link; [discriminate | reflexivity]. Qed.

Lemma resolveLink_pass_through (w : Website) (p : Webpage) (link : string) :
  isPassThrough link = true -> resolveLink h w p (Some link) = (None, w).
Proof.
  intros Hpt. pose proof (isPassThrough_truthy _ Hpt) as Ht.
  unfold resolveLink. rewrite Ht. simpl negb. cbv iota.
  unfold isPassThrough, isExternalURL in Hpt.
  destruct (negb (JS.startsWith link "app://") && matchesScheme link); [reflexivity |].
  destruct (JS.startsWith link "data:"); [reflexivity |].
  destruct (JS.startsWith link "?"); [reflexivity | discriminate].
Qed.

Lemma remapEl_pass_through (w : Website) (p : Webpage) (el : LinkEl) :
  isPassThrough (attr el) = true ->
  attr (fst (remapEl h w p el)) = attr el /\ snd (remapEl h w p el) = w.
Proof.
  intros Hpt. unfold remapEl. rewrite (resolveLink_pass_through _ _ _ Hpt).
  simpl. auto.
Qed.

(** The k-th element of a remapped list is the k-th element remapped (in
    the state the site has reached by then). *)
Lemma remapEls_lookup (p : Webpage) (els : list LinkEl) :
  forall (w : Website) (k : nat) (el : LinkEl),
    els !! k = Some el ->
    exists wk, fst (remapEls h w p els) !! k = Some (fst (remapEl h wk p el)).
Proof.
  induction els as [| e els IH]; intros w k el Hk; [discriminate |].
  simpl. destruct (remapEl h w p e) as [e' w1] eqn:He.
  destruct (remapEls h w1 p els) as [rest w2] eqn:Hr.
  destruct k as [| k]; simpl in *.
  - injection Hk as ->. exists w. now rewrite He.
  - destruct (IH w1 k el Hk) as [wk Hwk]. exists wk. now rewrite Hr in Hwk.
Qed.

(** C8. For a link that is an external URL (the scheme pattern occurs
    and the link does not start with app://), a data: URI or a bare query
    string, [resolveLink] returns undefined (no site-local target) and
    leaves the site untouched; [remapLinks] and [remapEmbedLinks] then
    write the original href, resp. src, value back unchanged, at every
    position of the document. *)
Theorem pass_through_links_unchanged (w : Website) (p : Webpage) (link : string) :
  isPassThrough link = true ->
  resolveLink h w p (Some link) = (None, w)
  /\ (forall (c : Content) (k : nat) (el : LinkEl),
        hrefEls c !! k = Some el -> attr el = link ->
        attr <$> (hrefEls (fst (remapLinks h w p c)) !! k) = Some link)
  /\ (forall (c : Content) (k : nat) (el : LinkEl),
        srcEls c !! k = Some el -> attr el = link ->
        attr <$> (srcEls (fst (remapEmbedLinks h w p c)) !! k) = Some link).
Proof.
  intros Hpt. split; [now apply resolveLink_pass_through |].
  split; intros c k el Hk Hattr.
  - unfold remapLinks.
    destruct (remapEls_lookup p (hrefEls c) w k el Hk) as [wk Hwk].
    destruct (remapEls h w p (hrefEls c)) as [els w']. simpl in *.
    rewrite Hwk. simpl. f_equal.
    rewrite <- Hattr in Hpt. rewrite <- Hattr.
    now apply remapEl_pass_through.
  - unfold remapEmbedLinks.
    destruct (remapEls_lookup p (srcEls c) w k el Hk) as [wk Hwk].
    destruct (remapEls h w p (srcEls c)) as [els w']. simpl in *.
    rewrite Hwk. simpl. f_equal.
    rewrite <- Hattr in Hpt. rewrite <- Hattr.
    now apply remapEl_pass_through.
Qed.

End LinkResolution.

Lemma pass_through_links_unchanged_witness :
  isPassThrough "https://example.org/a b#c" = true
  /\ resolveLink Fixtures.emptyHost LinkFixtures.w0 LinkFixtures.pageA
       (Some "https://example.org/a b#c") = (None, LinkFixtures.w0).
Proof.
  split; [reflexivity |].
  apply (proj1 (pass_through_links_unchanged Fixtures.emptyHost LinkFixtures.w0
                  LinkFixtures.pageA "https://example.org/a b#c" eq_refl)).
Defined.

Example pass_through_examples :
  isPassThrough "data:image/png;base64,AAAA" = true
  /\ isPassThrough "?query=1" = true
  /\ isPassThrough "file:\\server\share" = true
  /\ isPassThrough "app://local/vault/img.png" = false
  /\ isPassThrough "notes/b.md" = false.
Proof. repeat split. Qed.

(** C4 (evaluation at the failing inputs). On a page of a site that has
    no document [missing.md], the link [missing.md#sec] is rewritten to
    [#sec] and is not flagged, and the link [missing.md] is rewritten to
    the empty string (and flagged): the original href is not kept, and a
    target for the empty path is entered into the tables instead. *)
Theorem unresolved_link_is_rewritten :
  let remap href :=
    fst (remapEl Fixtures.emptyHost LinkFixtures.w0 LinkFixtures.pageA
           (Fixtures.link href)) in
  fst (resolveLink Fixtures.emptyHost LinkFixtures.w0 LinkFixtures.pageA
         (Some "missing.md#sec")) = Some "#sec"
  /\ remap "missing.md#sec" = mkLinkEl "#sec" (Some "_self") []
  /\ remap "missing.md" = mkLinkEl "" (Some "_self") ["is-unresolved"]
  /\ hasFile LinkFixtures.w0 "" = false
  /\ hasFile (snd (remapEl Fixtures.emptyHost LinkFixtures.w0 LinkFixtures.pageA
                     (Fixtures.link "missing.md"))) "" = true.
Proof. vm_compute. repeat split. Qed.

(** ** C1: the incremental test of [initMetadata] and [build] *)

Section Incremental.
Context `{PathLib}.
Variable h : Host.

(** Whatever the recorded and the source modification times are,
    [initMetadata] marks the page modified. *)
Lemma initMetadata_isModified (o : Options) (p : Webpage) :
  isModified (initMetadata h o p) = true.
Proof. reflexivity. Qed.

(** A page that goes through [load] is never skipped by [build]. *)
Lemma build_after_load_not_skipped (w : Website) (p : Webpage) :
  isLoaded p = false -> fst (fst (build h w p)) <> Skipped.
Proof.
  intros Hl. unfold build. rewrite Hl.
  change (isModified (load h (options w) p)) with true. simpl negb. cbv iota.
  unfold buildModified.
  destruct (renderFile h _) as [ri |]; [| discriminate].
  destruct (remapLinks h w _ _) as [c4 w4].
  destruct (remapEmbedLinks h w4 _ c4) as [c5 w5].
  destruct (fillMetadataAfterRender h w5 _) as [p6 w6].
  discriminate.
Qed.

(** The guard of [build] itself is as the claim says: a loaded page whose
    flag is off is returned as it is, nothing is rendered. *)
Lemma build_skips_unmodified (w : Website) (p : Webpage) :
  isLoaded p = true -> isModified p = false -> build h w p = (Skipped, p, w).
Proof. intros Hl Hm. unfold build. now rewrite Hl, Hm. Qed.

End Incremental.

(** C1 (evaluation at the failing input). The page of [a.md] has a record
    from a previous export (modification time 200) and a source last
    modified before it (time 100), and nothing forces it; [load] still
    marks it modified, [build] renders it again and [save], called on
    the page [build] returns, rewrites its three files. *)
Theorem unmodified_page_is_rebuilt :
  let p := load IncrementalFixtures.host Fixtures.plainOptions LinkFixtures.pageA in
  let built := build IncrementalFixtures.host LinkFixtures.w0 LinkFixtures.pageA in
  modifiedTime (stat (loadedMetadata p)) = 200
  /\ mtime (source p) = 100
  /\ isModified p = true
  /\ fst (fst built) = Built
  /\ snd (fst (save 300 (snd (fst built))))
     = [WMetadata "a.json"; WContent "a-content.html"; WTemplate "a.html"]
  /\ snd (save 300 (snd (fst built))) = true.
Proof. vm_compute. repeat split. Qed.

(** ** C7: the search index *)

Lemma isStopWord_In (t : string) : isStopWord t = true <-> In t stopWords.
Proof.
  unfold isStopWord. rewrite existsb_exists. split.
  - intros (x & Hin & Heq). apply String.eqb_eq in Heq. now subst.
  - intros Hin. exists t. split; [assumption | apply String.eqb_refl].
Qed.

Lemma processTerm_Some (t t' : string) :
  processTerm t = Some t' ->
  t' = JS.toLowerCase t /\ allLower t' = true /\ ~ In t stopWords.
Proof.
  unfold processTerm. destruct (isStopWord t) eqn:Hs; [discriminate |].
  intros [= <-]. split; [reflexivity |]. split; [apply toLowerCase_allLower |].
  intros Hin. apply isStopWord_In in Hin. congruence.
Qed.

Lemma msHas_countId (docs : list SearchDoc) (k : string) :
  msHas docs k = false <-> countId k docs = 0.
Proof.
  unfold msHas, countId. induction docs as [| d docs IH]; simpl; [tauto |].
  destruct (String.eqb (docId d) k); simpl; [split; discriminate | exact IH].
Qed.

Lemma countId_discard (docs : list SearchDoc) (k k' : string) :
  countId k' (msDiscard docs k) = if String.eqb k' k then 0 else countId k' docs.
Proof.
  unfold countId, msDiscard. induction docs as [| d docs IH]; simpl.
  - now destruct (String.eqb k' k).
  - destruct (String.eqb (docId d) k) eqn:Hd; simpl.
    + apply String.eqb_eq in Hd. rewrite IH.
      destruct (String.eqb k' k) eqn:Hk; [reflexivity |].
      destruct (String.eqb (docId d) k') eqn:Hd'; [| reflexivity].
      apply String.eqb_eq in Hd'. subst. now rewrite String.eqb_refl in Hk.
    + destruct (String.eqb (docId d) k') eqn:Hd'; simpl; rewrite IH.
      * apply String.eqb_eq in Hd'. subst k'. now rewrite Hd.
      * reflexivity.
Qed.

Lemma countId_app (k : string) (l1 l2 : list SearchDoc) :
  countId k (l1 ++ l2) = countId k l1 + countId k l2.
Proof. unfold countId. now rewrite List.filter_app, List.length_app. Qed.

Lemma indexedTerms_lower (tokenize : string -> list string) (fields : list string) :
  Forall (fun t => allLower t = true /\ exists tok, t = JS.toLowerCase tok /\ ~ In tok stopWords)
    (indexedTerms tokenize fields).
Proof.
  unfold indexedTerms. apply List.Forall_forall. intros t Hin.
  apply List.in_concat in Hin as (l & Hl & Ht).
  apply List.in_map_iff in Hl as (f & <- & _).
  apply list_elem_of_In, list_elem_of_omap in Ht as (tok & _ & Hp).
  apply processTerm_Some in Hp as (-> & Hlow & Hns). eauto.
Qed.

Section SearchIndex.
Context `{PathLib}.
Variable h : Host.
Variable tokenize : string -> list string.

(** C7 (amended). A term that is, as it stands, an entry of the
    stop-word list is dropped; every other term is indexed in lower case;
    and indexing a page first discards what the index holds under the
    page's target path, so that afterwards exactly one document carries
    that path, all its terms are in lower case, and the documents of the
    other paths are as before. *)
Theorem search_index_terms_and_replacement (docs : list SearchDoc) (p : Webpage) :
  (forall t, In t stopWords -> processTerm t = None)
  /\ (forall t t', processTerm t = Some t' ->
        t' = JS.toLowerCase t /\ allLower t' = true /\ ~ In t stopWords)
  /\ exists docs' p' d,
       addWebpageToMinisearch h tokenize (Some docs) p = Some (Some docs', p')
       /\ countId (templatePath p) docs' = 1
       /\ (forall k, k <> templatePath p -> countId k docs' = countId k docs)
       /\ In d docs' /\ docId d = templatePath p
       /\ Forall (fun t => allLower t = true) (docTerms d).
Proof.
  split; [| split].
  - intros t Hin. unfold processTerm. apply isStopWord_In in Hin. now rewrite Hin.
  - apply processTerm_Some.
  - unfold addWebpageToMinisearch.
    set (k := templatePath p).
    set (docs1 := if msHas docs k then msDiscard docs k else docs).
    assert (Hno : msHas docs1 k = false).
    { subst docs1. destruct (msHas docs k) eqn:Hh; [| exact Hh].
      apply msHas_countId. rewrite countId_discard. now rewrite String.eqb_refl. }
    assert (Hother : forall k', k' <> k -> countId k' docs1 = countId k' docs).
    { intros k' Hne. subst docs1. destruct (msHas docs k); [| reflexivity].
      rewrite countId_discard. destruct (String.eqb k' k) eqn:Hk; [| reflexivity].
      apply String.eqb_eq in Hk. contradiction. }
    destruct (getRenderedHeadings h p) as [headersInfo p1]. cbv zeta.
    match goal with
    | |- context [msAdd docs1 ?d] => set (doc := d)
    end.
    assert (Hid : docId doc = k) by reflexivity.
    assert (Hadd : msAdd docs1 doc = Some (docs1 ++ [doc])).
    { unfold msAdd. change (docId doc) with k. now rewrite Hno. }
    rewrite Hadd.
    eexists _, _, doc. split; [reflexivity |].
    split; [| split; [| split; [| split]]].
    + rewrite countId_app. apply msHas_countId in Hno. rewrite Hno.
      unfold countId. simpl. now rewrite String.eqb_refl.
    + intros k' Hne. rewrite countId_app, (Hother _ Hne).
      unfold countId at 2. simpl.
      destruct (String.eqb k k') eqn:Hk; [| simpl; lia].
      apply String.eqb_eq in Hk. congruence.
    + apply in_or_app. right. now left.
    + exact Hid.
    + subst doc. simpl.
      eapply List.Forall_impl; [| apply indexedTerms_lower].
      intros t [Hl _]. exact Hl.
Qed.

End SearchIndex.

(** C7 (counterexample). The capitalised term [And] is indexed, as [and],
    although [and] is an entry of the stop-word list: the list is
    consulted before the term is lower-cased. *)
Lemma stop_word_in_capitals_is_indexed :
  In (JS.toLowerCase "And") stopWords /\ processTerm "And" = Some "and".
Proof. split; [vm_compute; tauto | reflexivity]. Qed.

(** ** C5: promotion of the first heading to the title *)

Lemma jsMin_same (x : Quot) : jsMin x x = x.
Proof. destruct x as [| | a b]; simpl; [reflexivity .. |]. now rewrite Nat.leb_refl. Qed.

Lemma jsLt_jsDiv (d n k : nat) : k * d < n -> jsLt (jsDiv d n) 1 k = true.
Proof.
  intros Hlt. unfold jsDiv. destruct (n =? 0)%nat eqn:Hn.
  - apply Nat.eqb_eq in Hn. lia.
  - simpl. apply Nat.ltb_lt. lia.
Qed.

(** With the default title (the base name), the test of [addTitle] holds
    as soon as the ratio of the edit distance to the length of the base
    name is below 1/5 for an H1, below 1/10 for an H2. *)
Lemma similarHeading_default (base : string) (fh : HeadingEl) :
  (tagName fh = "H1" /\ 5 * headingDistance base fh < String.length base)
  \/ (tagName fh = "H2" /\ 10 * headingDistance base fh < String.length base) ->
  similarHeading base base fh = true.
Proof.
  unfold similarHeading, headingDistance. cbv zeta.
  rewrite toLowerCase_length, jsMin_same.
  intros [[-> Hlt] | [-> Hlt]].
  - rewrite (jsLt_jsDiv _ _ 5 Hlt). reflexivity.
  - rewrite (jsLt_jsDiv _ _ 10 Hlt). reflexivity.
Qed.

Lemma find_app_found {A} (f : A -> bool) (l1 l2 : list A) (x : A) :
  List.find f l1 = Some x -> List.find f (l1 ++ l2) = Some x.
Proof.
  induction l1 as [| a l1 IH]; simpl; [discriminate |].
  destruct (f a); auto.
Qed.

Section TitlePromotion.
Context `{PathLib}.
Variable h : Host.

(** [addTitle] on a markdown page whose first header passes the test and
    whose title is the default one. *)
Lemma addTitle_promotes (q : Webpage) (c : Content) (d : PageDocument) (fh : HeadingEl) :
  content q = Some c ->
  pageDocument q = Some d ->
  type (pageMeta q) = Markdown ->
  firstHeader d = Some fh ->
  isDefault (titleInfo q) = true ->
  similarHeading (title (pageMeta q)) (fileBasename (source q)) fh = true ->
  title (pageMeta (addTitle q)) = innerHTML fh
  /\ pageDocument (addTitle q) = Some (removeFirstHeader d)
  /\ content (addTitle q) = Some (prependTitleEl c (innerHTML fh))
  /\ log (addTitle q) = log q ++ [UsedSimilarHeader
       (JS.toLowerCase (default (textContent fh) (dataHeading fh)))].
Proof.
  intros Hc Hd Ht Hf Hdef Hs. unfold addTitle. rewrite Hc, Hd, Ht, Hf.
  simpl bool_decide. cbv iota zeta beta. simpl negb. cbv iota.
  unfold similarHeading in Hs. cbv zeta in Hs. rewrite Hs.
  unfold takeHeader. rewrite Hdef. simpl. auto.
Qed.

Lemma fillMetadataAfterRender_frame (w : Website) (p : Webpage) :
  let p' := fst (fillMetadataAfterRender h w p) in
  content p' = content p /\ pageDocument p' = pageDocument p
  /\ source p' = source p /\ titleInfo p' = titleInfo p
  /\ log p' = log p /\ type (pageMeta p') = type (pageMeta p)
  /\ title (pageMeta p') = title (pageMeta p).
Proof.
  unfold fillMetadataAfterRender, getRenderedHeadings.
  destruct (headingsCache p); simpl;
    match goal with |- context [getBacklinks ?a ?b ?c] => destruct (getBacklinks a b c) end;
    simpl; auto 10.
Qed.

(** [build] on a page that is not loaded yet, or that [load] has
    returned, goes on to render the loaded page. *)
Lemma build_loads (w : Website) (p : Webpage) :
  (isLoaded p = true -> exists p0, p = load h (options w) p0) ->
  exists p0, source p0 = source p /\ log p0 = log p
             /\ build h w p = buildModified h w (load h (options w) p0).
Proof.
  intros Hload. unfold build. destruct (isLoaded p) eqn:Hl.
  - destruct (Hload eq_refl) as [p0 ->]. exists p0. simpl. auto.
  - exists p. simpl. auto.
Qed.

(** The page [buildModified] returns for a loaded page whose source
    renders: [addTitle] (when enabled) applied to a page that holds the
    remapped container as its content, a document with the headings of
    the rendered element followed by those of the layout, the view type
    and the title of [getTitle]. *)
Lemma buildModified_rendered (w : Website) (p0 : Webpage) (ri : RenderInfo) :
  renderFile h (source p0) = Some ri ->
  let p := load h (options w) p0 in
  exists q c,
    snd (fst (buildModified h w p)) = (if optAddTitle (options w) then addTitle q else q)
    /\ fst (fst (buildModified h w p)) = Built
    /\ content q = Some c
    /\ pageDocument q
       = Some (mkPageDocument [] (headingEls (contentEl ri) ++ layoutHeadingEls h))
    /\ type (pageMeta q) = default Other (viewType ri)
    /\ title (pageMeta q) = tiTitle (getTitle h (source p0))
    /\ titleInfo q = getTitle h (source p0)
    /\ source q = source p0
    /\ log q = log p0.
Proof.
  intros Hr. cbv zeta. unfold buildModified.
  change (source (load h (options w) p0)) with (source p0). rewrite Hr.
  set (p3 := withAttachmentSourcePaths _ _).
  destruct (remapLinks h w p3 (container ri)) as [c4 w4].
  destruct (remapEmbedLinks h w4 p3 c4) as [c5 w5].
  pose proof (fillMetadataAfterRender_frame w5 (withContent p3 (Some c5))) as H6.
  destruct (fillMetadataAfterRender h w5 (withContent p3 (Some c5))) as [p6 w6].
  cbv zeta in H6. simpl in H6.
  destruct H6 as (Hc & Hd & Hs & Hti & Hlog & Hty & Htt).
  eexists (withTemplate (appendLayout h p6) _), c5. simpl.
  rewrite Hd. simpl.
  repeat split; try assumption; try reflexivity.
Qed.

(** C5 (amended). When title insertion is enabled and the document is
    rendered as a markdown view, for a document whose title is the default
    one (not set in the front matter) and whose first heading is an H1
    with an edit-distance ratio to the base name below 1/5, or an H2 with
    a ratio below 1/10, [build] sets the page title to that heading's
    inner HTML, prepends the title element, whose id is that title, to
    the content and logs that the header was used as the title. *)
Theorem build_promotes_similar_heading
    (w : Website) (p : Webpage) (ri : RenderInfo) (fh : HeadingEl) :
  optAddTitle (options w) = true ->
  (isLoaded p = true -> exists p0, p = load h (options w) p0) ->
  renderFile h (source p) = Some ri ->
  viewType ri = Some Markdown ->
  firstHeading (contentEl ri) = Some fh ->
  isDefault (getTitle h (source p)) = true ->
  (tagName fh = "H1"
   /\ 5 * headingDistance (fileBasename (source p)) fh
      < String.length (fileBasename (source p)))
  \/ (tagName fh = "H2"
      /\ 10 * headingDistance (fileBasename (source p)) fh
         < String.length (fileBasename (source p))) ->
  let p' := snd (fst (build h w p)) in
  title (pageMeta p') = innerHTML fh
  /\ (pageTitleEl <$> content p') = Some (Some (innerHTML fh))
  /\ log p' = log p ++ [UsedSimilarHeader
       (JS.toLowerCase (default (textContent fh) (dataHeading fh)))].
Proof.
  intros Ho Hl Hr Hv Hf Hd Hsim.
  destruct (build_loads w p Hl) as (p0 & Hsrc0 & Hlog0 & Hbuild).
  rewrite <- Hsrc0 in Hr, Hd, Hsim.
  destruct (buildModified_rendered w p0 ri Hr)
    as (q & c & Hb & _ & Hc & Hdoc & Hty & Htt & Hti & Hsrc & Hlog).
  cbv zeta. rewrite Hbuild, Hb, Ho.
  assert (Hfq : firstHeader (mkPageDocument []
                  (headingEls (contentEl ri) ++ layoutHeadingEls h)) = Some fh).
  { unfold firstHeader, firstHeading in *. simpl. now apply find_app_found. }
  assert (Hbase : tiTitle (getTitle h (source p0)) = fileBasename (source p0)).
  { unfold getTitle in *. simpl in *. now apply String.eqb_eq. }
  destruct (addTitle_promotes q c _ fh Hc Hdoc) as (H1 & H2 & H3 & H4);
    try assumption.
  - now rewrite Hty, Hv.
  - now rewrite Hti.
  - rewrite Htt, Hbase, Hsrc. apply similarHeading_default. exact Hsim.
  - rewrite H1, H3, H4, Hlog, Hlog0. simpl. auto.
Qed.

End TitlePromotion.

Lemma build_promotes_similar_heading_witness :
  title (pageMeta (TitleFixtures.built TitleFixtures.host Fixtures.plainOptions))
  = "Introduction"
  /\ (pageTitleEl <$>
        content (TitleFixtures.built TitleFixtures.host Fixtures.plainOptions))
     = Some (Some "Introduction").
Proof.
  assert (Hsim : 5 * headingDistance "introduction" (Fixtures.h1 "Introduction")
                 < String.length "introduction") by (vm_compute; lia).
  assert (Hload : isLoaded (TitleFixtures.page Fixtures.plainOptions) = true ->
                  exists p0, TitleFixtures.page Fixtures.plainOptions
                             = load TitleFixtures.host Fixtures.plainOptions p0)
    by (intros Hl; discriminate Hl).
  pose proof (build_promotes_similar_heading TitleFixtures.host
                (TitleFixtures.w0 Fixtures.plainOptions)
                (TitleFixtures.page Fixtures.plainOptions)
                (Fixtures.rendered [] [] [Fixtures.h1 "Introduction"])
                (Fixtures.h1 "Introduction")
                eq_refl Hload eq_refl eq_refl eq_refl eq_refl
                (or_introl (conj eq_refl Hsim))) as Hp.
  cbv zeta in Hp. destruct Hp as (Ht & Hh & _).
  split; [exact Ht | exact Hh].
Defined.

(** C5 (counterexample). The file [introduction.md] starts with the
    heading "Introduction".  Built with title insertion disabled, the page
    keeps the title "introduction" and the heading stays where it was
    rendered.  Built with title insertion enabled from the heading
    [<em>Intro</em>duction], whose text is "Introduction", the page gets
    the markup as its title, not the text. *)
Lemma heading_not_promoted_without_addTitle :
  let off := TitleFixtures.built TitleFixtures.host TitleFixtures.noTitleOptions in
  let em := TitleFixtures.built (TitleFixtures.hostRendering [TitleFixtures.emphasised])
              Fixtures.plainOptions in
  title (pageMeta off) = "introduction"
  /\ (List.map textContent <$> (docHeadingEls <$> pageDocument off))
     = Some ["Introduction"]
  /\ title (pageMeta em) = "<em>Intro</em>duction"
  /\ textContent TitleFixtures.emphasised = "Introduction".
Proof. vm_compute. repeat split. Qed.

(** The content fragment of the same page: the remapped container, with
    the title element prepended by [addTitle]. *)
Example promoted_page_content :
  let p := TitleFixtures.built TitleFixtures.host Fixtures.plainOptions in
  (pageTitleEl <$> content p) = Some (Some "Introduction")
  /\ (List.map elId <$> (headingEls <$> content p)) = Some ["Introduction"]
  /\ log p = [UsedSimilarHeader "introduction"].
Proof. vm_compute. repeat split. Qed.

(** ** C6: attachments of [Website.build] *)

Section Attachments.
Context `{PathLib}.
Variable h : Host.

Lemma createAttachment_frame (w : Website) (f : TFile) :
  siteAttachments (snd (createAttachment w f)) = siteAttachments w.
Proof. reflexivity. Qed.

(** The second loop of [Website.build] appends one attachment for every
    occurrence of a path that names a file of the vault: a path collected
    from two pages gives two attachments. *)
Lemma attachNew_length (paths : list string) :
  forall w : Website,
    length (siteAttachments (attachNew h w paths))
    = length (siteAttachments w)
      + length (List.filter (fun a => bool_decide (is_Some (getFileByPath h a))) paths).
Proof.
  induction paths as [| a paths IH]; intros w; simpl; [lia |].
  destruct (getFileByPath h a) as [file |] eqn:Hf; simpl.
  - rewrite IH. simpl. rewrite List.length_app. simpl. lia.
  - rewrite IH. lia.
Qed.

End Attachments.

(** C6 (evaluation at the failing input). The notes [a.md] and [b.md]
    both embed [img.png]; after [Website.build] the site holds two
    attachment records with the target path [img.png], and
    [saveAttachments] downloads that path twice. *)
Theorem shared_attachment_is_created_twice :
  List.map (fun p => attachmentSourcePaths p) (webpages AttachmentFixtures.exported)
  = [["img.png"]; ["img.png"]]
  /\ List.map attTargetPath (siteAttachments AttachmentFixtures.exported)
     = ["img.png"; "img.png"]
  /\ AttachmentFixtures.attachmentDownloads AttachmentFixtures.exported
     = ["img.png"; "img.png"].
Proof. vm_compute. repeat split. Qed.

(** ** C3: the source-to-target table *)

Section PathMapping.
Context `{PathLib}.

Lemma getTargetFilePath_options (w : Website) (s : string) (f : option string) (b : bool) :
  options (snd (getTargetFilePath w s f b)) = options w.
Proof. unfold getTargetFilePath. now destruct (JS.truthyOpt _). Qed.

Lemma registerFile_spec (w : Website) (s : string) :
  tableDerived w ->
  tableDerived (registerFile w s)
  /\ options (registerFile w s) = options w
  /\ targetOfSource (registerFile w s) s = Some (derivedTarget (options w) s)
  /\ (forall s', targetOfSource w s' = Some (derivedTarget (options w) s') ->
        targetOfSource (registerFile w s) s' = Some (derivedTarget (options w) s')).
Proof.
  intros Hinv. unfold tableDerived, registerFile, getTargetFilePath, targetOfSource in *.
  destruct (sourceToTarget (metadata w) !! s) as [t |] eqn:Hs; simpl.
  - destruct (JS.truthy t) eqn:Ht; simpl.
    + repeat split; auto. rewrite Hs. f_equal. now apply Hinv.
    + repeat split.
      * intros s' t'. destruct (decide (s = s')) as [<- | Hne].
        -- rewrite lookup_insert_eq. now intros [= <-].
        -- rewrite lookup_insert_ne by assumption. apply Hinv.
      * apply lookup_insert_eq.
      * intros s' Hs'. destruct (decide (s = s')) as [<- | Hne].
        -- apply lookup_insert_eq.
        -- now rewrite lookup_insert_ne.
  - repeat split.
    + intros s' t'. destruct (decide (s = s')) as [<- | Hne].
      * rewrite lookup_insert_eq. now intros [= <-].
      * rewrite lookup_insert_ne by assumption. apply Hinv.
    + apply lookup_insert_eq.
    + intros s' Hs'. destruct (decide (s = s')) as [<- | Hne].
      * apply lookup_insert_eq.
      * now rewrite lookup_insert_ne.
Qed.

Lemma fold_registerFile (srcs : list string) :
  forall w : Website,
    tableDerived w ->
    let w' := fold_left registerFile srcs w in
    tableDerived w' /\ options w' = options w
    /\ (forall s, In s srcs \/ targetOfSource w s = Some (derivedTarget (options w) s) ->
          targetOfSource w' s = Some (derivedTarget (options w) s)).
Proof.
  induction srcs as [| a srcs IH]; intros w Hinv; simpl.
  - repeat split; auto. intros s [[] | Hs]. exact Hs.
  - destruct (registerFile_spec w a Hinv) as (Hinv' & Ho & Ha & Hkeep).
    destruct (IH _ Hinv') as (Hinv'' & Ho' & Hall).
    cbv zeta in *. rewrite Ho in *. repeat split; auto.
    intros s [[<- | Hin] | Hs]; apply Hall; auto.
Qed.

(** After the loop of [initMetadata], every file of the export has its
    derived target in the table. *)
Lemma initTables_lookup (w : Website) (srcs : list string) (s : string) :
  In s srcs ->
  targetOfSource (initTables w srcs) s = Some (derivedTarget (options w) s).
Proof.
  intros Hin. unfold initTables.
  pose proof (fold_registerFile srcs
    (setMetadata w {| allFiles := []; sourceToTarget := ∅; targetToSource := ∅ |})) as Hf.
  cbv zeta in Hf. destruct Hf as (_ & _ & Hall).
  - intros s' t'. unfold targetOfSource. simpl. now rewrite lookup_empty.
  - apply Hall. now left.
Qed.

End PathMapping.

(** C3 (counterexample). With web-style names the distinct sources
    [Notes.md] and [notes.md] are both mapped to [notes.html]; without
    them the distinct sources [note.md] and [note.canvas] are both mapped
    to [note.html]. *)
Lemma distinct_sources_share_a_target :
  "Notes.md" <> "notes.md"
  /\ targetOfSource MappingFixtures.slugged "Notes.md" = Some "notes.html"
  /\ targetOfSource MappingFixtures.slugged "notes.md" = Some "notes.html"
  /\ "note.md" <> "note.canvas"
  /\ targetOfSource MappingFixtures.plain "note.md" = Some "note.html"
  /\ targetOfSource MappingFixtures.plain "note.canvas" = Some "note.html".
Proof. repeat split; try discriminate; vm_compute; reflexivity. Qed.

(** ** C2: links and backlinks *)

Section Backlinks.
Context `{PathLib}.
Variable h : Host.



End Backlinks.


(** ** C9: the combined document *)

Module CombinedProps.
Import Combined.

Lemma hexDigit_roundtrip (c : ascii) :
  ascii_of_nat (16 * hexValue (hexDigit (nat_of_ascii c / 16))
                + hexValue (hexDigit (nat_of_ascii c mod 16))) = c.
Proof. destruct c as [[] [] [] [] [] [] [] []]; vm_compute; reflexivity. Qed.

Lemma percent_is_escaped : uriUnescaped "%" = false.
Proof. reflexivity. Qed.

(** [encodeURI] is injective: paths that differ get ids that differ. *)
Lemma encodeURI_inj (s1 : string) :
  forall s2, encodeURI s1 = encodeURI s2 -> s1 = s2.
Proof.
  induction s1 as [| c1 r1 IH]; intros [| c2 r2]; cbn [encodeURI].
  - reflexivity.
  - destruct (uriUnescaped c2); discriminate.
  - destruct (uriUnescaped c1); discriminate.
  - destruct (uriUnescaped c1) eqn:H1, (uriUnescaped c2) eqn:H2; intros Heq.
    + injection Heq as -> Hr. f_equal. now apply IH.
    + injection Heq as -> _. rewrite percent_is_escaped in H1. discriminate.
    + injection Heq as <- _. rewrite percent_is_escaped in H2. discriminate.
    + injection Heq as Hhi Hlo Hr. f_equal; [| now apply IH].
      rewrite <- (hexDigit_roundtrip c1), <- (hexDigit_roundtrip c2).
      replace (hexDigit (nat_of_ascii c1 / 16)) with (hexDigit (nat_of_ascii c2 / 16))
        by (symmetry; exact Hhi).
      replace (hexDigit (nat_of_ascii c1 mod 16)) with (hexDigit (nat_of_ascii c2 mod 16))
        by (symmetry; exact Hlo).
      reflexivity.
Qed.

Lemma getElementById_createData (d : HtmlDoc) (k v key : string) :
  getElementById (createData d k v) key = getElementById d key || String.eqb k key.
Proof.
  unfold getElementById, createData. simpl. rewrite existsb_app. simpl.
  rewrite orb_false_r. now rewrite orb_assoc.
Qed.

Lemma embedWebpages_spec (entries : list (string * string)) :
  forall d : HtmlDoc,
    authoredIds (embedWebpages d entries) = authoredIds d
    /\ headData (embedWebpages d entries)
       = headData d
         ++ List.map (fun e => mkDataEl (encodeURI (fst e)) (encodeURI (snd e))) entries.
Proof.
  induction entries as [| [p json] entries IH]; intros d; simpl.
  - now rewrite app_nil_r.
  - destruct (IH (createData d (encodeURI p) (encodeURI json))) as [Ha Hh].
    unfold embedWebpages in *. rewrite Ha, Hh. simpl. now rewrite <- app_assoc.
Qed.

(** The loop over [fileInfo]: what the document held stays, the elements
    it adds have ids the document did not hold and that differ from each
    other, and afterwards every entry has an element. *)
Lemma embedFileInfo_spec (entries : list (string * string)) :
  forall d : HtmlDoc,
    authoredIds (embedFileInfo d entries) = authoredIds d
    /\ (forall key, getElementById d key = true ->
          getElementById (embedFileInfo d entries) key = true)
    /\ (forall p json, In (p, json) entries ->
          getElementById (embedFileInfo d entries) (encodeURI p) = true)
    /\ exists added,
         headData (embedFileInfo d entries) = headData d ++ added
         /\ NoDup (List.map dataId added)
         /\ (forall e, In e added -> getElementById d (dataId e) = false).
Proof.
  induction entries as [| [p json] entries IH]; intros d.
  - simpl. split; [reflexivity |]. split; [auto |]. split; [intros ? ? [] |].
    exists []. rewrite app_nil_r. split; [reflexivity |].
    split; [constructor | intros ? []].
  - unfold embedFileInfo in *. simpl.
    destruct (getElementById d (encodeURI p)) eqn:Hp.
    + destruct (IH d) as (Ha & Hmono & Hall & added & Hh & Hnd & Hnew).
      repeat split; auto.
      * intros p' json' [[= <- <-] | Hin]; [now apply Hmono | eauto].
      * exists added. auto.
    + set (d1 := createData d (encodeURI p) (encodeURI json)).
      destruct (IH d1) as (Ha & Hmono & Hall & added & Hh & Hnd & Hnew).
      assert (Hd1 : forall key, getElementById d1 key
                                = getElementById d key || String.eqb (encodeURI p) key)
        by (intros; apply getElementById_createData).
      repeat split.
      * exact Ha.
      * intros key Hk. apply Hmono. rewrite Hd1, Hk. reflexivity.
      * intros p' json' [[= <- <-] | Hin]; [| eauto].
        apply Hmono. rewrite Hd1, String.eqb_refl. apply orb_true_r.
      * exists (mkDataEl (encodeURI p) (encodeURI json) :: added).
        split; [rewrite Hh; simpl; now rewrite <- app_assoc |].
        split.
        -- simpl. constructor; [| exact Hnd].
           intros Hin. apply list_elem_of_In, in_map_iff in Hin as (e & He & Hin).
           specialize (Hnew e Hin). rewrite Hd1, He, String.eqb_refl in Hnew.
           rewrite orb_true_r in Hnew. discriminate.
        -- intros e [<- | Hin]; [exact Hp |].
           specialize (Hnew e Hin). rewrite Hd1 in Hnew.
           now apply orb_false_iff in Hnew.
Qed.

Section CombinedDocument.
Variable parseIds : string -> list string.

(** [getCombinedHTML] produces a document as soon as its base page has
    data (the first page named [index.html], or, when that one is
    missing or empty, the first page of the index): the parsed base page
    with the manifest block, the page blocks and the file-info blocks
    appended to its head. *)
Lemma getCombinedHTML_defined (pages : list IndexPage) (site : SiteData) :
  hasData (basePage pages) = true ->
  exists ids,
    getCombinedHTML parseIds pages site
    = Some (embedFileInfo
              (embedWebpages
                 (createData (mkHtmlDoc ids []) "website-metadata"
                    (encodeURI (manifestJson site)))
                 (webpagesInfo site))
              (fileInfo site)).
Proof.
  unfold basePage, getCombinedHTML. cbv zeta.
  set (index0 := List.find _ pages).
  destruct (hasData index0) eqn:Hi; simpl negb; cbv iota.
  - intros _. cbn [andb]. rewrite Hi. simpl. eauto.
  - intros Hfirst. destruct pages as [| p0 rest]; [discriminate |].
    change (0 <? length (p0 :: rest))%nat with true. cbn [andb].
    rewrite Hfirst. simpl. eauto.
Qed.

(** C9 (amended). In combined-output mode, when the base page (the
    first page named [index.html], or the first page of the index when
    that one is missing or has no data) has data, one document is
    produced; for every entry of the
    webpages table its head holds a data block whose id is [encodeURI] of
    the page's target path and whose value is the encoded record (paths
    that differ give ids that differ); every file-info entry has an
    element of its id; and the blocks created for file-info entries have
    ids that differ from each other, from the ids of the authored
    document, from the manifest block and from the page blocks: a
    file-info entry present in the document is not embedded a second
    time.  Page entries are embedded without that test. *)
Theorem combined_document_blocks (pages : list IndexPage) (site : SiteData) :
  hasData (basePage pages) = true ->
  exists doc added,
    getCombinedHTML parseIds pages site = Some doc
    /\ (forall p json, In (p, json) (webpagesInfo site) ->
          In (mkDataEl (encodeURI p) (encodeURI json)) (headData doc))
    /\ (forall p1 p2, encodeURI p1 = encodeURI p2 -> p1 = p2)
    /\ (forall p json, In (p, json) (fileInfo site) ->
          getElementById doc (encodeURI p) = true)
    /\ headData doc
       = mkDataEl "website-metadata" (encodeURI (manifestJson site))
         :: List.map (fun e => mkDataEl (encodeURI (fst e)) (encodeURI (snd e)))
              (webpagesInfo site)
         ++ added
    /\ NoDup (List.map dataId added)
    /\ (forall e, In e added ->
          ~ In (dataId e) (authoredIds doc)
          /\ dataId e <> "website-metadata"
          /\ ~ In (dataId e) (List.map (fun e => encodeURI (fst e)) (webpagesInfo site))).
Proof.
  intros Hfirst.
  destruct (getCombinedHTML_defined pages site Hfirst) as [ids Hdoc].
  set (html1 := createData (mkHtmlDoc ids []) "website-metadata"
                  (encodeURI (manifestJson site))) in *.
  set (doc := embedFileInfo (embedWebpages html1 (webpagesInfo site)) (fileInfo site)) in *.
  destruct (embedWebpages_spec (webpagesInfo site) html1) as [Hwa Hwh].
  destruct (embedFileInfo_spec (fileInfo site) (embedWebpages html1 (webpagesInfo site)))
    as (Ha & Hmono & Hall & added & Hh & Hnd & Hnew).
  fold doc in Ha, Hmono, Hall, Hh. exists doc, added.
  assert (Hhead : headData doc
                  = mkDataEl "website-metadata" (encodeURI (manifestJson site))
                    :: List.map (fun e => mkDataEl (encodeURI (fst e)) (encodeURI (snd e)))
                         (webpagesInfo site) ++ added).
  { rewrite Hh, Hwh. reflexivity. }
  split; [exact Hdoc |].
  split.
  { intros p json Hin. rewrite Hhead. right. apply in_or_app. left.
    apply in_map_iff. exists (p, json). auto. }
  split; [intros p1 p2; apply encodeURI_inj |].
  split; [exact Hall |].
  split; [exact Hhead |].
  split; [exact Hnd |].
  intros e Hin. specialize (Hnew e Hin).
  unfold getElementById in Hnew. rewrite Hwa, Hwh in Hnew.
  apply orb_false_iff in Hnew as [Hauth Hdata].
  rewrite existsb_app in Hdata. apply orb_false_iff in Hdata as [Hmeta Hpages].
  unfold html1, createData in Hmeta. cbn [headData app existsb dataId] in Hmeta.
  rewrite orb_false_r in Hmeta. apply String.eqb_neq in Hmeta.
  repeat split.
  - rewrite Ha, Hwa. intros Hin'.
    assert (existsb (String.eqb (dataId e)) (authoredIds html1) = true); [| congruence].
    apply existsb_exists. exists (dataId e). split; [exact Hin' | apply String.eqb_refl].
  - congruence.
  - intros Hin'. apply in_map_iff in Hin' as (x & Hx & Hin').
    assert (existsb (fun e0 => String.eqb (dataId e0) (dataId e))
              (List.map (fun e0 => mkDataEl (encodeURI (fst e0)) (encodeURI (snd e0)))
                 (webpagesInfo site)) = true); [| congruence].
    apply existsb_exists. exists (mkDataEl (encodeURI (fst x)) (encodeURI (snd x))).
    split; [apply in_map_iff; eauto |]. simpl. rewrite Hx. apply String.eqb_refl.
Qed.

End CombinedDocument.

End CombinedProps.

Lemma combined_document_blocks_witness :
  Combined.hasData (List.hd_error CombinedFixtures.indexLast) = false
  /\ exists doc,
       Combined.getCombinedHTML CombinedFixtures.parseIds CombinedFixtures.indexLast
         CombinedFixtures.spacedData = Some doc
       /\ In (Combined.mkDataEl "my%20page.html" "%7B%7D") (Combined.headData doc).
Proof.
  split; [reflexivity |].
  destruct (CombinedProps.combined_document_blocks CombinedFixtures.parseIds
              CombinedFixtures.indexLast CombinedFixtures.spacedData eq_refl)
    as (doc & added & Hdoc & Hpages & _).
  exists doc. split; [exact Hdoc |].
  apply (Hpages "my page.html" "{}"). right. left. reflexivity.
Defined.

(** C9 (counterexample). The index page of the first vault already has
    an element whose id is [a.html]; the combined document gets a data
    block with the id [a.html] all the same, since page entries are
    embedded without looking for an existing element.  In the second
    vault the page [my page.html] gets the block id [my%20page.html]:
    the id is the URI-encoded key, not the key. *)
Lemma page_block_embedded_beside_existing_element :
  In "a.html" (CombinedFixtures.parseIds "<h2 id=a.html>")
  /\ CombinedFixtures.dataIds
       (Combined.getCombinedHTML CombinedFixtures.parseIds CombinedFixtures.pages
          CombinedFixtures.siteData)
     = ["website-metadata"; "index.html"; "a.html"; "img.png"]
  /\ CombinedFixtures.dataIds
       (Combined.getCombinedHTML CombinedFixtures.parseIds CombinedFixtures.spacedPages
          CombinedFixtures.spacedData)
     = ["website-metadata"; "index.html"; "my%20page.html"].
Proof. vm_compute. repeat split. now left. Qed.

(** ** The downloads of [exportFolder] are deduplicated *)

Lemma sameDownload_key (file f : Downloadable) :
  sameDownload file f = true <-> dlKey f = dlKey file.
Proof.
  unfold sameDownload, dlKey. rewrite andb_true_iff, bool_decide_eq_true, String.eqb_eq.
  split; [intros [-> ->]; reflexivity | intros [= -> ->]; auto].
Qed.

Lemma findIndex_lt {A} (pred : A -> bool) (l : list A) :
  forall i, findIndex pred l = Some i -> i < length l /\ exists y, In y l /\ pred y = true.
Proof.
  induction l as [| x l IH]; simpl; intros i Hi; [discriminate |].
  destruct (pred x) eqn:Hx.
  - injection Hi as <-. split; [lia | eauto].
  - destruct (findIndex pred l) as [j |]; [| discriminate]. injection Hi as <-.
    destruct (IH j eq_refl) as (Hlt & y & Hy & Hp). split; [lia | eauto].
Qed.

Lemma findIndex_None {A} (pred : A -> bool) (l : list A) :
  findIndex pred l = None -> forall y, In y l -> pred y = false.
Proof.
  induction l as [| x l IH]; simpl; intros Hn y Hy; [contradiction |].
  destruct (pred x) eqn:Hx; [discriminate |].
  destruct (findIndex pred l); [discriminate |].
  destruct Hy as [<- | Hy]; auto.
Qed.

Lemma findIndex_app {A} (pred : A -> bool) (l1 l2 : list A) :
  findIndex pred (l1 ++ l2)
  = match findIndex pred l1 with
    | Some i => Some i
    | None => (fun i => length l1 + i) <$> findIndex pred l2
    end.
Proof.
  induction l1 as [| x l1 IH]; simpl.
  - now destruct (findIndex pred l2).
  - destruct (pred x); [reflexivity |]. rewrite IH.
    destruct (findIndex pred l1); [reflexivity |].
    now destruct (findIndex pred l2).
Qed.

(** The filter of line 230, started in the middle of the array: an
    element is kept exactly when no earlier element has its key. *)
Lemma filterIndexed_first_occurrences (l : list Downloadable) :
  forall (pre all : list Downloadable),
    all = pre ++ l ->
    let r := filterIndexed
               (fun file index =>
                  bool_decide (findIndex (sameDownload file) all = Some index))
               (length pre) l in
    (forall x, In x r -> In x l /\ forall y, In y pre -> dlKey y <> dlKey x)
    /\ List.NoDup (List.map dlKey r)
    /\ (forall x, In x l ->
          (exists y, In y pre /\ dlKey y = dlKey x) \/ In (dlKey x) (List.map dlKey r)).
Proof.
  induction l as [| x l IH]; intros pre all Hall; simpl.
  - repeat split; [contradiction | contradiction | constructor | contradiction].
  - assert (Hall' : all = (pre ++ [x]) ++ l) by (now rewrite <- app_assoc).
    specialize (IH (pre ++ [x]) all Hall'). cbv zeta in IH.
    rewrite List.length_app, Nat.add_1_r in IH.
    destruct IH as (Hin & Hnd & Hcov).
    assert (Hself : sameDownload x x = true) by (now apply sameDownload_key).
    assert (Hfx : findIndex (sameDownload x) all
                  = match findIndex (sameDownload x) pre with
                    | Some i => Some i
                    | None => Some (length pre)
                    end).
    { rewrite Hall, findIndex_app. simpl. rewrite Hself.
      destruct (findIndex (sameDownload x) pre); simpl; [reflexivity | f_equal; lia]. }
    rewrite Hfx.
    destruct (findIndex (sameDownload x) pre) as [i |] eqn:Hpre.
    + destruct (findIndex_lt _ _ _ Hpre) as (Hlt & y & Hy & Hsame).
      apply sameDownload_key in Hsame.
      rewrite bool_decide_eq_false_2 by (intros [= ->]; lia).
      split; [| split].
      * intros z Hz. split; [right; now apply Hin |].
        intros y' Hy'. apply (Hin z Hz). apply in_or_app. now left.
      * exact Hnd.
      * intros z [<- | Hz]; [left; eauto |].
        destruct (Hcov z Hz) as [(y' & Hy' & Hk) | Hr]; [| now right].
        apply in_app_or in Hy' as [Hy' | [<- | []]]; left; eauto.
        exists y. split; [exact Hy | congruence].
    + pose proof (findIndex_None _ _ Hpre) as Hnone.
      rewrite bool_decide_eq_true_2 by reflexivity.
      simpl. split; [| split].
      * intros z [<- | Hz].
        -- split; [now left |]. intros y Hy Hk. specialize (Hnone y Hy).
           assert (sameDownload x y = true) by (now apply sameDownload_key).
           congruence.
        -- split; [right; now apply Hin |].
           intros y Hy. apply (Hin z Hz). apply in_or_app. now left.
      * constructor; [| exact Hnd].
        intros Hk. apply in_map_iff in Hk as (z & Hz & Hzin).
        apply (proj2 (Hin z Hzin) x); [apply in_or_app; right; now left | congruence].
      * intros z [<- | Hz]; [right; now left |].
        destruct (Hcov z Hz) as [(y' & Hy' & Hk) | Hr]; [| right; now right].
        apply in_app_or in Hy' as [Hy' | [<- | []]]; [left; eauto |].
        right. left. exact Hk.
Qed.

(** [exportFolder] (first revision) downloads every (relative path, file
    name) once: the filter keeps the first download of each key. *)
Lemma removeDuplicates_NoDup (externalFiles : list Downloadable) :
  List.NoDup (List.map dlKey (removeDuplicates externalFiles))
  /\ (forall x, In x (removeDuplicates externalFiles) -> In x externalFiles)
  /\ (forall x, In x externalFiles ->
        In (dlKey x) (List.map dlKey (removeDuplicates externalFiles))).
Proof.
  destruct (filterIndexed_first_occurrences externalFiles [] externalFiles eq_refl)
    as (Hin & Hnd & Hcov).
  cbv zeta in *. simpl in *. fold (removeDuplicates externalFiles) in *.
  repeat split.
  - exact Hnd.
  - intros x Hx. now apply Hin.
  - intros x Hx. destruct (Hcov x Hx) as [(y & [] & _) | Hr]. exact Hr.
Qed.

(** * Further properties of the pipeline *)

(** ** Heading ids and anchor links *)

Lemma replaceAll_char (a : ascii) (rep s : string) :
  JS.replaceAll (String a "") rep s
  = match s with
    | EmptyString => EmptyString
    | String c r =>
        if Ascii.eqb a c then (rep ++ JS.replaceAll (String a "") rep r)%string
        else String c (JS.replaceAll (String a "") rep r)
    end.
Proof.
  unfold JS.replaceAll. destruct s as [| c r]; [reflexivity |].
  simpl. destruct (ascii_dec a c) as [-> | Hne].
  - rewrite Ascii.eqb_refl. now destruct r.
  - apply Ascii.eqb_neq in Hne. now rewrite Hne.
Qed.

Lemma replace_space_chars (s : string) :
  allChars (fun c => negb (Ascii.eqb c " ")) (JS.replaceAll " " "_" s) = true.
Proof.
  induction s as [| c r IH]; [reflexivity |].
  rewrite replaceAll_char. destruct (Ascii.eqb_spec " " c) as [<- | Hne].
  - simpl. exact IH.
  - simpl. rewrite IH, andb_true_r. apply negb_true_iff, Ascii.eqb_neq. congruence.
Qed.

Lemma remove_colon_chars (s : string) :
  allChars (fun c => negb (Ascii.eqb c " ")) s = true ->
  allChars idChar (JS.replaceAll ":" "" s) = true.
Proof.
  induction s as [| c r IH]; [reflexivity |]. intros Hs.
  simpl in Hs. apply andb_prop in Hs as [Hc Hr].
  rewrite replaceAll_char. destruct (Ascii.eqb_spec ":" c) as [<- | Hne].
  - simpl. now apply IH.
  - simpl. rewrite (IH Hr), andb_true_r. unfold idChar. rewrite Hc. simpl.
    apply negb_true_iff, Ascii.eqb_neq. congruence.
Qed.

Lemma replaceAll_char_absent (a : ascii) (rep s : string) :
  allChars (fun c => negb (Ascii.eqb c a)) s = true ->
  JS.replaceAll (String a "") rep s = s.
Proof.
  induction s as [| c r IH]; [reflexivity |]. intros Hs.
  simpl in Hs. apply andb_prop in Hs as [Hc Hr]. rewrite replaceAll_char.
  rewrite Ascii.eqb_sym. apply negb_true_iff in Hc. rewrite Hc. now rewrite (IH Hr).
Qed.

Lemma allChars_impl (f g : ascii -> bool) (s : string) :
  (forall c, f c = true -> g c = true) -> allChars f s = true -> allChars g s = true.
Proof.
  intros Hfg. induction s as [| c r IH]; [reflexivity |]. simpl.
  intros Hs. apply andb_prop in Hs as [Hc Hr]. now rewrite (Hfg _ Hc), (IH Hr).
Qed.

(** X1. The id [headingTextToID] makes from a heading text holds no
    space and no colon, and it is a fixed point: applying the function to
    an id gives the id back. *)
Theorem headingTextToID_normal_form (s : string) :
  allChars idChar (headingTextToID (Some s)) = true
  /\ headingTextToID (Some (headingTextToID (Some s))) = headingTextToID (Some s).
Proof.
  assert (Hid : allChars idChar (headingTextToID (Some s)) = true).
  { unfold headingTextToID. apply remove_colon_chars, replace_space_chars. }
  split; [exact Hid |].
  unfold headingTextToID in *.
  rewrite (replaceAll_char_absent " " "_").
  - apply replaceAll_char_absent.
    eapply allChars_impl; [| exact Hid].
    intros c Hc. unfold idChar in Hc. now apply andb_prop in Hc as [_ Hc].
  - eapply allChars_impl; [| exact Hid].
    intros c Hc. unfold idChar in Hc. now apply andb_prop in Hc as [Hc _].
Qed.

Lemma startsWith_char (c : ascii) (s : string) :
  JS.startsWith s (String c "") = true -> exists r, s = String c r.
Proof.
  destruct s as [| a r]; unfold JS.startsWith, String.prefix.
  - discriminate.
  - destruct (ascii_dec c a) as [-> | _]; [eauto | discriminate].
Qed.

Section AnchorLinks.
Context `{PathLib}.
Variable h : Host.

Lemma toggleClass_off (name : string) (cs : list string) :
  ~ In name (toggleClass name false cs)
  /\ forall c, c <> name -> (In c (toggleClass name false cs) <-> In c cs).
Proof.
  unfold toggleClass. split.
  - intros Hin. apply filter_In in Hin as [_ Hne].
    now rewrite String.eqb_refl in Hne.
  - intros c Hne. rewrite filter_In. split; [now intros [Hin _] |].
    intros Hin. split; [exact Hin |]. now apply negb_true_iff, String.eqb_neq.
Qed.

Lemma toggleClass_on (name : string) (cs : list string) :
  In name (toggleClass name true cs)
  /\ forall c, c <> name -> (In c (toggleClass name true cs) <-> In c cs).
Proof.
  unfold toggleClass. destruct (existsb (String.eqb name) cs) eqn:He.
  - split; [| tauto]. apply existsb_exists in He as (x & Hx & Heq).
    apply String.eqb_eq in Heq. now subst.
  - split; [apply in_or_app; right; now left |].
    intros c Hne. rewrite in_app_iff. simpl. split; [| tauto].
    intros [Hin | [Heq | []]]; [exact Hin | congruence].
Qed.

(** X2. An anchor-only link ([#heading], not caught by the scheme
    pattern) is rewritten without consulting the path tables: the site is
    left as it is, the new href is the heading id of the link (after the
    page's own path when header links are not relative), it is not empty,
    and the element loses the class [is-unresolved] while keeping its
    other classes. *)
Theorem anchor_link_resolution (w : Website) (p : Webpage) (el : LinkEl) :
  JS.startsWith (attr el) "#" = true ->
  isPassThrough (attr el) = false ->
  let el' := fst (remapEl h w p el) in
  snd (remapEl h w p el) = w
  /\ attr el' = ((if relativeHeaderLinks (options w) then "" else templatePath p)
                 ++ headingTextToID (Some (attr el)))%string
  /\ JS.truthy (attr el') = true
  /\ ~ In "is-unresolved" (classes el')
  /\ (forall c, c <> "is-unresolved" -> (In c (classes el') <-> In c (classes el))).
Proof.
  intros Hanchor Hpt. cbv zeta.
  assert (Hres : resolveLink h w p (Some (attr el))
                 = (Some ((if relativeHeaderLinks (options w) then "" else templatePath p)
                          ++ headingTextToID (Some (attr el)))%string, w)).
  { unfold resolveLink. unfold isPassThrough, isExternalURL in Hpt.
    apply orb_false_iff in Hpt as [Hpt Hq]. apply orb_false_iff in Hpt as [He Hd].
    assert (Ht : JS.truthy (attr el) = true)
      by (destruct (startsWith_char _ _ Hanchor) as [r ->]; reflexivity).
    rewrite Ht. simpl negb. cbv iota.
    rewrite He, Hd, Hq, Hanchor.
    now destruct (relativeHeaderLinks (options w)). }
  assert (Hne : JS.truthy ((if relativeHeaderLinks (options w) then "" else templatePath p)
                           ++ headingTextToID (Some (attr el)))%string = true).
  { destruct (startsWith_char _ _ Hanchor) as [r ->].
    assert (Hid : exists r', headingTextToID (Some (String "#" r)) = String "#" r').
    { unfold headingTextToID. rewrite (replaceAll_char " " "_" (String "#" r)).
      simpl. rewrite replaceAll_char. simpl. eauto. }
    destruct Hid as [r' ->].
    destruct (relativeHeaderLinks (options w)); [reflexivity |].
    destruct (templatePath p); reflexivity. }
  set (href := ((if relativeHeaderLinks (options w) then "" else templatePath p)
                ++ headingTextToID (Some (attr el)))%string) in *.
  unfold remapEl. rewrite Hres. simpl. rewrite Hne. simpl negb.
  repeat split; try apply toggleClass_off; auto.
Qed.

(** The two loops over link elements: one element out per element in,
    each with the target [_self]. *)
Lemma remapEls_shape (p : Webpage) (els : list LinkEl) :
  forall w : Website,
    length (fst (remapEls h w p els)) = length els
    /\ Forall (fun el => target el = Some "_self") (fst (remapEls h w p els)).
Proof.
  induction els as [| el els IH]; intros w; simpl; [split; [reflexivity | constructor] |].
  destruct (remapEl h w p el) as [el' w1] eqn:He.
  specialize (IH w1). destruct (remapEls h w1 p els) as [rest w2]. simpl in *.
  destruct IH as [Hlen Hall]. split; [now rewrite Hlen |].
  constructor; [| exact Hall].
  unfold remapEl in He. destruct (resolveLink h w p (Some (attr el))) as [r w'].
  now injection He as <- _.
Qed.

(** X3. [remapLinks] rewrites the href elements only: there are as many
    of them afterwards, each with the target [_self], and the src
    elements and text nodes of the content are untouched;
    [remapEmbedLinks] does the same for the src elements and leaves the
    href elements, headings and text nodes untouched. *)
Theorem remap_frames (w : Website) (p : Webpage) (c : Content) :
  let c1 := fst (remapLinks h w p c) in
  let c2 := fst (remapEmbedLinks h w p c) in
  (length (hrefEls c1) = length (hrefEls c)
   /\ Forall (fun el => target el = Some "_self") (hrefEls c1)
   /\ srcEls c1 = srcEls c /\ textNodes c1 = textNodes c
   /\ length (headingEls c1) = length (headingEls c))
  /\ (length (srcEls c2) = length (srcEls c)
      /\ Forall (fun el => target el = Some "_self") (srcEls c2)
      /\ hrefEls c2 = hrefEls c /\ textNodes c2 = textNodes c
      /\ headingEls c2 = headingEls c).
Proof.
  cbv zeta. unfold remapLinks, remapEmbedLinks.
  pose proof (remapEls_shape p (hrefEls c) w) as [Hl1 Ht1].
  pose proof (remapEls_shape p (srcEls c) w) as [Hl2 Ht2].
  destruct (remapEls h w p (hrefEls c)) as [e1 w1].
  destruct (remapEls h w p (srcEls c)) as [e2 w2]. simpl in *.
  rewrite List.length_map. repeat split; assumption.
Qed.

End AnchorLinks.

Lemma anchor_link_resolution_witness :
  fst (remapEl Fixtures.emptyHost LinkFixtures.w0 LinkFixtures.pageA
         (mkLinkEl "#My heading: part 2" None ["internal-link"; "is-unresolved"]))
  = mkLinkEl "#My_heading_part_2" (Some "_self") ["internal-link"].
Proof.
  pose proof (anchor_link_resolution Fixtures.emptyHost LinkFixtures.w0 LinkFixtures.pageA
                (mkLinkEl "#My heading: part 2" None ["internal-link"; "is-unresolved"])
                eq_refl eq_refl) as Ha.
  cbv zeta in Ha. destruct Ha as (_ & Hattr & _).
  vm_compute in Hattr. vm_compute. reflexivity.
Defined.

(** ** The path tables during a run *)

Section TableStability.
Context `{PathLib}.
Variable h : Host.

Lemma keepsEntries_refl (w : Website) : keepsEntries w w.
Proof. intros s t Hs _. exact Hs. Qed.

Lemma keepsEntries_trans (w1 w2 w3 : Website) :
  keepsEntries w1 w2 -> keepsEntries w2 w3 -> keepsEntries w1 w3.
Proof. intros H12 H23 s t Hs Ht. apply H23; [now apply H12 | exact Ht]. Qed.

Lemma getTargetFilePath_keeps (w : Website) (s : string) (f : option string) (b : bool) :
  keepsEntries w (snd (getTargetFilePath w s f b)).
Proof.
  intros s0 t0 Hs0 Ht0. unfold getTargetFilePath, targetOfSource in *.
  destruct b; simpl; [exact Hs0 |].
  destruct (JS.truthyOpt (sourceToTarget (metadata w) !! s)) eqn:Hc; simpl; [exact Hs0 |].
  destruct (decide (s = s0)) as [-> | Hne].
  - rewrite Hs0 in Hc. simpl in Hc. congruence.
  - now rewrite lookup_insert_ne.
Qed.

Lemma targetsOf_keeps (srcs : list string) :
  forall w, keepsEntries w (snd (targetsOf w srcs)).
Proof.
  induction srcs as [| s srcs IH]; intros w; simpl; [apply keepsEntries_refl |].
  pose proof (getTargetFilePath_keeps w s None false) as H1.
  destruct (getTargetFilePath w s None false) as [tp w1].
  specialize (IH w1). destruct (targetsOf w1 srcs) as [ts w2]. simpl in *.
  eapply keepsEntries_trans; eassumption.
Qed.

Lemma resolveLink_keeps (w : Website) (p : Webpage) (link : option string) :
  keepsEntries w (snd (resolveLink h w p link)).
Proof.
  unfold resolveLink. destruct link as [link |]; [| apply keepsEntries_refl].
  destruct (negb (JS.truthy link)); [apply keepsEntries_refl |].
  destruct (negb (JS.startsWith link "app://") && matchesScheme link);
    [apply keepsEntries_refl |].
  destruct (JS.startsWith link "data:"); [apply keepsEntries_refl |].
  destruct (JS.startsWith link "?"); [apply keepsEntries_refl |].
  destruct (JS.startsWith link "#"); [apply keepsEntries_refl |].
  match goal with
  | |- context [getTargetFilePath ?a ?b ?c ?d] =>
      pose proof (getTargetFilePath_keeps a b c d) as Hk;
      destruct (getTargetFilePath a b c d) as [tp w']
  end.
  exact Hk.
Qed.

Lemma remapEls_keeps (p : Webpage) (els : list LinkEl) :
  forall w, keepsEntries w (snd (remapEls h w p els)).
Proof.
  induction els as [| el els IH]; intros w; simpl; [apply keepsEntries_refl |].
  assert (H1 : keepsEntries w (snd (remapEl h w p el))).
  { unfold remapEl. pose proof (resolveLink_keeps w p (Some (attr el))) as Hr.
    now destruct (resolveLink h w p (Some (attr el))). }
  destruct (remapEl h w p el) as [el' w1].
  specialize (IH w1). destruct (remapEls h w1 p els) as [rest w2]. simpl in *.
  eapply keepsEntries_trans; eassumption.
Qed.

Lemma fillMetadataAfterRender_keeps (w : Website) (p : Webpage) :
  keepsEntries w (snd (fillMetadataAfterRender h w p)).
Proof.
  unfold fillMetadataAfterRender. destruct (getRenderedHeadings h p) as [hs p1].
  unfold getBacklinks.
  pose proof (targetsOf_keeps (getBacklinksForFile h (filePath (source p1))) w) as Hk.
  now destruct (targetsOf w _).
Qed.

Lemma build_keeps (w : Website) (p : Webpage) :
  keepsEntries w (snd (build h w p)).
Proof.
  unfold build. destruct (negb _); [apply keepsEntries_refl |].
  unfold buildModified. destruct (renderFile h _) as [ri |]; [| apply keepsEntries_refl].
  match goal with
  | |- context [remapLinks h w ?q ?c] =>
      pose proof (remapEls_keeps q (hrefEls c) w) as H4; unfold remapLinks;
      destruct (remapEls h w q (hrefEls c)) as [e4 w4]
  end.
  match goal with
  | |- context [remapEmbedLinks h w4 ?q ?c] =>
      pose proof (remapEls_keeps q (srcEls c) w4) as H5; unfold remapEmbedLinks;
      destruct (remapEls h w4 q (srcEls c)) as [e5 w5]
  end.
  match goal with
  | |- context [fillMetadataAfterRender h w5 ?q] =>
      pose proof (fillMetadataAfterRender_keeps w5 q) as H6;
      destruct (fillMetadataAfterRender h w5 q) as [p6 w6]
  end.
  simpl in *. eapply keepsEntries_trans; [| exact H6].
  eapply keepsEntries_trans; eassumption.
Qed.

End TableStability.

Section RunStability.
Context `{PathLib}.
Variable h : Host.
Variable tokenize : string -> list string.

Lemma buildPages_keeps (now : nat) (ps : list Webpage) :
  forall w, keepsEntries w (snd (buildPages h tokenize now w ps)).
Proof.
  induction ps as [| p ps IH]; intros w; simpl; [apply keepsEntries_refl |].
  pose proof (build_keeps h w p) as Hb.
  destruct (build h w p) as [[o p1] w1]. simpl in Hb.
  assert (Hstep : exists p3 paths w3,
             match addWebpageToMinisearch h tokenize (minisearch w1) p1 with
             | Some (ms, p2) =>
                 let '(p3, out, returned) := save now p2 in
                 (p3, if returned then attachmentSourcePaths p3 else [],
                  addWritten (setMinisearch w1 ms) out)
             | None => (p1, [], w1)
             end = (p3, paths, w3) /\ keepsEntries w1 w3).
  { destruct (addWebpageToMinisearch h tokenize (minisearch w1) p1) as [[ms p2] |].
    - destruct (save now p2) as [[p3 out] returned]. eexists _, _, _. split; [reflexivity |].
      intros s t Hs _. exact Hs.
    - eexists _, _, _. split; [reflexivity | apply keepsEntries_refl]. }
  destruct Hstep as (p3 & paths & w3 & -> & H13).
  specialize (IH w3). destruct (buildPages h tokenize now w3 ps) as [[ps' paths'] w'].
  simpl in *. eapply keepsEntries_trans; [exact Hb |].
  eapply keepsEntries_trans; eassumption.
Qed.

Lemma attachNew_keeps (paths : list string) :
  forall w, keepsEntries w (attachNew h w paths).
Proof.
  induction paths as [| a paths IH]; intros w; simpl; [apply keepsEntries_refl |].
  destruct (getFileByPath h a) as [file |]; [| apply IH].
  eapply keepsEntries_trans; [| apply IH].
  intros s t Hs _. exact Hs.
Qed.

(** X4. Once a source path has a non-empty target in the source-to-target
    table, nothing in the run changes it: after [Website.build] the entry
    is the same, and [getTargetFilePath] answers from the table (the
    parsed entry, whatever file name is passed) without touching the
    site. *)
Theorem target_entries_are_stable (now : nat) (w : Website) (s t : string) :
  targetOfSource w s = Some t ->
  JS.truthy t = true ->
  let w' := buildWebsite h tokenize now w in
  targetOfSource w' s = Some t
  /\ forall f, getTargetFilePath w' s f false = (mkPath (targetPath w') (parsePath t), w').
Proof.
  intros Hs Ht. cbv zeta.
  assert (Hk : keepsEntries w (buildWebsite h tokenize now w)).
  { unfold buildWebsite.
    pose proof (buildPages_keeps now (webpages w) w) as Hb.
    destruct (buildPages h tokenize now w (webpages w)) as [[ps paths] w1]. simpl in Hb.
    eapply keepsEntries_trans; [exact Hb |].
    eapply keepsEntries_trans; [| intros s' t' Hs' _; exact Hs'].
    eapply keepsEntries_trans; [| apply attachNew_keeps].
    intros s' t' Hs' _. exact Hs'. }
  specialize (Hk s t Hs Ht). split; [exact Hk |].
  intros f. unfold getTargetFilePath. unfold targetOfSource in Hk. rewrite Hk.
  simpl. now rewrite Ht.
Qed.

End RunStability.

Lemma target_entries_are_stable_witness :
  targetOfSource AttachmentFixtures.exported "a.md" = Some "a.html"
  /\ path (fst (getTargetFilePath AttachmentFixtures.exported "a.md" None false)) = "a.html".
Proof.
  destruct (target_entries_are_stable AttachmentFixtures.host AttachmentFixtures.tokenize
              300 AttachmentFixtures.loaded "a.md" "a.html")
    as [Hentry Hget]; [vm_compute; reflexivity | reflexivity |].
  split; [exact Hentry |].
  unfold AttachmentFixtures.exported. now rewrite (Hget None).
Defined.

(** ** Facts about [split] *)

Lemma split_cons (c : ascii) (s : string) :
  exists p rest, JS.split c s = p :: rest.
Proof.
  induction s as [| a s (p & rest & IH)]; simpl; [eauto |].
  destruct (Ascii.eqb a c); [eauto |]. rewrite IH. eauto.
Qed.

(** The first piece holds no separator and is a prefix of the string. *)
Lemma split_hd (c : ascii) (s : string) :
  hasChar c (List.hd "" (JS.split c s)) = false
  /\ exists r, s = (List.hd "" (JS.split c s) ++ r)%string.
Proof.
  induction s as [| a s [IHc (r & IHr)]]; simpl; [split; [reflexivity | now exists ""] |].
  destruct (Ascii.eqb a c) eqn:Hac; simpl.
  - split; [reflexivity | now exists (String a s)].
  - destruct (split_cons c s) as (p & rest & Hs). rewrite Hs in *. simpl in *.
    rewrite Hac, IHc. split; [reflexivity |]. exists r.
    change (String a p ++ r)%string with (String a (p ++ r)%string). now f_equal.
Qed.

(** A string without the separator is its own single piece. *)
Lemma split_absent (c : ascii) (s : string) :
  hasChar c s = false -> JS.split c s = [s].
Proof.
  induction s as [| a s IH]; simpl; [reflexivity |].
  intros Hs. apply orb_false_iff in Hs as [Hac Hs]. rewrite Hac, (IH Hs). reflexivity.
Qed.

Lemma append_assoc (a b c : string) : ((a ++ b) ++ c = a ++ (b ++ c))%string.
Proof.
  induction a as [| x a IH]; [reflexivity |].
  change (String x ((a ++ b) ++ c) = String x (a ++ (b ++ c)))%string. now f_equal.
Qed.

Lemma hasChar_app (c : ascii) (a b : string) :
  hasChar c (a ++ b) = hasChar c a || hasChar c b.
Proof. induction a as [| x a IH]; simpl; [reflexivity |]. now rewrite IH, orb_assoc. Qed.

Lemma startsWith_app (a r p : string) :
  JS.startsWith a p = true -> JS.startsWith (a ++ r) p = true.
Proof.
  unfold JS.startsWith. revert a.
  induction p as [| x p IH]; intros a Ha; [now destruct (a ++ r)%string |].
  destruct a as [| y a]; simpl in *; [discriminate |].
  destruct (ascii_dec x y); [now apply IH | discriminate].
Qed.

(** The looked-up part of a link holds no [#] and starts a link with
    [app://] only if the link starts with it. *)
Lemma linkPath_facts (link : string) :
  hasChar "#" (linkPath link) = false
  /\ (JS.startsWith link "app://" = false -> JS.startsWith (linkPath link) "app://" = false).
Proof.
  unfold linkPath.
  destruct (split_hd "#" link) as [Hh (r1 & Hr1)].
  set (a := List.hd "" (JS.split "#" link)) in *.
  destruct (split_hd "?" a) as [_ (r2 & Hr2)].
  set (b := List.hd "" (JS.split "?" a)) in *.
  split.
  - rewrite Hr2, hasChar_app in Hh. now apply orb_false_iff in Hh as [Hb _].
  - intros Hno. destruct (JS.startsWith b "app://") eqn:Hb; [| reflexivity].
    rewrite Hr1, Hr2, append_assoc in Hno.
    now rewrite (startsWith_app _ _ _ Hb) in Hno.
Qed.

(** ** What holds along every call of [getTargetFilePath] *)

(** The path tables change in [getTargetFilePath] only.  A reflexive and
    transitive relation between sites that this one function respects
    therefore holds between the start and the end of every operation on
    a page, and, when it looks at the tables only, of a whole run. *)
Section MetadataSteps.
Context `{PathLib}.
Variable h : Host.
Variable tokenize : string -> list string.
Variable R : Website -> Website -> Prop.
Hypothesis R_refl : forall w, R w w.
Hypothesis R_trans : forall w1 w2 w3, R w1 w2 -> R w2 w3 -> R w1 w3.
Hypothesis R_step : forall w s f b, R w (snd (getTargetFilePath w s f b)).
(** For the operations that touch the other fields of the site. *)
Hypothesis R_frame : forall w w', metadata w' = metadata w -> R w w'.

Lemma steps_targetsOf (srcs : list string) :
  forall w, R w (snd (targetsOf w srcs)).
Proof.
  induction srcs as [| s srcs IH]; intros w; simpl; [apply R_refl |].
  pose proof (R_step w s None false) as H1.
  destruct (getTargetFilePath w s None false) as [tp w1].
  specialize (IH w1). destruct (targetsOf w1 srcs) as [ts w2]. simpl in *.
  eapply R_trans; eassumption.
Qed.

Lemma steps_resolveLink (w : Website) (p : Webpage) (link : option string) :
  R w (snd (resolveLink h w p link)).
Proof.
  unfold resolveLink. destruct link as [link |]; [| apply R_refl].
  destruct (negb (JS.truthy link)); [apply R_refl |].
  destruct (negb (JS.startsWith link "app://") && matchesScheme link);
    [apply R_refl |].
  destruct (JS.startsWith link "data:"); [apply R_refl |].
  destruct (JS.startsWith link "?"); [apply R_refl |].
  destruct (JS.startsWith link "#"); [apply R_refl |].
  match goal with
  | |- context [getTargetFilePath ?a ?b ?c ?d] =>
      pose proof (R_step a b c d) as Hk;
      destruct (getTargetFilePath a b c d) as [tp w']
  end.
  exact Hk.
Qed.

Lemma steps_remapEls (p : Webpage) (els : list LinkEl) :
  forall w, R w (snd (remapEls h w p els)).
Proof.
  induction els as [| el els IH]; intros w; simpl; [apply R_refl |].
  assert (H1 : R w (snd (remapEl h w p el))).
  { unfold remapEl. pose proof (steps_resolveLink w p (Some (attr el))) as Hr.
    now destruct (resolveLink h w p (Some (attr el))). }
  destruct (remapEl h w p el) as [el' w1].
  specialize (IH w1). destruct (remapEls h w1 p els) as [rest w2]. simpl in *.
  eapply R_trans; eassumption.
Qed.

Lemma steps_fillMetadataAfterRender (w : Website) (p : Webpage) :
  R w (snd (fillMetadataAfterRender h w p)).
Proof.
  unfold fillMetadataAfterRender. destruct (getRenderedHeadings h p) as [hs p1].
  unfold getBacklinks.
  pose proof (steps_targetsOf (getBacklinksForFile h (filePath (source p1))) w) as Hk.
  now destruct (targetsOf w _).
Qed.

Lemma steps_build (w : Website) (p : Webpage) :
  R w (snd (build h w p)).
Proof.
  unfold build. destruct (negb _); [apply R_refl |].
  unfold buildModified. destruct (renderFile h _) as [ri |]; [| apply R_refl].
  match goal with
  | |- context [remapLinks h w ?q ?c] =>
      pose proof (steps_remapEls q (hrefEls c) w) as H4; unfold remapLinks;
      destruct (remapEls h w q (hrefEls c)) as [e4 w4]
  end.
  match goal with
  | |- context [remapEmbedLinks h w4 ?q ?c] =>
      pose proof (steps_remapEls q (srcEls c) w4) as H5; unfold remapEmbedLinks;
      destruct (remapEls h w4 q (srcEls c)) as [e5 w5]
  end.
  match goal with
  | |- context [fillMetadataAfterRender h w5 ?q] =>
      pose proof (steps_fillMetadataAfterRender w5 q) as H6;
      destruct (fillMetadataAfterRender h w5 q) as [p6 w6]
  end.
  simpl in *. eapply R_trans; [| exact H6].
  eapply R_trans; eassumption.
Qed.

Lemma steps_buildPages (now : nat) (ps : list Webpage) :
  forall w, R w (snd (buildPages h tokenize now w ps)).
Proof.
  induction ps as [| p ps IH]; intros w; simpl; [apply R_refl |].
  pose proof (steps_build w p) as Hb.
  destruct (build h w p) as [[o p1] w1]. simpl in Hb.
  assert (Hstep : exists p3 paths w3,
             match addWebpageToMinisearch h tokenize (minisearch w1) p1 with
             | Some (ms, p2) =>
                 let '(p3, out, returned) := save now p2 in
                 (p3, if returned then attachmentSourcePaths p3 else [],
                  addWritten (setMinisearch w1 ms) out)
             | None => (p1, [], w1)
             end = (p3, paths, w3) /\ R w1 w3).
  { destruct (addWebpageToMinisearch h tokenize (minisearch w1) p1) as [[ms p2] |].
    - destruct (save now p2) as [[p3 out] returned]. eexists _, _, _. split; [reflexivity |].
      now apply R_frame.
    - eexists _, _, _. split; [reflexivity | apply R_refl]. }
  destruct Hstep as (p3 & paths & w3 & -> & H13).
  specialize (IH w3). destruct (buildPages h tokenize now w3 ps) as [[ps' paths'] w'].
  simpl in *. eapply R_trans; [exact Hb |].
  eapply R_trans; eassumption.
Qed.

Lemma steps_createAttachment (w : Website) (f : TFile) :
  R w (snd (createAttachment w f)).
Proof.
  unfold createAttachment. pose proof (R_step w (filePath f) None true) as Hk.
  now destruct (getTargetFilePath w (filePath f) None true).
Qed.

Lemma steps_attachNew (paths : list string) :
  forall w, R w (attachNew h w paths).
Proof.
  induction paths as [| a paths IH]; intros w; cbn [attachNew]; [apply R_refl |].
  destruct (getFileByPath h a) as [file |]; [| apply IH].
  pose proof (steps_createAttachment w file) as Hc.
  destruct (createAttachment w file) as [att w1]. simpl in Hc.
  eapply R_trans; [exact Hc |].
  eapply R_trans; [| apply IH]. now apply R_frame.
Qed.

Lemma steps_buildWebsite (now : nat) (w : Website) :
  R w (buildWebsite h tokenize now w).
Proof.
  unfold buildWebsite.
  pose proof (steps_buildPages now (webpages w) w) as Hb.
  destruct (buildPages h tokenize now w (webpages w)) as [[ps paths] w1]. simpl in Hb.
  eapply R_trans; [exact Hb |].
  eapply R_trans; [apply (R_frame w1 (setWebpages w1 ps)); reflexivity |].
  eapply R_trans; [apply steps_attachNew |]. now apply R_frame.
Qed.

Lemma steps_loadWebpages (fs : list TFile) :
  forall w, R w (snd (loadWebpages h w fs)).
Proof.
  induction fs as [| f fs IH]; intros w; simpl; [apply R_refl |].
  unfold newWebpage.
  pose proof (R_step w (filePath f) None false) as H1.
  destruct (getTargetFilePath w (filePath f) None false) as [tp w1].
  specialize (IH w1). destruct (loadWebpages h w1 fs) as [ps w2]. simpl in *.
  eapply R_trans; eassumption.
Qed.

Lemma steps_createAttachments (fs : list TFile) :
  forall w, R w (snd (createAttachments w fs)).
Proof.
  induction fs as [| f fs IH]; intros w; cbn [createAttachments]; [apply R_refl |].
  pose proof (steps_createAttachment w f) as H1.
  destruct (createAttachment w f) as [a w1].
  specialize (IH w1). destruct (createAttachments w1 fs) as [l w2]. simpl in *.
  eapply R_trans; eassumption.
Qed.

Lemma steps_initWebpages (w : Website) : R w (initWebpages h w).
Proof.
  unfold initWebpages.
  pose proof (steps_loadWebpages (files w) w) as H1.
  destruct (loadWebpages h w (files w)) as [ps w1]. simpl in H1.
  pose proof (steps_createAttachments (List.filter (isAttachmentFile h) (files w)) w1) as H2.
  destruct (createAttachments w1 _) as [atts w2]. simpl in H2.
  eapply R_trans; [exact H1 |]. eapply R_trans; [exact H2 |]. now apply R_frame.
Qed.

Lemma steps_registerFiles (srcs : list string) :
  forall w, R w (fold_left registerFile srcs w).
Proof.
  induction srcs as [| s srcs IH]; intros w; simpl; [apply R_refl |].
  eapply R_trans; [| apply IH]. apply R_step.
Qed.

End MetadataSteps.

(** ** The tables after loading and building *)

Section KnownFiles.
Context `{PathLib}.
Variable h : Host.
Variable tokenize : string -> list string.

Lemma tablesStep_frame (w w' : Website) : metadata w' = metadata w -> tablesStep w w'.
Proof.
  intros Hm. unfold tablesStep, tablesLinked, keepsSources, targetOfSource.
  rewrite Hm. auto.
Qed.

Lemma tablesStep_refl (w : Website) : tablesStep w w.
Proof. now apply tablesStep_frame. Qed.

Lemma tablesStep_trans (w1 w2 w3 : Website) :
  tablesStep w1 w2 -> tablesStep w2 w3 -> tablesStep w1 w3.
Proof.
  intros [Ha Hb] [Hc Hd]. split; [auto |]. intros s Hs. apply Hd. now apply Hb.
Qed.

Lemma getTargetFilePath_tablesStep (w : Website) (s : string) (f : option string) (b : bool) :
  tablesStep w (snd (getTargetFilePath w s f b)).
Proof.
  unfold getTargetFilePath.
  destruct (JS.truthyOpt (if b then None else sourceToTarget (metadata w) !! s));
    [now apply tablesStep_frame |].
  cbn [snd]. set (t := computeTarget (options w) s f).
  split.
  - intros Hl s0 t0. unfold targetOfSource. cbn [metadata setMetadata sourceToTarget
      targetToSource allFiles]. intros Hs0.
    assert (Hcase : t0 = t \/ targetOfSource w s0 = Some t0).
    { destruct b; [now right |].
      destruct (decide (s = s0)) as [-> | Hne].
      - rewrite lookup_insert_eq in Hs0. left. congruence.
      - rewrite lookup_insert_ne in Hs0 by assumption. now right. }
    destruct Hcase as [-> | Hold].
    + split; [rewrite lookup_insert_eq; eauto | apply in_or_app; right; now left].
    + destruct (Hl s0 t0 Hold) as [Hk Hin].
      split; [| apply in_or_app; now left].
      destruct (decide (t = t0)) as [-> | Hne].
      * rewrite lookup_insert_eq. eauto.
      * now rewrite lookup_insert_ne.
  - intros s0 Hs0. cbn [metadata setMetadata sourceToTarget]. destruct b; [exact Hs0 |].
    destruct (decide (s = s0)) as [-> | Hne].
    + rewrite lookup_insert_eq. eauto.
    + now rewrite lookup_insert_ne.
Qed.

(** X5. After [Website.load], and still after [Website.build], the two
    path tables fit together: every target of the source-to-target table
    is a key of the target-to-source table and an element of [allFiles];
    and every file of the export is known to [hasFile], by its source
    path and by the target the table gives it. *)
Theorem exported_files_are_known (now : nat) (w : Website) (f : TFile) :
  In f (files w) ->
  forall w', w' = loadWebsite h w \/ w' = buildWebsite h tokenize now (loadWebsite h w) ->
    tablesLinked w'
    /\ hasFile w' (filePath f) = true
    /\ exists t, targetOfSource w' (filePath f) = Some t
         /\ hasFile w' t = true /\ In t (allFiles (metadata w')).
Proof.
  intros Hf w' Hw'.
  set (w0 := initTables w (List.map filePath (files w))).
  assert (H0 : tablesLinked w0 /\ is_Some (sourceToTarget (metadata w0) !! filePath f)).
  { split.
    - unfold w0, initTables.
      refine (proj1 (steps_registerFiles tablesStep tablesStep_refl tablesStep_trans
                       getTargetFilePath_tablesStep _ _) _).
      intros s t. unfold targetOfSource. simpl. now rewrite lookup_empty.
    - pose proof (initTables_lookup w (List.map filePath (files w)) (filePath f)
                    (in_map filePath _ _ Hf)) as Hl.
      unfold targetOfSource in Hl. fold w0 in Hl. rewrite Hl. eauto. }
  assert (H1 : tablesStep w0 (loadWebsite h w)).
  { unfold loadWebsite. fold w0.
    eapply tablesStep_trans;
      [apply (tablesStep_frame w0 (setMinisearch w0 (Some (default [] (minisearch w)))));
       reflexivity |].
    apply (steps_initWebpages h tablesStep tablesStep_refl tablesStep_trans
             getTargetFilePath_tablesStep tablesStep_frame). }
  assert (H2 : tablesStep w0 w').
  { destruct Hw' as [-> | ->]; [exact H1 |].
    eapply tablesStep_trans; [exact H1 |].
    apply (steps_buildWebsite h tokenize tablesStep tablesStep_refl tablesStep_trans
             getTargetFilePath_tablesStep tablesStep_frame). }
  destruct H0 as [Hl0 Hs0]. destruct H2 as [Hl Hk].
  specialize (Hl Hl0). specialize (Hk _ Hs0).
  split; [exact Hl |].
  assert (Hsrc : hasFile w' (filePath f) = true).
  { unfold hasFile. rewrite (bool_decide_eq_true_2 _ Hk). apply orb_true_r. }
  split; [exact Hsrc |].
  destruct Hk as [t Ht]. exists t.
  destruct (Hl (filePath f) t Ht) as [Hkey Hin].
  split; [exact Ht |]. split; [| exact Hin].
  unfold hasFile. now rewrite (bool_decide_eq_true_2 _ Hkey).
Qed.

End KnownFiles.

Lemma exported_files_are_known_witness :
  hasFile AttachmentFixtures.exported "a.md" = true.
Proof.
  exact (proj1 (proj2 (exported_files_are_known AttachmentFixtures.host
           AttachmentFixtures.tokenize 300
           (Fixtures.site Fixtures.plainOptions [Fixtures.mdFile "" "a"; Fixtures.mdFile "" "b"])
           (Fixtures.mdFile "" "a") (or_introl eq_refl)
           AttachmentFixtures.exported (or_intror eq_refl)))).
Defined.

(** ** Links to exported files *)

Section ExportedLinks.
Context `{PathLib}.
Variable h : Host.

(** A vault path without [#] that is no [app://] URL is looked up as it
    is. *)
Lemma getFilePathFromSrc_plain (src exporting : string) :
  JS.startsWith src "app://" = false -> hasChar "#" src = false ->
  getFilePathFromSrc h src exporting = default "" (getFirstLinkpathDest h src exporting).
Proof.
  intros Happ Hhash. unfold getFilePathFromSrc.
  rewrite Happ, (split_absent _ _ Hhash). reflexivity.
Qed.

(** X6. A link to a file of the export (the host resolves the part
    before [#] and [?] to a source path with a non-empty entry in the
    table) is rewritten to the entry's target followed by the link's
    anchor, which is turned into a heading id when the target is an html
    page; the query string is dropped and the site is left as it is. *)
Theorem link_to_exported_file (w : Website) (p : Webpage) (link s t : string) :
  isPathBearing link = true ->
  JS.startsWith link "app://" = false ->
  getFirstLinkpathDest h (linkPath link) (filePath (source p)) = Some s ->
  targetOfSource w (pathnameOf (parsePath s)) = Some t ->
  JS.truthy t = true ->
  resolveLink h w p (Some link)
  = (Some (parsePath t
           ++ (if String.eqb (extensionNameOf (parsePath t)) "html"
               then headingTextToID (Some (linkHash link)) else linkHash link))%string,
     w).
Proof.
  intros Hpb Happ Hdest Hs Ht.
  unfold isPathBearing, isPassThrough, isExternalURL in Hpb.
  apply andb_prop in Hpb as [Hpb Hh]. apply andb_prop in Hpb as [Htr Hpt].
  apply negb_true_iff in Hpt, Hh.
  apply orb_false_iff in Hpt as [Hpt Hq]. apply orb_false_iff in Hpt as [He Hd].
  destruct (linkPath_facts link) as [Hnohash Hnoapp]. specialize (Hnoapp Happ).
  unfold resolveLink. rewrite Htr, He, Hd, Hq, Hh. simpl negb. cbv iota.
  fold (linkPath link).
  rewrite (getFilePathFromSrc_plain _ _ Hnoapp Hnohash), Hdest.
  change (default "" (Some s)) with s.
  unfold getTargetFilePath. unfold targetOfSource in Hs. rewrite Hs.
  cbn [JS.truthyOpt default]. rewrite Ht. cbn [path]. reflexivity.
Qed.

End ExportedLinks.

Lemma link_to_exported_file_witness :
  resolveLink BacklinkFixtures.linking BacklinkFixtures.w1 BacklinkFixtures.pageA
    (Some "b.md?x=1#My Sec: 2")
  = (Some "b.html#My_Sec_2", BacklinkFixtures.w1).
Proof.
  exact (link_to_exported_file BacklinkFixtures.linking BacklinkFixtures.w1
           BacklinkFixtures.pageA "b.md?x=1#My Sec: 2" "b.md" "b.html"
           eq_refl eq_refl eq_refl eq_refl eq_refl).
Defined.

(** ** What a run writes and indexes *)

Section PageFrames.
Context `{PathLib}.
Variable h : Host.

Lemma sameIdentity_refl (p : Webpage) : sameIdentity p p.
Proof. same_page. Qed.

Lemma sameIdentity_trans (p1 p2 p3 : Webpage) :
  sameIdentity p1 p2 -> sameIdentity p2 p3 -> sameIdentity p1 p3.
Proof. unfold sameIdentity. intros (-> & -> & -> & ->) (-> & -> & -> & ->). auto. Qed.

Lemma getRenderedHeadings_identity (p : Webpage) :
  sameIdentity p (snd (getRenderedHeadings h p))
  /\ attachmentSourcePaths (snd (getRenderedHeadings h p)) = attachmentSourcePaths p.
Proof.
  unfold getRenderedHeadings. destruct (headingsCache p); unfold sameIdentity; simpl; auto.
Qed.

Lemma fillMetadataAfterRender_identity (w : Website) (p : Webpage) :
  sameIdentity p (fst (fillMetadataAfterRender h w p)).
Proof.
  unfold fillMetadataAfterRender.
  pose proof (getRenderedHeadings_identity p) as [Hi _].
  destruct (getRenderedHeadings h p) as [hs p1].
  destruct (getBacklinks h w p1) as [bs w']. exact Hi.
Qed.

Lemma takeHeader_identity (p : Webpage) (d : PageDocument) (fh : HeadingEl)
    (used replaced : LogEntry) :
  sameIdentity p (takeHeader p d fh used replaced).
Proof. unfold takeHeader. destruct (isDefault (titleInfo p)); same_page. Qed.

Lemma addTitle_identity (p : Webpage) : sameIdentity p (addTitle p).
Proof.
  unfold addTitle.
  destruct (content p) as [c |]; [| apply sameIdentity_refl].
  destruct (pageDocument p) as [d |]; [| apply sameIdentity_refl].
  destruct (negb _); [apply sameIdentity_refl |].
  cbv zeta.
  match goal with
  | |- sameIdentity _ (withContent ?q _) =>
      assert (Hq : sameIdentity p q); [| exact Hq]
  end.
  destruct (firstHeader d) as [fh |]; [| apply sameIdentity_refl].
  destruct (_ || _); [apply takeHeader_identity |].
  destruct (_ && _); [| apply sameIdentity_refl].
  destruct (_ && _); [apply takeHeader_identity | apply sameIdentity_refl].
Qed.

Lemma buildModified_identity (w : Website) (p0 : Webpage) :
  let p' := snd (fst (buildModified h w p0)) in
  pagePaths p' = pagePaths p0 /\ isModified p' = isModified p0
  /\ isLoaded p' = isLoaded p0
  /\ hasTemplate p' = hasTemplate p0 || bool_decide (is_Some (renderFile h (source p0))).
Proof.
  cbv zeta. unfold buildModified.
  destruct (renderFile h _) as [ri |];
    [| cbn [fst snd]; rewrite bool_decide_eq_false_2 by (now intros [x Hx]);
       rewrite orb_false_r; repeat split; reflexivity].
  rewrite bool_decide_eq_true_2 by eauto. rewrite orb_true_r.
  destruct (remapLinks h w _ _) as [c4 w4].
  destruct (remapEmbedLinks h w4 _ c4) as [c5 w5].
  match goal with
  | |- context [fillMetadataAfterRender h w5 ?q] =>
      pose proof (fillMetadataAfterRender_identity w5 q) as H6;
      destruct (fillMetadataAfterRender h w5 q) as [p6 w6]
  end.
  cbn [fst snd] in *. destruct H6 as (Hp & Hm & Hl & _).
  set (p7 := withTemplate (appendLayout h p6) _).
  assert (H7 : pagePaths p7 = pagePaths p0 /\ isModified p7 = isModified p0
               /\ isLoaded p7 = isLoaded p0 /\ hasTemplate p7 = true).
  { repeat split; assumption. }
  destruct (optAddTitle (options w)); [| exact H7].
  destruct (addTitle_identity p7) as (-> & -> & -> & ->). exact H7.
Qed.

(** The page [build] returns is the page it was given, loaded, and
    marked modified exactly when [build] went past its guard; it holds a
    template when it held one or was rendered. *)
Lemma build_identity (w : Website) (p : Webpage) :
  let p' := snd (fst (build h w p)) in
  pagePaths p' = pagePaths p /\ isModified p' = willBuild p /\ isLoaded p' = true
  /\ hasTemplate p' = getsTemplate h p.
Proof.
  cbv zeta. unfold build, getsTemplate, willBuild. destruct (isLoaded p) eqn:Hl.
  - destruct (isModified p) eqn:Hm; simpl negb; cbv iota.
    + destruct (buildModified_identity w p) as (Hp & Hmod & Hld & Ht).
      rewrite Hp, Hmod, Hld, Ht, Hm, Hl. auto.
    + cbn [fst snd]. rewrite Hm, Hl. cbn. rewrite orb_false_r. auto.
  - change (isModified (load h (options w) p)) with true. simpl negb. cbv iota.
    destruct (buildModified_identity w (load h (options w) p)) as (Hp & Hmod & Hld & Ht).
    rewrite Hp, Hmod, Hld, Ht. auto.
Qed.

(** The container of a page is kept by [addTitle], which only prepends
    the title element to it: the links, headings and text of the
    rendered note stay in [this.content]. *)
Lemma addTitle_content (p : Webpage) :
  match content p with
  | None => content (addTitle p) = None
  | Some c =>
      exists c', content (addTitle p) = Some c'
        /\ hrefEls c' = hrefEls c /\ srcEls c' = srcEls c
        /\ headingEls c' = headingEls c /\ textNodes c' = textNodes c
  end.
Proof.
  unfold addTitle. destruct (content p) as [c |] eqn:Hc; [| now rewrite Hc].
  destruct (pageDocument p) as [d |]; [| exists c; rewrite Hc; auto].
  destruct (negb _); [exists c; rewrite Hc; auto |].
  eexists. split; [reflexivity |]. auto.
Qed.

Lemma buildModified_content (w : Website) (p0 : Webpage) :
  is_Some (content (snd (fst (buildModified h w p0)))).
Proof.
  unfold buildModified.
  destruct (renderFile h _) as [ri |]; [| cbn; eauto].
  destruct (remapLinks h w _ _) as [c4 w4].
  destruct (remapEmbedLinks h w4 _ c4) as [c5 w5].
  match goal with
  | |- context [fillMetadataAfterRender h ?w ?q] =>
      pose proof (fillMetadataAfterRender_frame h w q) as (Hc & _);
      destruct (fillMetadataAfterRender h w q) as [p6 w6]
  end.
  cbn [fst snd] in *.
  assert (H7 : forall hd, is_Some (content (withTemplate (appendLayout h p6) hd))).
  { intros hd. change (is_Some (content p6)). rewrite Hc. cbn. eauto. }
  destruct (optAddTitle (options w)); [| apply H7].
  match goal with
  | |- is_Some (content (addTitle ?q)) =>
      pose proof (addTitle_content q) as Ha; destruct (H7 (if addHeadTag (options w) then Some (title (pageMeta p6)) else None)) as [c Hq];
      rewrite Hq in Ha; destruct Ha as (c' & -> & _); eauto
  end.
Qed.

Lemma build_content (w : Website) (p : Webpage) :
  willBuild p = true -> is_Some (content (snd (fst (build h w p)))).
Proof.
  unfold build, willBuild. destruct (isLoaded p) eqn:Hl.
  - cbn. intros ->. simpl negb. cbv iota. apply buildModified_content.
  - intros _. change (isModified (load h (options w) p)) with true. simpl negb. cbv iota.
    apply buildModified_content.
Qed.

Lemma buildModified_headings (w : Website) (p0 : Webpage) (ri : RenderInfo) :
  renderFile h (source p0) = Some ri ->
  exists c, content (snd (fst (buildModified h w p0))) = Some c
    /\ headingEls c = List.map remapHeadingId (headingEls (container ri)).
Proof.
  intros Hr. unfold buildModified. rewrite Hr.
  match goal with
  | |- context [remapLinks h w ?q (container ri)] =>
      assert (H4 : headingEls (fst (remapLinks h w q (container ri)))
                   = List.map remapHeadingId (headingEls (container ri)))
        by (unfold remapLinks; destruct (remapEls h w q _); reflexivity);
      destruct (remapLinks h w q (container ri)) as [c4 w4]
  end.
  match goal with
  | |- context [remapEmbedLinks h w4 ?q c4] =>
      assert (H5 : headingEls (fst (remapEmbedLinks h w4 q c4)) = headingEls c4)
        by (unfold remapEmbedLinks; destruct (remapEls h w4 q _); reflexivity);
      destruct (remapEmbedLinks h w4 q c4) as [c5 w5]
  end.
  cbn [fst] in H4, H5.
  match goal with
  | |- context [fillMetadataAfterRender h ?w ?q] =>
      pose proof (fillMetadataAfterRender_frame h w q) as (Hc & _);
      destruct (fillMetadataAfterRender h w q) as [p6 w6]
  end.
  cbn [fst snd] in *.
  set (p7 := withTemplate (appendLayout h p6) _).
  assert (H7 : content p7 = Some c5) by exact Hc.
  destruct (optAddTitle (options w)).
  - pose proof (addTitle_content p7) as Ha. rewrite H7 in Ha.
    destruct Ha as (c' & -> & _ & _ & Hh & _). exists c'. split; [reflexivity |].
    now rewrite Hh, H5.
  - exists c5. split; [exact H7 | now rewrite H5].
Qed.

(** X24. The heading elements of the rendered note stay in the content
    of the page.  [addTitle] looks the first heading up in the page
    document and removes it there; [this.content] names the container
    the renderer filled, which line 184 took out of that document, so
    for every page that is rendered the container [save] writes (the
    second of its three files, [this.content.outerHTML]) still holds
    every heading element of the rendering, the promoted one included,
    each with the id [remapLinks] gave it. *)
Theorem rendered_headings_stay_in_content
    (now : nat) (w : Website) (p : Webpage) (ri : RenderInfo) :
  renderFile h (source p) = Some ri ->
  willBuild p = true ->
  let p1 := snd (fst (build h w p)) in
  (exists c, content p1 = Some c
     /\ headingEls c = List.map remapHeadingId (headingEls (container ri)))
  /\ save now p1
     = (withPageMeta p1 (withModifiedTime (pageMeta p1) now), artefacts p, true).
Proof.
  intros Hr Hwb. cbv zeta.
  pose proof (build_identity w p) as (Hp1 & Hm1 & _ & Ht1). cbv zeta in Hp1, Hm1, Ht1.
  assert (Hc : exists c, content (snd (fst (build h w p))) = Some c
                 /\ headingEls c = List.map remapHeadingId (headingEls (container ri))).
  { unfold build. unfold willBuild in Hwb. destruct (isLoaded p) eqn:Hl.
    - cbn in Hwb. rewrite Hwb. simpl negb. cbv iota. now apply buildModified_headings.
    - change (isModified (load h (options w) p)) with true. simpl negb. cbv iota.
      now apply (buildModified_headings w (load h (options w) p) ri). }
  split; [exact Hc |].
  destruct Hc as (c & Hc & _).
  unfold save. rewrite Hm1, Hwb, Hc, Ht1. simpl negb. cbv iota zeta.
  unfold getsTemplate. rewrite Hwb, Hr, bool_decide_eq_true_2 by eauto.
  rewrite orb_true_r. unfold artefacts.
  injection Hp1 as _ -> -> ->. reflexivity.
Qed.

Lemma onlyMetadata_refl (w : Website) : onlyMetadata w w.
Proof. unfold onlyMetadata. now destruct w. Qed.

Lemma onlyMetadata_trans (w1 w2 w3 : Website) :
  onlyMetadata w1 w2 -> onlyMetadata w2 w3 -> onlyMetadata w1 w3.
Proof. unfold onlyMetadata. intros H12 H23. rewrite H23, H12. reflexivity. Qed.

Lemma getTargetFilePath_onlyMetadata (w : Website) (s : string) (f : option string) (b : bool) :
  onlyMetadata w (snd (getTargetFilePath w s f b)).
Proof.
  unfold getTargetFilePath. destruct (JS.truthyOpt _); [apply onlyMetadata_refl |].
  reflexivity.
Qed.

(** [build] leaves the pages, the attachments, the index and the files
    written as they are. *)
Lemma build_onlyMetadata (w : Website) (p : Webpage) :
  onlyMetadata w (snd (build h w p)).
Proof.
  apply (steps_build h onlyMetadata onlyMetadata_refl onlyMetadata_trans
           getTargetFilePath_onlyMetadata).
Qed.

End PageFrames.

Lemma rendered_headings_stay_in_content_witness :
  let p1 := TitleFixtures.built TitleFixtures.host Fixtures.plainOptions in
  title (pageMeta p1) = "Introduction"
  /\ (docHeadingEls <$> pageDocument p1) = Some []
  /\ (exists c, content p1 = Some c
        /\ List.map textContent (headingEls c) = ["Introduction"])
  /\ snd (fst (save 300 p1))
     = [WMetadata "introduction.json"; WContent "introduction-content.html";
        WTemplate "introduction.html"].
Proof.
  cbv zeta. split; [vm_compute; reflexivity |]. split; [vm_compute; reflexivity |].
  destruct (rendered_headings_stay_in_content TitleFixtures.host 300
              (TitleFixtures.w0 Fixtures.plainOptions)
              (TitleFixtures.page Fixtures.plainOptions)
              (Fixtures.rendered [] [] [Fixtures.h1 "Introduction"])
              eq_refl eq_refl)
    as ((c & Hc & Hh) & Hs).
  split.
  - exists c. split; [exact Hc |]. rewrite Hh. vm_compute. reflexivity.
  - unfold TitleFixtures.built. rewrite Hs. vm_compute. reflexivity.
Defined.

Section RunOutput.
Context `{PathLib}.
Variable h : Host.
Variable tokenize : string -> list string.

(** Indexing a page never fails: what the index holds under the page's
    path is discarded before the page is added. *)
Lemma addWebpageToMinisearch_spec (ms : option (list SearchDoc)) (p : Webpage) :
  exists ms' p',
    addWebpageToMinisearch h tokenize ms p = Some (ms', p')
    /\ sameIdentity p p'
    /\ match ms with
       | None => ms' = None
       | Some docs =>
           exists docs', ms' = Some docs'
             /\ countId (templatePath p) docs' = 1
             /\ forall k, k <> templatePath p -> countId k docs' = countId k docs
       end.
Proof.
  destruct ms as [docs |];
    [| exists None, p; split; [reflexivity | split; [apply sameIdentity_refl | reflexivity]]].
  unfold addWebpageToMinisearch.
  set (k := templatePath p).
  set (docs1 := if msHas docs k then msDiscard docs k else docs).
  assert (Hno : msHas docs1 k = false).
  { subst docs1. destruct (msHas docs k) eqn:Hh; [| exact Hh].
    apply msHas_countId. rewrite countId_discard. now rewrite String.eqb_refl. }
  assert (Hother : forall k', k' <> k -> countId k' docs1 = countId k' docs).
  { intros k' Hne. subst docs1. destruct (msHas docs k); [| reflexivity].
    rewrite countId_discard. destruct (String.eqb k' k) eqn:Hk; [| reflexivity].
    apply String.eqb_eq in Hk. contradiction. }
  pose proof (getRenderedHeadings_identity h p) as [Hi _].
  destruct (getRenderedHeadings h p) as [headersInfo p1]. cbn [snd] in Hi. cbv zeta.
  match goal with
  | |- context [msAdd docs1 ?d] => set (doc := d)
  end.
  assert (Hadd : msAdd docs1 doc = Some (docs1 ++ [doc])).
  { unfold msAdd. change (docId doc) with k. now rewrite Hno. }
  rewrite Hadd. eexists _, _. split; [reflexivity |]. split.
  - destruct headersInfo as [| d rest]; [exact Hi |].
    destruct (_ && _); exact Hi.
  - exists (docs1 ++ [doc]). split; [reflexivity |]. split.
    + rewrite countId_app. apply msHas_countId in Hno. rewrite Hno.
      unfold countId. simpl. now rewrite String.eqb_refl.
    + intros k' Hne. rewrite countId_app, (Hother _ Hne).
      unfold countId at 2. simpl.
      destruct (String.eqb k k') eqn:Hk; [| simpl; lia].
      apply String.eqb_eq in Hk. congruence.
Qed.

Lemma addWebpageToMinisearch_content (ms ms' : option (list SearchDoc)) (p p2 : Webpage) :
  addWebpageToMinisearch h tokenize ms p = Some (ms', p2) -> content p2 = content p.
Proof.
  unfold addWebpageToMinisearch. destruct ms as [docs |]; [| now intros [= _ <-]].
  unfold getRenderedHeadings.
  destruct (headingsCache p) as [| d rest]; cbv zeta.
  - destruct (List.map _ (getHeadings (content p))) as [| d rest].
    + destruct (msAdd _ _); [| discriminate]. now intros [= _ <-].
    + destruct (_ && _); (destruct (msAdd _ _); [| discriminate]); now intros [= _ <-].
  - destruct (_ && _); (destruct (msAdd _ _); [| discriminate]); now intros [= _ <-].
Qed.

(** X7. The first loop of [Website.build] never loses a page.  When
    every page that is built (not loaded before, or marked modified)
    holds a template afterwards (it held one, or the renderer returns a
    result for it), the pages come back in order with their source and
    paths, loaded and without their document, the saved ones with a
    template; for every page that is built the metadata, content and
    template files are written, in this order, and nothing else; the
    attachments are left alone; and every page, built or skipped, ends
    with exactly one document under its path in the search index, the
    documents of other paths staying as they were. *)
Theorem run_saves_and_indexes_pages (now : nat) (ps : list Webpage) (w : Website) :
  Forall (fun p => willBuild p = true -> getsTemplate h p = true) ps ->
  let '(ps', _, w') := buildPages h tokenize now w ps in
  List.map pagePaths ps' = List.map pagePaths ps
  /\ Forall (fun p' => isLoaded p' = true /\ pageDocument p' = None
                      /\ (isModified p' = true -> hasTemplate p' = true)) ps'
  /\ written w' = written w ++ flat_map artefacts (List.filter willBuild ps)
  /\ siteAttachments w' = siteAttachments w
  /\ match minisearch w with
     | None => minisearch w' = None
     | Some docs =>
         exists docs', minisearch w' = Some docs'
           /\ (forall p, In p ps -> countId (templatePath p) docs' = 1)
           /\ (forall k, ~ In k (List.map templatePath ps) ->
                 countId k docs' = countId k docs)
     end.
Proof.
  intros Hok. revert w. induction ps as [| p ps IH]; intros w.
  - cbn [buildPages List.map List.filter flat_map]. rewrite app_nil_r.
    split; [reflexivity |]. split; [constructor |].
    split; [reflexivity |]. split; [reflexivity |].
    destruct (minisearch w) as [docs |]; [| reflexivity].
    exists docs. split; [reflexivity |]. split; [intros p [] | reflexivity].
  - apply Forall_cons_iff in Hok as [Hokp Hok]. specialize (IH Hok).
    cbn [buildPages].
    pose proof (build_identity h w p) as (Hp1 & Hm1 & Hl1 & Ht1).
    pose proof (build_onlyMetadata h w p) as Hw1.
    destruct (build h w p) as [[o p1] w1] eqn:Hadd0. cbn [fst snd] in Hp1, Hm1, Hl1, Ht1, Hw1.
    destruct (addWebpageToMinisearch_spec (minisearch w1) p1)
      as (ms' & p2 & Hadd & (Hp2 & Hm2 & Hl2 & Ht2) & Hms).
    rewrite Hadd.
    pose proof (build_content h w p) as Hc1.
    rewrite Hadd0 in Hc1. cbn [fst snd] in Hc1.
    pose proof (addWebpageToMinisearch_content _ _ _ _ Hadd) as Hc2.
    assert (Hsave : exists p3,
              save now p2 = (p3, if willBuild p then artefacts p else [], true)
              /\ pagePaths p3 = pagePaths p /\ isLoaded p3 = true
              /\ (isModified p3 = true -> hasTemplate p3 = true)).
    { unfold save. rewrite Hm2, Hm1. destruct (willBuild p) eqn:Hwb; simpl negb; cbv iota.
      - destruct (Hc1 eq_refl) as [c Hc]. rewrite Hc2, Hc. cbv zeta.
        rewrite Ht2, Ht1, (Hokp eq_refl).
        eexists. split; [| split; [| split]].
        + f_equal. unfold artefacts.
          injection Hp2 as _ -> -> ->. injection Hp1 as _ -> -> ->. reflexivity.
        + change (pagePaths p2 = pagePaths p). congruence.
        + change (isLoaded p2 = true). congruence.
        + intros _. change (hasTemplate p2 = true). rewrite Ht2, Ht1. now apply Hokp.
      - exists p2. split; [reflexivity |]. split; [congruence |]. split; [congruence |].
        intros Hmod. congruence. }
    destruct Hsave as (p3 & -> & Hp3 & Hl3 & Ht3).
    set (out := if willBuild p then artefacts p else []).
    set (w3 := addWritten (setMinisearch w1 ms') out).
    specialize (IH w3).
    destruct (buildPages h tokenize now w3 ps) as [[ps' paths'] w'].
    destruct IH as (IHp & IHf & IHw & IHa & IHm).
    assert (Hwr : written w1 = written w) by (rewrite Hw1; reflexivity).
    assert (Hat : siteAttachments w1 = siteAttachments w) by (rewrite Hw1; reflexivity).
    assert (Hmi : minisearch w1 = minisearch w) by (rewrite Hw1; reflexivity).
    split; [| split; [| split; [| split]]].
    + cbn [List.map]. f_equal; [exact Hp3 | exact IHp].
    + constructor; [split; [exact Hl3 | split; [reflexivity | exact Ht3]] | exact IHf].
    + rewrite IHw. subst w3. cbn [written addWritten setMinisearch].
      rewrite Hwr, <- app_assoc.
      f_equal. cbn [List.filter]. subst out.
      destruct (willBuild p); reflexivity.
    + rewrite IHa. subst w3. exact Hat.
    + subst w3. cbn [minisearch addWritten setMinisearch] in IHm.
      rewrite Hmi in Hms.
      destruct (minisearch w) as [docs |].
      * destruct Hms as (docs1 & -> & Hone & Hoth).
        destruct IHm as (docs' & Hd' & Hall & Hrest).
        assert (Htp : templatePath p1 = templatePath p) by (injection Hp1; auto).
        rewrite Htp in Hone, Hoth.
        exists docs'. split; [exact Hd' |]. split.
        -- intros q [<- | Hq]; [| now apply Hall].
           destruct (in_dec string_dec (templatePath p) (List.map templatePath ps))
             as [Hin | Hnin].
           ++ apply in_map_iff in Hin as (q & Hq & Hqin).
              rewrite <- Hq. now apply Hall.
           ++ now rewrite (Hrest _ Hnin).
        -- intros k Hk. cbn [List.map] in Hk.
           rewrite Hrest by (intros Hin; apply Hk; now right).
           apply Hoth. intros ->. apply Hk. now left.
      * subst ms'. exact IHm.
Qed.

End RunOutput.

Lemma run_saves_and_indexes_pages_witness :
  let w := AttachmentFixtures.loaded in
  written (snd (buildPages AttachmentFixtures.host AttachmentFixtures.tokenize 300 w
                  (webpages w)))
  = written w ++ flat_map artefacts (List.filter willBuild (webpages w)).
Proof.
  cbv zeta.
  assert (Hok : Forall (fun p => willBuild p = true
                          -> getsTemplate AttachmentFixtures.host p = true)
                  (webpages AttachmentFixtures.loaded)).
  { apply List.Forall_forall. intros p Hp. vm_compute in Hp.
    destruct Hp as [<- | [<- | []]]; intros _; vm_compute; reflexivity. }
  pose proof (run_saves_and_indexes_pages AttachmentFixtures.host
                AttachmentFixtures.tokenize 300 (webpages AttachmentFixtures.loaded)
                AttachmentFixtures.loaded Hok) as Hrun.
  destruct (buildPages _ _ _ _ _) as [[ps' paths] w'].
  exact (proj1 (proj2 (proj2 Hrun))).
Defined.

(** ** What [Website.load] creates *)

Section LoadedSite.
Context `{PathLib}.
Variable h : Host.

Lemma loadWebpages_spec (fs : list TFile) :
  forall w,
    List.map source (fst (loadWebpages h w fs)) = fs
    /\ Forall (fun p => isLoaded p = true /\ isModified p = true /\ content p = None)
         (fst (loadWebpages h w fs))
    /\ onlyMetadata w (snd (loadWebpages h w fs)).
Proof.
  induction fs as [| f fs IH]; intros w; cbn [loadWebpages].
  - split; [reflexivity |]. split; [constructor | apply onlyMetadata_refl].
  - unfold newWebpage.
    pose proof (getTargetFilePath_onlyMetadata w (filePath f) None false) as H1.
    destruct (getTargetFilePath w (filePath f) None false) as [tp w1].
    destruct (IH w1) as (Hs & Hf & Hm).
    destruct (loadWebpages h w1 fs) as [ps w2]. cbn [fst snd] in *.
    split; [cbn [List.map]; now rewrite Hs |].
    split; [constructor; [repeat split | exact Hf] |].
    eapply onlyMetadata_trans; eassumption.
Qed.

Lemma createAttachments_spec (fs : list TFile) :
  forall w,
    List.map attSource (fst (createAttachments w fs)) = fs
    /\ Forall (fun a => attShowInTree a = true) (fst (createAttachments w fs))
    /\ onlyMetadata w (snd (createAttachments w fs)).
Proof.
  induction fs as [| f fs IH]; intros w; cbn [createAttachments].
  - split; [reflexivity |]. split; [constructor | apply onlyMetadata_refl].
  - unfold createAttachment.
    pose proof (getTargetFilePath_onlyMetadata w (filePath f) None true) as H1.
    destruct (getTargetFilePath w (filePath f) None true) as [tp w1].
    destruct (IH w1) as (Hs & Hf & Hm).
    destruct (createAttachments w1 fs) as [l w2]. cbn [fst snd] in *.
    split; [cbn [List.map]; now rewrite Hs |].
    split; [constructor; [reflexivity | exact Hf] |].
    eapply onlyMetadata_trans; eassumption.
Qed.

(** X8. [Website.load] creates one page for every file of the export,
    in order, attachment files included; every page is loaded, marked
    modified and not rendered yet.  It creates one attachment, shown in
    the tree, for every file that is not convertible or is viewable media.
    The index is the one that was there, or a new, empty one; nothing is
    written. *)
Theorem load_creates_a_page_per_file (w : Website) :
  let w' := loadWebsite h w in
  List.map source (webpages w') = files w
  /\ Forall (fun p => isLoaded p = true /\ isModified p = true /\ content p = None)
       (webpages w')
  /\ List.map attSource (siteAttachments w') = List.filter (isAttachmentFile h) (files w)
  /\ Forall (fun a => attShowInTree a = true) (siteAttachments w')
  /\ files w' = files w
  /\ minisearch w' = Some (default [] (minisearch w))
  /\ written w' = written w.
Proof.
  cbv zeta. unfold loadWebsite.
  set (w0 := setMinisearch _ _).
  assert (H0 : files w0 = files w /\ written w0 = written w
               /\ minisearch w0 = Some (default [] (minisearch w))).
  { unfold w0, initTables.
    pose proof (steps_registerFiles onlyMetadata onlyMetadata_refl onlyMetadata_trans
                  getTargetFilePath_onlyMetadata (List.map filePath (files w))
                  (setMetadata w {| allFiles := []; sourceToTarget := ∅;
                                    targetToSource := ∅ |})) as Hr.
    unfold onlyMetadata in Hr. rewrite Hr. cbn. auto. }
  destruct H0 as (Hfiles & Hwritten & Hms).
  unfold initWebpages.
  destruct (loadWebpages_spec (files w0) w0) as (Hs & Hf & Hm1).
  destruct (loadWebpages h w0 (files w0)) as [ps w1]. cbn [fst snd] in *.
  destruct (createAttachments_spec (List.filter (isAttachmentFile h) (files w0)) w1)
    as (Ha & Hshow & Hm2).
  destruct (createAttachments w1 _) as [atts w2]. cbn [fst snd] in *.
  pose proof (onlyMetadata_trans _ _ _ Hm1 Hm2) as Hm.
  unfold onlyMetadata in Hm.
  split; [now rewrite <- Hfiles |]. split; [exact Hf |].
  split; [now rewrite <- Hfiles |]. split; [exact Hshow |].
  rewrite Hm. cbn. auto.
Qed.

End LoadedSite.

(** ** The three outcomes of [Webpage.build] *)

Section BuildOutcomes.
Context `{PathLib}.
Variable h : Host.

(** X9. [build] returns in one of three ways, decided by the page's
    flags and the renderer alone.  A page that is loaded and not marked
    modified is returned untouched.  When the renderer returns nothing,
    [build] returns without an error: the site is untouched, the page
    holds an empty content element and a new document, gains no template
    and no attachment paths, and its record is the one [load] set up
    (with the links and headers of the stored record).  Otherwise the
    page is built and holds a template. *)
Theorem build_outcome (w : Website) (p : Webpage) :
  let '(o, p', w') := build h w p in
  let p0 := if isLoaded p then p else load h (options w) p in
  o = (if negb (willBuild p) then Skipped
       else match renderFile h (source p) with
            | Some _ => Built
            | None => RenderFailed
            end)
  /\ (o = Skipped -> p' = p /\ w' = w)
  /\ (o = RenderFailed ->
        w' = w /\ content p' = Some emptyContent /\ pageDocument p' = Some newPageDocument
        /\ hasTemplate p' = hasTemplate p
        /\ attachmentSourcePaths p' = attachmentSourcePaths p
        /\ pageMeta p' = pageMeta p0)
  /\ (o = Built -> hasTemplate p' = true /\ is_Some (content p')).
Proof.
  unfold build, willBuild.
  destruct (isLoaded p) eqn:Hl.
  - destruct (isModified p) eqn:Hm; simpl negb; cbv iota.
    + unfold buildModified. destruct (renderFile h (source p)) as [ri |] eqn:Hr.
      * destruct (remapLinks h w _ _) as [c4 w4].
        destruct (remapEmbedLinks h w4 _ c4) as [c5 w5].
        match goal with
        | |- context [fillMetadataAfterRender h w5 ?q] =>
            pose proof (fillMetadataAfterRender_frame h w5 q) as H6;
            destruct (fillMetadataAfterRender h w5 q) as [p6 w6]
        end.
        cbv zeta in H6. cbn [fst] in H6. destruct H6 as (Hc & _).
        split; [reflexivity |]. split; [discriminate |]. split; [discriminate |].
        intros _.
        set (p7 := withTemplate (appendLayout h p6) _).
        assert (H7 : hasTemplate p7 = true /\ is_Some (content p7)).
        { split; [reflexivity |]. change (is_Some (content p6)). rewrite Hc. cbn. eauto. }
        destruct (optAddTitle (options w)); [| exact H7].
        destruct (addTitle_identity p7) as (_ & _ & _ & ->).
        split; [apply H7 |]. destruct H7 as [_ [c Hc7]].
        unfold addTitle. rewrite Hc7.
        destruct (pageDocument p7); [| eauto].
        destruct (negb _); [eauto |]. cbn. eauto.
      * split; [reflexivity |]. split; [discriminate |].
        split; [intros _; repeat split; reflexivity | discriminate].
    + split; [reflexivity |]. split; [auto |]. split; discriminate.
  - change (isModified (load h (options w) p)) with true. simpl negb. cbv iota.
    unfold buildModified.
    change (source (load h (options w) p)) with (source p).
    destruct (renderFile h (source p)) as [ri |] eqn:Hr.
    + destruct (remapLinks h w _ _) as [c4 w4].
      destruct (remapEmbedLinks h w4 _ c4) as [c5 w5].
      match goal with
      | |- context [fillMetadataAfterRender h w5 ?q] =>
          pose proof (fillMetadataAfterRender_frame h w5 q) as H6;
          destruct (fillMetadataAfterRender h w5 q) as [p6 w6]
      end.
      cbv zeta in H6. cbn [fst] in H6. destruct H6 as (Hc & _).
      split; [reflexivity |]. split; [discriminate |]. split; [discriminate |].
      intros _.
      set (p7 := withTemplate (appendLayout h p6) _).
      assert (H7 : hasTemplate p7 = true /\ is_Some (content p7)).
      { split; [reflexivity |]. change (is_Some (content p6)). rewrite Hc. cbn. eauto. }
      destruct (optAddTitle (options w)); [| exact H7].
      destruct (addTitle_identity p7) as (_ & _ & _ & ->).
      split; [apply H7 |]. destruct H7 as [_ [c Hc7]].
      unfold addTitle. rewrite Hc7.
      destruct (pageDocument p7); [| eauto].
      destruct (negb _); [eauto |]. cbn. eauto.
    + split; [reflexivity |]. split; [discriminate |].
      split; [intros _; repeat split; reflexivity | discriminate].
Qed.

End BuildOutcomes.

(** ** The headings of the persisted record *)

Section SharedHeadings.
Context `{PathLib}.
Variable h : Host.
Variable tokenize : string -> list string.







End SharedHeadings.


(** ** The search content is normalised *)

Lemma app_empty_r (s : string) : (s ++ "")%string = s.
Proof.
  induction s as [| c s IH]; [reflexivity |].
  change (String c (s ++ "")%string = String c s). now f_equal.
Qed.

Lemma rev_app (a b : string) : JS.rev (a ++ b) = (JS.rev b ++ JS.rev a)%string.
Proof.
  induction a as [| c a IH].
  - change (JS.rev b = (JS.rev b ++ "")%string). now rewrite app_empty_r.
  - change (JS.rev (a ++ b) ++ String c "" = JS.rev b ++ (JS.rev a ++ String c ""))%string.
    now rewrite IH, append_assoc.
Qed.

Lemma rev_involutive (s : string) : JS.rev (JS.rev s) = s.
Proof.
  induction s as [| c s IH]; [reflexivity |].
  change (JS.rev (JS.rev s ++ String c "") = String c s).
  rewrite rev_app, IH. reflexivity.
Qed.

Lemma trimStart_no_space (s : string) : startsWithSpace (JS.trimStart s) = false.
Proof.
  induction s as [| c s IH]; [reflexivity |].
  cbn [JS.trimStart]. destruct (JS.isSpace c) eqn:Hc; [exact IH |].
  cbn [startsWithSpace]. exact Hc.
Qed.

Lemma trimStart_suffix (s : string) : exists u, s = (u ++ JS.trimStart s)%string.
Proof.
  induction s as [| c s [u IH]]; [now exists "" |].
  cbn [JS.trimStart]. destruct (JS.isSpace c); [| now exists ""].
  exists (String c u). change (String c s = String c (u ++ JS.trimStart s)%string).
  now f_equal.
Qed.

Lemma lastIsSpace_snoc (s : string) (c : ascii) :
  lastIsSpace (s ++ String c "") = JS.isSpace c.
Proof.
  induction s as [| a s IH]; [reflexivity |].
  change (lastIsSpace (String a (s ++ String c "")%string) = JS.isSpace c).
  cbn [lastIsSpace]. destruct (s ++ String c "")%string eqn:Hs; [| exact IH].
  destruct s; discriminate.
Qed.

Lemma lastIsSpace_rev (s : string) : lastIsSpace (JS.rev s) = startsWithSpace s.
Proof. destruct s as [| c s]; [reflexivity |]. apply lastIsSpace_snoc. Qed.

Lemma startsWithSpace_app (a b : string) :
  a <> "" -> startsWithSpace (a ++ b) = startsWithSpace a.
Proof. destruct a; [contradiction | reflexivity]. Qed.

(** [trim] leaves no whitespace at either end. *)
Lemma trim_ends (s : string) :
  startsWithSpace (JS.trim s) = false /\ lastIsSpace (JS.trim s) = false.
Proof.
  unfold JS.trim. set (t := JS.trimStart s).
  split; [| rewrite lastIsSpace_rev; apply trimStart_no_space].
  destruct (trimStart_suffix (JS.rev t)) as [u Hu].
  set (v := JS.trimStart (JS.rev t)) in *.
  assert (Ht : t = (JS.rev v ++ JS.rev u)%string).
  { rewrite <- rev_app, <- Hu. symmetry. apply rev_involutive. }
  destruct (JS.rev v) as [| c r] eqn:Hv; [reflexivity |].
  rewrite <- (startsWithSpace_app (String c r) (JS.rev u)) by discriminate.
  rewrite <- Ht. apply trimStart_no_space.
Qed.

Lemma collapseSpaces_singleSpaced (s : string) :
  forall b, singleSpaced b (collapseSpaces b s) = true.
Proof.
  induction s as [| c s IH]; intros b; [reflexivity |].
  cbn [collapseSpaces]. destruct (JS.isSpace c) eqn:Hc.
  - destruct b; [apply IH |].
    cbn [singleSpaced]. change (JS.isSpace " ") with true. cbv iota.
    rewrite IH. reflexivity.
  - cbn [singleSpaced]. rewrite Hc. apply IH.
Qed.

Lemma collapseSpaces_last (s : string) :
  forall b, s <> "" -> lastIsSpace s = false ->
    collapseSpaces b s <> "" /\ lastIsSpace (collapseSpaces b s) = false.
Proof.
  induction s as [| c s IH]; intros b Hne Hl; [contradiction |].
  destruct s as [| c' s'].
  - cbn [lastIsSpace] in Hl. cbn [collapseSpaces]. rewrite Hl.
    split; [discriminate | exact Hl].
  - assert (Hl' : lastIsSpace (String c' s') = false) by exact Hl.
    assert (Hne' : String c' s' <> "") by discriminate.
    clear Hl. remember (String c' s') as r eqn:Hr. clear Hr.
    cbn [collapseSpaces].
    destruct (JS.isSpace c).
    + destruct (IH true Hne' Hl') as [Hx Hlx].
      destruct b; [split; assumption |].
      split; [discriminate |].
      destruct (collapseSpaces true r) eqn:Hcol; [contradiction | exact Hlx].
    + destruct (IH false Hne' Hl') as [Hx Hlx].
      split; [discriminate |].
      destruct (collapseSpaces false r) eqn:Hcol; [contradiction | exact Hlx].
Qed.

Lemma collapseSpaces_nonSpaces (s : string) :
  forall b, nonSpaces (collapseSpaces b s) = nonSpaces s.
Proof.
  induction s as [| c s IH]; intros b; [reflexivity |].
  cbn [collapseSpaces nonSpaces]. destruct (JS.isSpace c) eqn:Hc.
  - destruct b; [apply IH |]. cbn [nonSpaces]. change (JS.isSpace " ") with true.
    cbv iota. apply IH.
  - cbn [nonSpaces]. rewrite Hc. now rewrite IH.
Qed.

Lemma nonSpaces_app (a b : string) :
  nonSpaces (a ++ b) = (nonSpaces a ++ nonSpaces b)%string.
Proof.
  induction a as [| c a IH]; [reflexivity |].
  change (nonSpaces (String c (a ++ b)%string)
          = (nonSpaces (String c a) ++ nonSpaces b)%string).
  cbn [nonSpaces]. destruct (JS.isSpace c); [exact IH |].
  change (String c (nonSpaces (a ++ b)) = String c (nonSpaces a ++ nonSpaces b)%string).
  now rewrite IH.
Qed.

Lemma nonSpaces_rev (s : string) : nonSpaces (JS.rev s) = JS.rev (nonSpaces s).
Proof.
  induction s as [| c s IH]; [reflexivity |].
  change (nonSpaces (JS.rev s ++ String c "") = JS.rev (nonSpaces (String c s))).
  rewrite nonSpaces_app, IH. cbn [nonSpaces]. destruct (JS.isSpace c).
  - apply app_empty_r.
  - reflexivity.
Qed.

Lemma nonSpaces_trimStart (s : string) : nonSpaces (JS.trimStart s) = nonSpaces s.
Proof.
  induction s as [| c s IH]; [reflexivity |].
  cbn [JS.trimStart]. destruct (JS.isSpace c) eqn:Hc; [| reflexivity].
  cbn [nonSpaces]. now rewrite Hc.
Qed.

Lemma nonSpaces_trim (s : string) : nonSpaces (JS.trim s) = nonSpaces s.
Proof.
  unfold JS.trim.
  now rewrite nonSpaces_rev, nonSpaces_trimStart, nonSpaces_rev, rev_involutive,
    nonSpaces_trimStart.
Qed.

Section SearchContent.
Context `{PathLib}.

(** X11. The search content of a page is its text with the whitespace
    normalised: no whitespace at the start or at the end, every
    whitespace character a blank, no two blanks in a row, and the other
    characters those of the text nodes that are not skipped, of the links
    and of the attachments, in order.  A page without content has the
    empty search content. *)
Theorem search_content_is_normalised (p : Webpage) :
  singleSpaced true (getSearchContent p) = true
  /\ lastIsSpace (getSearchContent p) = false
  /\ nonSpaces (getSearchContent p)
     = match content p with
       | Some c => nonSpaces (rawSearchContent c p)
       | None => ""
       end.
Proof.
  unfold getSearchContent. destruct (content p) as [c |]; [| repeat split].
  fold (rawSearchContent c p). set (raw := rawSearchContent c p).
  destruct (trim_ends raw) as [Hstart Hend].
  split; [| split].
  - destruct (JS.trim raw) as [| a r] eqn:Ht; [reflexivity |].
    cbn [startsWithSpace] in Hstart. cbn [collapseSpaces]. rewrite Hstart.
    cbn [singleSpaced]. rewrite Hstart. apply collapseSpaces_singleSpaced.
  - destruct (JS.trim raw) as [| a r] eqn:Ht; [reflexivity |].
    now apply collapseSpaces_last.
  - now rewrite collapseSpaces_nonSpaces, nonSpaces_trim.
Qed.

End SearchContent.

(** ** The export root *)

Lemma concat_app_str (l1 l2 : list string) :
  String.concat "" (l1 ++ l2) = (String.concat "" l1 ++ String.concat "" l2)%string.
Proof.
  induction l1 as [| a l1 IH]; [reflexivity |].
  destruct l1 as [| b l1].
  - destruct l2 as [| c l2]; [symmetry; apply app_empty_r | reflexivity].
  - change (String.concat "" ((a :: b :: l1) ++ l2))
      with (a ++ String.concat "" ((b :: l1) ++ l2))%string.
    rewrite IH. now rewrite <- append_assoc.
Qed.

Lemma dirPrefix_cons (x : string) (segs : list string) :
  dirPrefix (x :: segs) = ((x ++ "/") ++ dirPrefix segs)%string.
Proof. unfold dirPrefix. cbn [List.map]. apply (concat_app_str [_] _). Qed.

Lemma exhausted_drop (paths : list (list string)) :
  Forall (fun path => path = []) paths -> List.map (drop 1) paths = paths.
Proof.
  induction 1 as [| path paths -> _ IHp]; [reflexivity |].
  cbn [List.map]. now rewrite IHp.
Qed.

Lemma exhausted_no_single (paths : list (list string)) :
  Forall (fun path => path = []) paths ->
  existsb (fun path : list string => (length path =? 1)%nat) paths = false.
Proof. induction 1 as [| path paths -> _ IHp]; [reflexivity | exact IHp]. Qed.

(** Paths that are all exhausted keep the loop running. *)
Lemma commonPathLoop_exhausted (fuel : nat) :
  forall acc paths,
    paths <> [] -> Forall (fun path => path = []) paths ->
    commonPathLoop fuel acc paths = Unfinished.
Proof.
  induction fuel as [| fuel IH]; intros acc paths Hne Hall; [reflexivity |].
  cbn [commonPathLoop].
  rewrite (exhausted_drop _ Hall), (exhausted_no_single _ Hall).
  destruct (forallb _ paths) eqn:Hevery; [now apply IH |].
  exfalso. apply not_true_iff_false in Hevery. apply Hevery.
  apply forallb_forall. intros path Hin. apply bool_decide_eq_true_2.
  rewrite List.Forall_forall in Hall. rewrite (Hall _ Hin).
  destruct paths as [| p0 rest]; [contradiction |].
  now rewrite (Hall p0 (or_introl eq_refl)).
Qed.

(** What the loop returns is the text of the segments all paths start
    with; it stops at the first segment on which the paths disagree, or
    before the last segment of some path. *)
Lemma commonPathLoop_sound (fuel : nat) :
  forall acc paths r,
    paths <> [] ->
    commonPathLoop fuel acc paths = Returns r ->
    exists segs,
      r = (acc ++ dirPrefix segs)%string
      /\ Forall (fun path => take (length segs) path = segs) paths
      /\ (agreeAt (length segs) paths = false
          \/ segs <> [] /\ Exists (fun path => length path = S (length segs)) paths).
Proof.
  induction fuel as [| fuel IH]; intros acc paths r Hne Hrun; [discriminate |].
  cbn [commonPathLoop] in Hrun.
  set (first := head (default [] (head paths))) in *.
  destruct (forallb _ paths) eqn:Hevery.
  - rewrite forallb_forall in Hevery.
    assert (Hheads : forall path, In path paths -> head path = first).
    { intros path Hin. specialize (Hevery _ Hin). now apply bool_decide_eq_true_1 in Hevery. }
    destruct first as [x |] eqn:Hfirst.
    + (* every path starts with the segment x *)
      assert (Hcons : forall path, In path paths -> path = x :: drop 1 path).
      { intros path Hin. specialize (Hheads _ Hin). destruct path; [discriminate |].
        injection Hheads as ->. reflexivity. }
      cbn [default] in Hrun.
      destruct (existsb _ (List.map (drop 1) paths)) eqn:Hsome.
      * injection Hrun as <-. exists [x]. split; [| split].
        -- rewrite dirPrefix_cons. unfold dirPrefix. cbn. now rewrite app_empty_r.
        -- apply List.Forall_forall. intros path Hin. rewrite (Hcons _ Hin). reflexivity.
        -- right. split; [discriminate |].
           apply existsb_exists in Hsome as (t & Ht & Hlen).
           apply in_map_iff in Ht as (path & <- & Hin).
           apply List.Exists_exists. exists path. split; [exact Hin |].
           apply Nat.eqb_eq in Hlen. rewrite (Hcons _ Hin). cbn [length]. now rewrite Hlen.
      * assert (Hne' : List.map (drop 1) paths <> []).
        { destruct paths; [contradiction | discriminate]. }
        destruct (IH _ _ _ Hne' Hrun) as (segs & -> & Htake & Hmax).
        exists (x :: segs). split; [| split].
        -- rewrite dirPrefix_cons. now rewrite !append_assoc.
        -- apply List.Forall_forall. intros path Hin.
           rewrite List.Forall_forall in Htake.
           specialize (Htake (drop 1 path) (in_map _ _ _ Hin)).
           rewrite (Hcons _ Hin). cbn [length take]. f_equal. exact Htake.
        -- destruct Hmax as [Hdis | [Hsegs Hex]].
           ++ left. unfold agreeAt in *.
              apply not_true_iff_false. intros Hagree. apply not_true_iff_false in Hdis.
              apply Hdis. rewrite forallb_forall in *. intros t Ht.
              apply in_map_iff in Ht as (path & <- & Hin).
              specialize (Hagree _ Hin). apply bool_decide_eq_true_1 in Hagree.
              apply bool_decide_eq_true_2.
              assert (Hhd : default [] (head (List.map (drop 1) paths))
                            = drop 1 (default [] (head paths))).
              { destruct paths; reflexivity. }
              rewrite Hhd, !lookup_drop. exact Hagree.
           ++ right. split; [discriminate |].
              apply List.Exists_exists in Hex as (t & Ht & Hlen).
              apply in_map_iff in Ht as (path & <- & Hin).
              apply List.Exists_exists. exists path. split; [exact Hin |].
              rewrite (Hcons _ Hin). cbn [length]. now rewrite Hlen.
    + (* every path is exhausted: the loop does not return *)
      cbn [default] in Hrun.
      assert (Hall : Forall (fun path => path = []) paths).
      { apply List.Forall_forall. intros path Hin. specialize (Hheads _ Hin).
        now destruct path. }
      rewrite (exhausted_drop _ Hall), (exhausted_no_single _ Hall) in Hrun.
      rewrite (commonPathLoop_exhausted fuel _ _ Hne Hall) in Hrun. discriminate.
  - injection Hrun as <-. exists []. split; [| split].
    + unfold dirPrefix. cbn. symmetry. apply app_empty_r.
    + apply List.Forall_forall. intros path _. reflexivity.
    + left. unfold agreeAt. cbn [length].
      apply not_true_iff_false. intros Hag. apply not_true_iff_false in Hevery.
      apply Hevery. rewrite forallb_forall in *. intros path Hin.
      specialize (Hag _ Hin). apply bool_decide_eq_true_1 in Hag.
      apply bool_decide_eq_true_2. unfold first. rewrite <- !head_lookup in Hag. exact Hag.
Qed.

Lemma commonPathLoop_long (fuel : nat) :
  forall acc paths,
    paths <> [] -> Forall (fun path => 2 <= length path) paths ->
    length (default [] (head paths)) <= S fuel ->
    exists r, commonPathLoop fuel acc paths = Returns r.
Proof.
  induction fuel as [| fuel IH]; intros acc paths Hne Hlong Hfuel.
  - destruct paths as [| p0 rest]; [contradiction |].
    apply Forall_cons_iff in Hlong as [Hp0 _]. cbn in Hfuel. lia.
  - cbn [commonPathLoop]. destruct (forallb _ paths); [| eauto].
    destruct (existsb _ (List.map (drop 1) paths)) eqn:Hsome; [eauto |].
    apply IH.
    + destruct paths; [contradiction | discriminate].
    + apply List.Forall_forall. intros t Ht.
      apply in_map_iff in Ht as (path & <- & Hin).
      rewrite List.Forall_forall in Hlong. specialize (Hlong _ Hin).
      assert (Hone : (length (drop 1 path) =? 1)%nat = false).
      { apply not_true_iff_false. intros Hc. apply not_true_iff_false in Hsome.
        apply Hsome. apply existsb_exists. exists (drop 1 path).
        split; [now apply in_map | exact Hc]. }
      apply Nat.eqb_neq in Hone. rewrite length_drop in *. lia.
    + destruct paths as [| p0 rest]; [contradiction |].
      change (length (drop 1 p0) <= S fuel).
      change (length p0 <= S (S fuel)) in Hfuel. rewrite length_drop. lia.
Qed.

(** The loop returns for paths that are not all the same single
    segment. *)
Lemma commonPathLoop_returns (acc : string) (paths : list (list string)) (fuel : nat) :
  paths <> [] -> Forall (fun path => path <> []) paths ->
  ~ (exists x, Forall (fun path => path = [x]) paths) ->
  length (default [] (head paths)) < fuel ->
  exists r, commonPathLoop fuel acc paths = Returns r.
Proof.
  intros Hne Hnonempty Hdiff Hfuel.
  destruct fuel as [| fuel]; [lia |].
  cbn [commonPathLoop].
  set (first := head (default [] (head paths))).
  destruct (forallb _ paths) eqn:Hevery; [| eauto].
  destruct (existsb _ (List.map (drop 1) paths)) eqn:Hsome; [eauto |].
  rewrite forallb_forall in Hevery.
  assert (Hheads : forall path, In path paths -> head path = first).
  { intros path Hin. specialize (Hevery _ Hin). now apply bool_decide_eq_true_1 in Hevery. }
  assert (Hlen : forall path, In path paths -> length (drop 1 path) <> 1).
  { intros path Hin Hc. apply not_true_iff_false in Hsome. apply Hsome.
    apply existsb_exists. exists (drop 1 path).
    split; [now apply in_map | now apply Nat.eqb_eq]. }
  set (paths' := List.map (drop 1) paths) in *.
  assert (Hne' : paths' <> []).
  { unfold paths'. destruct paths; [contradiction | discriminate]. }
  destruct (forallb (fun t : list string => (length t =? 0)%nat) paths') eqn:Hempty.
  - (* every path was the one segment they share *)
    exfalso. apply Hdiff.
    destruct paths as [| p0 rest]; [contradiction |].
    destruct p0 as [| x p0];
      [apply Forall_cons_iff in Hnonempty as [Hp0 _]; contradiction |].
    exists x. apply List.Forall_forall. intros path Hin.
    rewrite forallb_forall in Hempty.
    specialize (Hempty (drop 1 path) (in_map _ _ _ Hin)). apply Nat.eqb_eq in Hempty.
    specialize (Hheads _ Hin). unfold first in Hheads. cbn in Hheads.
    destruct path as [| y path]; [discriminate |].
    injection Hheads as ->. cbn in Hempty. now destruct path.
  - assert (Hex : exists t1, In t1 paths' /\ t1 <> []).
    { apply not_true_iff_false in Hempty.
      destruct (existsb (fun t : list string => negb (length t =? 0)%nat) paths') eqn:Hx.
      - apply existsb_exists in Hx as (t1 & Ht1 & Hl1). exists t1.
        split; [exact Ht1 |]. intros ->. discriminate.
      - exfalso. apply Hempty. apply forallb_forall. intros t Ht.
        apply not_true_iff_false in Hx.
        destruct (length t =? 0)%nat eqn:Hlt; [reflexivity |].
        exfalso. apply Hx. apply existsb_exists. exists t. now rewrite Hlt. }
    clear Hempty. destruct Hex as (t1 & Ht1 & Hne1).
    destruct (existsb (fun t : list string => (length t =? 0)%nat) paths') eqn:Hzero.
    + (* an exhausted path beside one that goes on: the next test fails *)
      assert (Hfuel' : fuel <> 0).
      { destruct paths as [| p0 rest]; [contradiction |].
        apply Forall_cons_iff in Hnonempty as [Hp0 _].
        destruct p0; [contradiction |]. cbn in Hfuel. lia. }
      destruct fuel as [| fuel]; [contradiction |].
      apply existsb_exists in Hzero as (t0 & Ht0 & Hl0). apply Nat.eqb_eq in Hl0.
      cbn [commonPathLoop].
      destruct (forallb _ paths') eqn:Hevery'; [| eauto].
      exfalso. rewrite forallb_forall in Hevery'.
      pose proof (Hevery' _ Ht0) as H0. pose proof (Hevery' _ Ht1) as H1.
      apply bool_decide_eq_true_1 in H0, H1.
      destruct t0; [| discriminate]. destruct t1; [contradiction |].
      cbn in H0, H1. congruence.
    + (* every path goes on for two segments at least *)
      apply commonPathLoop_long; [exact Hne' | |].
      * apply List.Forall_forall. intros t Ht.
        assert (Hnz : (length t =? 0)%nat = false).
        { apply not_true_iff_false. intros Hc. apply not_true_iff_false in Hzero.
          apply Hzero. apply existsb_exists. eauto. }
        apply Nat.eqb_neq in Hnz.
        unfold paths' in Ht. apply in_map_iff in Ht as (path & <- & Hin).
        specialize (Hlen _ Hin). lia.
      * unfold paths'. destruct paths as [| p0 rest]; [contradiction |].
        change (length (drop 1 p0) <= S fuel).
        change (length p0 < S fuel) in Hfuel. rewrite length_drop. lia.
Qed.

Lemma split_single (c : ascii) (s x : string) : JS.split c s = [x] -> s = x.
Proof.
  revert x. induction s as [| a s IH]; intros x; cbn [JS.split].
  - now intros [= <-].
  - destruct (Ascii.eqb a c).
    + intros [= <- Hs]. destruct (split_cons c s) as (p & rest & Hp). congruence.
    + destruct (JS.split c s) as [| p rest] eqn:Hs.
      * destruct (split_cons c s) as (p & rest & Hp). congruence.
      * intros [= <- ->]. now rewrite (IH p eq_refl).
Qed.

Section ExportRoot.
Context `{PathLib}.
Variable parentPath : TFile -> option string.

(** X12. For two or more files with distinct paths,
    [getBasePathForFiles] returns (within as many rounds as the first
    path has segments, and one more) the directory all files share: the
    text of the leading segments common to all paths, each followed by a
    slash; the shared segments end where the paths disagree or where some
    path has only its last segment left. *)
Theorem export_root_is_common_directory (files : list TFile) (fuel : nat) :
  2 <= length files ->
  List.NoDup (List.map filePath files) ->
  length (JS.split "/" (default "" (filePath <$> head files))) < fuel ->
  let paths := List.map (fun f => JS.split "/" (filePath f)) files in
  exists segs,
    getBasePathForFiles fuel parentPath files = Returns (dirPrefix segs)
    /\ Forall (fun path => take (length segs) path = segs) paths
    /\ (agreeAt (length segs) paths = false
        \/ segs <> [] /\ Exists (fun path => length path = S (length segs)) paths).
Proof.
  intros Hlen Hnd Hfuel paths.
  destruct files as [| f1 [| f2 rest]]; [cbn in Hlen; lia | cbn in Hlen; lia |].
  assert (Hne : paths <> []) by discriminate.
  assert (Hret : exists r, commonPathLoop fuel "" paths = Returns r).
  { apply commonPathLoop_returns; [exact Hne | | | exact Hfuel].
    - apply List.Forall_forall. intros path Hin.
      apply in_map_iff in Hin as (f & <- & _).
      destruct (split_cons "/" (filePath f)) as (p & r & ->). discriminate.
    - intros (x & Hall).
      apply Forall_cons_iff in Hall as [H1 Hall].
      apply Forall_cons_iff in Hall as [H2 _].
      apply split_single in H1, H2.
      cbn [List.map] in Hnd. apply List.NoDup_cons_iff in Hnd as [Hnin _].
      apply Hnin. left. congruence. }
  destruct Hret as [r Hr].
  destruct (commonPathLoop_sound fuel "" paths r Hne Hr) as (segs & -> & Htake & Hmax).
  exists segs. split; [exact Hr |]. split; assumption.
Qed.

Lemma length_app_str (a b : string) :
  String.length (a ++ b) = String.length a + String.length b.
Proof.
  induction a as [| c a IH]; [reflexivity |].
  change (S (String.length (a ++ b)) = S (String.length a + String.length b)).
  now f_equal.
Qed.

(** The text the loop holds only grows. *)
Lemma commonPathLoop_grows (fuel : nat) :
  forall acc paths r,
    commonPathLoop fuel acc paths = Returns r -> String.length acc <= String.length r.
Proof.
  induction fuel as [| fuel IH]; intros acc paths r; [discriminate |].
  cbn [commonPathLoop].
  destruct (forallb _ paths); [| intros [= <-]; lia].
  destruct (existsb _ _).
  - intros [= <-]. rewrite length_app_str. lia.
  - intros Hr. apply IH in Hr. rewrite length_app_str in Hr. lia.
Qed.

(** The loop with the limit agrees with the loop without it on every
    run whose result is within the limit. *)
Lemma boundedPathLoop_agrees (maxLength fuel : nat) :
  forall acc paths r,
    commonPathLoop fuel acc paths = Returns r ->
    String.length r <= maxLength ->
    boundedPathLoop maxLength fuel acc paths = Returns r.
Proof.
  induction fuel as [| fuel IH]; intros acc paths r; [discriminate |].
  cbn [commonPathLoop boundedPathLoop].
  destruct (forallb _ paths); [| auto].
  destruct (existsb _ _) eqn:Hex.
  - intros [= <-] Hlen.
    destruct (Nat.ltb_spec maxLength
                (String.length (acc ++ default "undefined"
                                         (head (default [] (head paths))) ++ "/")));
      [lia | reflexivity].
  - intros Hr Hlen. pose proof (commonPathLoop_grows _ _ _ _ Hr) as Hg.
    destruct (Nat.ltb_spec maxLength
                (String.length (acc ++ default "undefined"
                                         (head (default [] (head paths))) ++ "/")));
      [lia | now apply IH].
Qed.

(** Once every path is exhausted the loop appends [undefined/] in every
    round: it never returns, and it throws as soon as the text passes
    the limit. *)
Lemma boundedPathLoop_exhausted (maxLength fuel : nat) :
  forall acc paths,
    paths <> [] -> Forall (fun path => path = []) paths ->
    (forall r, boundedPathLoop maxLength fuel acc paths <> Returns r)
    /\ (String.length acc <= maxLength < String.length acc + 10 * fuel ->
        boundedPathLoop maxLength fuel acc paths = Throws).
Proof.
  induction fuel as [| fuel IH]; intros acc paths Hne Hall.
  - split; [discriminate | lia].
  - cbn [boundedPathLoop].
    rewrite (exhausted_drop _ Hall), (exhausted_no_single _ Hall).
    assert (Hhead : head (default [] (head paths)) = None).
    { destruct paths as [| p0 rest]; [contradiction |].
      apply Forall_cons_iff in Hall as [-> _]. reflexivity. }
    destruct (forallb _ paths) eqn:Hevery.
    + rewrite Hhead.
      assert (Hlen : String.length (acc ++ default "undefined" None ++ "/")
                     = String.length acc + 10) by (now rewrite length_app_str).
      destruct (Nat.ltb_spec maxLength
                  (String.length (acc ++ default "undefined" None ++ "/"))) as [Hlt | Hge].
      * split; [discriminate | reflexivity].
      * destruct (IH (acc ++ default "undefined" None ++ "/")%string _ Hne Hall)
          as [Hnr Hth].
        split; [exact Hnr |]. intros Hlim. apply Hth. lia.
    + exfalso. apply not_true_iff_false in Hevery. apply Hevery.
      apply forallb_forall. intros path Hin. apply bool_decide_eq_true_2.
      rewrite List.Forall_forall in Hall. rewrite (Hall _ Hin).
      destruct paths as [| p0 rest]; [contradiction |].
      now rewrite (Hall p0 (or_introl eq_refl)).
Qed.

(** X13. Handed the same top-level file (a path of one segment) two or
    more times, the loop that finds the export root does not end by
    itself: the segments run out on every path at once, the loop goes on
    comparing [undefined] with [undefined] and appends [undefined/] in
    every round, so it never returns, and it is ended by the
    [RangeError] of the string that has grown past the limit (after at
    most as many rounds as the limit has characters).
    [getBasePathForFiles] lets the exception through; [Website.load] of
    [website.ts] catches it and carries on with the empty export root. *)
Theorem export_root_loop_ends_in_range_error
    (maxLength fuel : nat) (files : list TFile) (f : TFile) :
  2 <= length files ->
  hasChar "/" (filePath f) = false ->
  Forall (fun g => filePath g = filePath f) files ->
  (forall n r, getBasePathForFilesWithin maxLength n parentPath files <> Returns r)
  /\ (maxLength < fuel ->
      getBasePathForFilesWithin maxLength fuel parentPath files = Throws
      /\ findExportRoot maxLength fuel parentPath "" (Some files) = Returns "").
Proof.
  intros Hlen Hroot Hsame.
  destruct files as [| f1 [| f2 rest]]; [cbn in Hlen; lia | cbn in Hlen; lia |].
  unfold getBasePathForFilesWithin, findExportRoot. cbn [String.eqb].
  set (paths := List.map _ (f1 :: f2 :: rest)).
  assert (Hpaths : Forall (fun path => path = [filePath f]) paths).
  { apply List.Forall_forall. intros path Hin.
    apply in_map_iff in Hin as (g & <- & Hg).
    rewrite List.Forall_forall in Hsame. rewrite (Hsame _ Hg).
    now apply split_absent. }
  assert (Hne : List.map (drop 1) paths <> []) by discriminate.
  assert (Hdrop : Forall (fun path => path = []) (List.map (drop 1) paths)).
  { apply List.Forall_forall. intros t Ht. apply in_map_iff in Ht as (path & <- & Hin).
    rewrite List.Forall_forall in Hpaths. now rewrite (Hpaths _ Hin). }
  assert (Hevery : forallb (fun path => bool_decide
                      (head path = head (default [] (head paths)))) paths = true).
  { apply forallb_forall. intros path Hin. apply bool_decide_eq_true_2.
    rewrite List.Forall_forall in Hpaths. rewrite (Hpaths _ Hin).
    assert (Hf1 : In (JS.split "/" (filePath f1)) paths) by (now left).
    unfold paths at 1. cbn [List.map head default].
    now rewrite (Hpaths _ Hf1). }
  assert (Hstep : forall n,
            boundedPathLoop maxLength (S n) "" paths
            = if (maxLength <? String.length
                                 ("" ++ default "undefined" (head (default [] (head paths)))
                                     ++ "/"))%nat
              then Throws
              else boundedPathLoop maxLength n
                     ("" ++ default "undefined" (head (default [] (head paths))) ++ "/")
                     (List.map (drop 1) paths)).
  { intros n. cbn [boundedPathLoop]. rewrite Hevery.
    now rewrite (exhausted_no_single _ Hdrop). }
  split.
  - intros [| n] r; [discriminate |]. rewrite Hstep.
    destruct (_ <? _)%nat; [discriminate |].
    now apply boundedPathLoop_exhausted.
  - intros Hlim. destruct fuel as [| n]; [lia |]. rewrite Hstep.
    destruct (Nat.ltb_spec maxLength
                (String.length ("" ++ default "undefined"
                                        (head (default [] (head paths))) ++ "/")))
      as [Hlt | Hge]; [split; reflexivity |].
    assert (Hth : boundedPathLoop maxLength n
                    ("" ++ default "undefined" (head (default [] (head paths))) ++ "/")
                    (List.map (drop 1) paths) = Throws).
    { apply boundedPathLoop_exhausted; [exact Hne | exact Hdrop |].
      split; [exact Hge |].
      rewrite length_app_str. rewrite length_app_str.
      cbn [String.length]. lia. }
    rewrite Hth. split; reflexivity.
Qed.

End ExportRoot.

Lemma export_root_is_common_directory_witness :
  let files := [Fixtures.mdFile "docs/" "a"; Fixtures.mdFile "docs/sub/" "b"] in
  let paths := List.map (fun f => JS.split "/" (filePath f)) files in
  exists segs,
    getBasePathForFiles 3 (fun _ => None) files = Returns (dirPrefix segs)
    /\ Forall (fun path => take (length segs) path = segs) paths
    /\ (agreeAt (length segs) paths = false
        \/ segs <> [] /\ Exists (fun path => length path = S (length segs)) paths).
Proof.
  cbv zeta.
  apply (export_root_is_common_directory (fun _ => None)
           [Fixtures.mdFile "docs/" "a"; Fixtures.mdFile "docs/sub/" "b"] 3).
  - simpl. lia.
  - vm_compute. constructor; [intros [Heq | []]; discriminate |].
    constructor; [intros [] | constructor].
  - vm_compute. lia.
Defined.

Lemma export_root_loop_ends_in_range_error_witness :
  let files := [Fixtures.mdFile "" "a"; Fixtures.mdFile "" "a"] in
  getBasePathForFilesWithin 40 41 (fun _ => None) files = Throws
  /\ findExportRoot 40 41 (fun _ => None) "" (Some files) = Returns "".
Proof.
  cbv zeta.
  apply (export_root_loop_ends_in_range_error (fun _ => None) 40 41
           [Fixtures.mdFile "" "a"; Fixtures.mdFile "" "a"] (Fixtures.mdFile "" "a")).
  - simpl. lia.
  - reflexivity.
  - repeat constructor.
  - lia.
Defined.

(** ** Removing a page from the index *)

Lemma msDiscard_absent (docs : list SearchDoc) (k : string) :
  msHas docs k = false -> msDiscard docs k = docs.
Proof.
  unfold msHas, msDiscard. induction docs as [| d docs IH]; [reflexivity |].
  cbn [existsb List.filter]. intros Hd. apply orb_false_iff in Hd as [Hd Hrest].
  rewrite Hd. cbn [negb]. now rewrite (IH Hrest).
Qed.

Lemma msDiscard_app (l1 l2 : list SearchDoc) (k : string) :
  msDiscard (l1 ++ l2) k = msDiscard l1 k ++ msDiscard l2 k.
Proof. unfold msDiscard. apply List.filter_app. Qed.

Lemma msHas_discard (docs : list SearchDoc) (k : string) :
  msHas (msDiscard docs k) k = false.
Proof. apply msHas_countId. rewrite countId_discard. now rewrite String.eqb_refl. Qed.

Section IndexRemoval.
Context `{PathLib}.
Variable h : Host.
Variable tokenize : string -> list string.

(** X14. [removePage] undoes [indexPage]: removing a page right after
    indexing it leaves the index as removing it before would have (the
    very index, when the page was not in it); after the removal no
    document is stored under the page's path, the documents of other
    paths are as before, and removing the page again changes nothing. *)
Theorem removePage_undoes_indexPage (docs : list SearchDoc) (p : Webpage) :
  exists docs' p' removed,
    addWebpageToMinisearch h tokenize (Some docs) p = Some (Some docs', p')
    /\ removePage (Some docs') p' = Some removed
    /\ removePage (Some docs) p = Some removed
    /\ (msHas docs (templatePath p) = false -> removed = docs)
    /\ countId (templatePath p) removed = 0
    /\ (forall k, k <> templatePath p -> countId k removed = countId k docs)
    /\ removePage (Some removed) p = Some removed.
Proof.
  set (k := templatePath p).
  set (docs1 := if msHas docs k then msDiscard docs k else docs).
  assert (Hno : msHas docs1 k = false).
  { subst docs1. destruct (msHas docs k) eqn:Hh; [apply msHas_discard | exact Hh]. }
  assert (Hadd : exists doc p',
            addWebpageToMinisearch h tokenize (Some docs) p = Some (Some (docs1 ++ [doc]), p')
            /\ docId doc = k /\ templatePath p' = k).
  { unfold addWebpageToMinisearch. fold k. fold docs1.
    pose proof (getRenderedHeadings_identity h p) as [Hi _].
    destruct (getRenderedHeadings h p) as [headersInfo p1]. cbn [snd] in Hi. cbv zeta.
    match goal with
    | |- context [msAdd docs1 ?d] => set (doc := d)
    end.
    assert (Hdoc : msAdd docs1 doc = Some (docs1 ++ [doc])).
    { unfold msAdd. change (docId doc) with k. now rewrite Hno. }
    rewrite Hdoc. eexists doc, _. split; [reflexivity |]. split; [reflexivity |].
    destruct Hi as (Hp & _).
    assert (Ht : templatePath p1 = k) by (injection Hp; auto).
    destruct headersInfo as [| d rest]; [exact Ht |].
    destruct (_ && _); exact Ht. }
  destruct Hadd as (doc & p' & Hadd & Hid & Hp').
  exists (docs1 ++ [doc]), p', docs1.
  split; [exact Hadd |]. split; [| split; [| split; [| split; [| split]]]].
  - unfold removePage, removeWebpageFromMinisearch. rewrite Hp'. f_equal.
    assert (Hhas : msHas (docs1 ++ [doc]) k = true).
    { unfold msHas. rewrite existsb_app. cbn [existsb]. rewrite Hid, String.eqb_refl.
      now rewrite orb_true_r. }
    rewrite Hhas, msDiscard_app, (msDiscard_absent _ _ Hno).
    unfold msDiscard. cbn [List.filter]. rewrite Hid, String.eqb_refl. cbn [negb].
    apply app_nil_r.
  - reflexivity.
  - intros Hnot. subst docs1. fold k in Hnot. now rewrite Hnot.
  - now apply msHas_countId.
  - intros k' Hne. subst docs1. destruct (msHas docs k); [| reflexivity].
    rewrite countId_discard. destruct (String.eqb k' k) eqn:Hk; [| reflexivity].
    apply String.eqb_eq in Hk. contradiction.
  - unfold removePage, removeWebpageFromMinisearch. fold k. now rewrite Hno.
Qed.

End IndexRemoval.

(** ** The version test of [validateSettings] *)

Section BannerVersion.
Import Validation.

Lemma In_bannerVersion (ps : Plugins) (addRSS : bool) (siteURL : option string) (v : string) :
  In (BannerVersion v) (validateSettings ps addRSS siteURL)
  <-> enabled ps "obsidian-banners" = true
      /\ v = String.substring 0 5 (default "0.0.0" (bannerVersion ps))
      /\ String.ltb v "2.0.5" = true.
Proof.
  unfold validateSettings. rewrite !in_app_iff. split.
  - intros [Hin | [Hin | [Hin | Hin]]].
    + destruct (_ && _); [destruct Hin as [Hd | []]; discriminate | destruct Hin].
    + destruct (_ && _); [destruct Hin as [Hd | []]; discriminate | destruct Hin].
    + destruct (enabled ps "obsidian-banners"); [| destruct Hin].
      cbv zeta in Hin.
      destruct (String.ltb _ "2.0.5") eqn:Hlt; [| destruct Hin].
      destruct Hin as [[= <-] | []]. auto.
    + destruct (_ && _); [destruct Hin as [Hd | []]; discriminate | destruct Hin].
  - intros (Hen & -> & Hlt). right. right. left. rewrite Hen. cbv zeta. rewrite Hlt.
    now left.
Qed.

(** X15. With the Banners plugin enabled, [validateSettings] warns
    about a version [a.b.c] of one digit each exactly when it is below
    2.0.5; the test compares texts, though, so every version whose text
    starts with the digit 1 (10.0.0, say) gets the warning as well. *)
Theorem banner_version_is_compared_as_text
    (ps : Plugins) (addRSS : bool) (siteURL : option string) :
  enabled ps "obsidian-banners" = true ->
  (forall a b c,
     a < 10 -> b < 10 -> c < 10 ->
     bannerVersion ps = Some (versionText a b c) ->
     (In (BannerVersion (versionText a b c)) (validateSettings ps addRSS siteURL)
      <-> 100 * a + 10 * b + c < 205))
  /\ (forall rest,
        bannerVersion ps = Some (String "1" rest) ->
        exists v, In (BannerVersion v) (validateSettings ps addRSS siteURL)).
Proof.
  intros Hen. split.
  - intros a b c Ha Hb Hc Hv.
    assert (Hcheck : textOrderAgrees = true) by (vm_compute; reflexivity).
    unfold textOrderAgrees in Hcheck. rewrite forallb_forall in Hcheck.
    specialize (Hcheck a (proj2 (in_seq 10 0 a) (conj (Nat.le_0_l a) Ha))).
    rewrite forallb_forall in Hcheck.
    specialize (Hcheck b (proj2 (in_seq 10 0 b) (conj (Nat.le_0_l b) Hb))).
    rewrite forallb_forall in Hcheck.
    specialize (Hcheck c (proj2 (in_seq 10 0 c) (conj (Nat.le_0_l c) Hc))).
    apply Bool.eqb_prop in Hcheck.
    assert (Hsub : String.substring 0 5 (versionText a b c) = versionText a b c)
      by reflexivity.
    rewrite In_bannerVersion, Hv. cbn [default]. rewrite Hsub in *. rewrite Hcheck.
    rewrite Nat.ltb_lt. intuition.
  - intros rest Hv. eexists. apply In_bannerVersion. rewrite Hv.
    split; [exact Hen |]. split; [reflexivity |].
    cbn [default]. destruct rest as [| c1 rest]; [reflexivity |].
    cbn [String.substring]. unfold String.ltb. cbn [String.compare].
    reflexivity.
Qed.

End BannerVersion.

Lemma banner_version_is_compared_as_text_witness :
  let ps := Validation.mkPlugins ["obsidian-banners"] None None (Some "2.0.4") in
  In (Validation.BannerVersion "2.0.4") (Validation.validateSettings ps false None).
Proof.
  cbv zeta.
  apply (proj1 (banner_version_is_compared_as_text
                  (Validation.mkPlugins ["obsidian-banners"] None None (Some "2.0.4"))
                  false None eq_refl)
           2 0 4); [lia | lia | lia | reflexivity | lia].
Defined.

(** ** [ObsidianStyles.load] *)

Lemma split_two (c : ascii) (s : string) :
  hasChar c s = true -> exists a b rest, JS.split c s = a :: b :: rest.
Proof.
  induction s as [| x s IH]; [discriminate |].
  cbn [hasChar JS.split]. destruct (Ascii.eqb x c).
  - intros _. destruct (split_cons c s) as (p & rest & ->). eauto.
  - cbn [orb]. intros Hs. destruct (IH Hs) as (a & b & rest & ->). eauto.
Qed.

Lemma split_second (c : ascii) (s : string) :
  JS.split c s !! 1%nat = None <-> hasChar c s = false.
Proof.
  split.
  - intros Hn. destruct (hasChar c s) eqn:Hc; [| reflexivity].
    destruct (split_two c s Hc) as (a & b & rest & Hs). rewrite Hs in Hn. discriminate.
  - intros Hc. now rewrite (split_absent _ _ Hc).
Qed.

Section StyleRules.
Import Styles.

Lemma ruleText_None (r : string) : ruleText r = None <-> hasChar "{" r = false.
Proof.
  unfold ruleText, ruleParts. rewrite <- split_second.
  destruct (JS.split "{" r !! 1%nat) as [body |].
  - split; [| discriminate]. now destruct (length _ =? 0)%nat.
  - tauto.
Qed.

Lemma loadRules_spec (rules : list string) :
  forall data,
    loadRules rules data
    = if forallb (hasChar "{") rules
      then Some (data ++ String.concat "" (omap ruleText rules))%string
      else None.
Proof.
  induction rules as [| r rules IH]; intros data.
  - cbn. now rewrite app_empty_r.
  - cbn [loadRules forallb].
    change (omap ruleText (r :: rules))
      with (match ruleText r with
            | Some t => t :: omap ruleText rules
            | None => omap ruleText rules
            end).
    destruct (ruleText r) as [t |] eqn:Hr.
    + destruct (hasChar "{" r) eqn:Hc;
        [| apply ruleText_None in Hc; congruence].
      cbn [andb]. rewrite IH. destruct (forallb _ rules); [| reflexivity].
      f_equal. change (t :: omap ruleText rules) with ([t] ++ omap ruleText rules).
      rewrite concat_app_str. cbn [String.concat].
      now rewrite append_assoc.
    + apply ruleText_None in Hr. now rewrite Hr.
Qed.

(** X16. [ObsidianStyles.load] throws exactly when there is no sheet to
    read (no sheet with [app.css] in its [href] and no second sheet) or
    when a rule of the sheet has no opening brace in its text.
    Otherwise the data is what the rules contribute, in order, followed
    by the overrides; a rule contributes nothing when none of its
    selectors is kept, and else one line with its kept selectors, each
    trimmed and passing the filter, in their order. *)
Theorem styles_load_result (sheets : list StyleSheet) (overrides : string) :
  (load sheets overrides = None
   <-> appSheet sheets = None
       \/ exists sheet, appSheet sheets = Some sheet
            /\ Exists (fun r => hasChar "{" r = false) (cssRules sheet))
  /\ (forall data, load sheets overrides = Some data ->
        exists sheet, appSheet sheets = Some sheet
          /\ data = (String.concat "" (omap ruleText (cssRules sheet)) ++ overrides)%string)
  /\ (forall r selectors declarations,
        ruleParts r = Some (selectors, declarations) ->
        Forall (fun s => keptSelector s = true /\ exists s0, s = JS.trim s0) selectors
        /\ ruleText r
           = Some (match selectors with
                   | [] => ""
                   | _ => JS.join ", " selectors ++ " { " ++ JS.join "; " declarations
                          ++ " }" ++ newline
                   end)%string).
Proof.
  unfold load. split; [| split].
  - destruct (appSheet sheets) as [sheet |]; [| split; auto].
    rewrite loadRules_spec.
    destruct (forallb (hasChar "{") (cssRules sheet)) eqn:Hall.
    + split; [discriminate |]. intros [Hn | (sheet' & [= <-] & Hex)]; [discriminate |].
      exfalso. rewrite forallb_forall in Hall.
      apply List.Exists_exists in Hex as (r & Hin & Hr).
      specialize (Hall _ Hin). congruence.
    + split; [| reflexivity]. intros _. right. exists sheet. split; [reflexivity |].
      apply List.Exists_exists.
      apply not_true_iff_false in Hall.
      destruct (existsb (fun r => negb (hasChar "{" r)) (cssRules sheet)) eqn:Hex.
      * apply existsb_exists in Hex as (r & Hin & Hr). exists r.
        split; [exact Hin |]. now apply negb_true_iff.
      * exfalso. apply Hall. apply forallb_forall. intros r Hin.
        apply not_true_iff_false in Hex.
        destruct (hasChar "{" r) eqn:Hr; [reflexivity |].
        exfalso. apply Hex. apply existsb_exists. exists r. now rewrite Hr.
  - intros data Hd. destruct (appSheet sheets) as [sheet |]; [| discriminate].
    rewrite loadRules_spec in Hd.
    destruct (forallb (hasChar "{") (cssRules sheet)); [| discriminate].
    injection Hd as <-. exists sheet. split; reflexivity.
  - intros r selectors declarations Hparts. split.
    + unfold ruleParts in Hparts.
      destruct (JS.split "{" r !! 1%nat) as [body |]; [| discriminate].
      injection Hparts as <- _.
      apply List.Forall_forall. intros s Hin.
      apply filter_In in Hin as [Hin Hkept]. split; [exact Hkept |].
      apply in_map_iff in Hin as (s0 & <- & _). eauto.
    + unfold ruleText. rewrite Hparts. now destruct selectors.
Qed.

End StyleRules.

(** ** What [addTitle] does to the title and to the first header *)

Section TitleElement.

(** X17. On a markdown page [addTitle] removes the first header of the
    document exactly when the header is similar to the title or the file
    name, or is an H1 at the top of a document without inline title; the
    title becomes the markup of that header only if the title is the
    default one (a title from the front matter is kept, the header goes
    all the same, and the log says which); and the title element
    prepended to the content carries the title the page ends with. *)
Theorem addTitle_effect (p : Webpage) (c : Content) (d : PageDocument) :
  content p = Some c ->
  pageDocument p = Some d ->
  type (pageMeta p) = Markdown ->
  let taken := takenHeader (title (pageMeta p)) (fileBasename (source p)) d in
  pageDocument (addTitle p)
  = Some (match taken with Some _ => removeFirstHeader d | None => d end)
  /\ title (pageMeta (addTitle p))
     = match taken with
       | Some fh => if isDefault (titleInfo p) then innerHTML fh else title (pageMeta p)
       | None => title (pageMeta p)
       end
  /\ content (addTitle p) = Some (prependTitleEl c (title (pageMeta (addTitle p))))
  /\ length (log (addTitle p))
     = length (log p) + match taken with Some _ => 1 | None => 0 end.
Proof.
  intros Hc Hd Ht. cbv zeta. unfold addTitle, takenHeader. rewrite Hc, Hd, Ht.
  simpl bool_decide. simpl negb. cbv iota zeta beta.
  destruct (firstHeader d) as [fh |]; [| cbn; rewrite ?Hd; repeat split; lia].
  unfold similarHeading, topHeading. cbv zeta.
  destruct (_ || _) eqn:Hsim.
  - cbn [orb]. unfold takeHeader.
    destruct (isDefault (titleInfo p)); cbn; rewrite ?length_app; cbn;
      repeat split; lia.
  - cbn [orb].
    destruct (String.eqb (tagName fh) "H1" && negb _) eqn:Htop; cbn [andb].
    + destruct (inSizer fh && (childPosition fh <=? 2)%nat) eqn:Hpos.
      * unfold takeHeader.
        destruct (isDefault (titleInfo p)); cbn; rewrite ?length_app; cbn;
          repeat split; lia.
      * cbn. rewrite ?Hd. repeat split; lia.
    + cbn. rewrite ?Hd. repeat split; lia.
Qed.

End TitleElement.

Lemma addTitle_effect_witness :
  let p := ExplicitTitleFixtures.page in
  title (pageMeta (addTitle p)) = "Introduction!"
  /\ (docHeadingEls <$> pageDocument (addTitle p)) = Some [].
Proof.
  cbv zeta.
  assert (Hc : content ExplicitTitleFixtures.page
               = Some (default emptyContent (content ExplicitTitleFixtures.page)))
    by (vm_compute; reflexivity).
  assert (Hd : pageDocument ExplicitTitleFixtures.page
               = Some (mkPageDocument [] [Fixtures.h1 "Introduction"]))
    by (vm_compute; reflexivity).
  destruct (addTitle_effect ExplicitTitleFixtures.page _ _ Hc Hd eq_refl)
    as (Hdoc & Ht & _).
  cbv zeta in Hdoc, Ht. rewrite Hdoc, Ht. vm_compute. split; reflexivity.
Defined.

(** ** The links a built page records *)

Section RecordedLinks.
Context `{PathLib}.
Variable h : Host.

Lemma keepsKnown_refl (w : Website) : keepsKnown w w.
Proof. intros l Hl. exact Hl. Qed.

Lemma keepsKnown_trans (w1 w2 w3 : Website) :
  keepsKnown w1 w2 -> keepsKnown w2 w3 -> keepsKnown w1 w3.
Proof. intros H12 H23 l Hl. apply H23. now apply H12. Qed.

Lemma getTargetFilePath_keepsKnown (w : Website) (s : string) (f : option string) (b : bool) :
  keepsKnown w (snd (getTargetFilePath w s f b)).
Proof.
  unfold getTargetFilePath.
  destruct (JS.truthyOpt _); [apply keepsKnown_refl |].
  intros l. unfold hasFile. cbn [snd metadata setMetadata sourceToTarget targetToSource].
  rewrite !orb_true_iff, !bool_decide_eq_true. intros [Ht | Hs].
  - left. destruct (decide (computeTarget (options w) s f = l)) as [-> | Hne].
    + rewrite lookup_insert_eq. eauto.
    + now rewrite lookup_insert_ne.
  - right. destruct b; [exact Hs |].
    destruct (decide (s = l)) as [-> | Hne].
    + rewrite lookup_insert_eq. eauto.
    + now rewrite lookup_insert_ne.
Qed.

Lemma takeHeader_graph (p : Webpage) (d : PageDocument) (fh : HeadingEl)
    (used replaced : LogEntry) :
  graphOf (takeHeader p d fh used replaced) = graphOf p.
Proof. unfold takeHeader. now destruct (isDefault (titleInfo p)). Qed.

Lemma addTitle_graph (p : Webpage) : graphOf (addTitle p) = graphOf p.
Proof.
  unfold addTitle.
  destruct (content p) as [c |]; [| reflexivity].
  destruct (pageDocument p) as [d |]; [| reflexivity].
  destruct (negb _); [reflexivity |].
  cbv zeta.
  match goal with
  | |- graphOf (withContent ?q _) = _ =>
      assert (Hq : graphOf q = graphOf p); [| exact Hq]
  end.
  destruct (firstHeader d) as [fh |]; [| reflexivity].
  destruct (_ || _); [apply takeHeader_graph |].
  destruct (_ && _); [| reflexivity].
  destruct (_ && _); [apply takeHeader_graph | reflexivity].
Qed.

(** X21. When [build] renders a page, the attachment source paths it
    collects are the site-local [src] values of the rendered element as
    the renderer left them, while the attachments of the record are the
    site-local [src] values after remapping; and every link of the record
    is site-local, differs from the page's own path and names a file the
    resulting site knows. *)
Theorem build_records_known_links (w : Website) (p : Webpage) (ri : RenderInfo) :
  renderFile h (source p) = Some ri ->
  willBuild p = true ->
  let p0 := if isLoaded p then p else load h (options w) p in
  let w4 := snd (remapLinks h w p0 (container ri)) in
  let remapped := fst (remapEls h w4 p0 (srcEls (container ri))) in
  let '(_, p', w') := build h w p in
  attachmentSourcePaths p'
  = List.filter (isLocalLink h) (List.map attr (srcEls (container ri)))
  /\ attachments (pageMeta p')
     = List.filter (notSelf (wpPath (pageMeta p')))
         (List.filter (isLocalLink h) (List.map attr remapped))
  /\ Forall (fun l => isLocalLink h l = true
                      /\ l <> wpPath (pageMeta p')
                      /\ hasFile w' l = true)
       (links (pageMeta p')).
Proof.
  intros Hr Hwb. cbv zeta. unfold build.
  set (p0 := if isLoaded p then p else load h (options w) p).
  assert (Hmod : isModified p0 = true).
  { unfold p0, willBuild in *. destruct (isLoaded p); [exact Hwb | reflexivity]. }
  assert (Hsrc : source p0 = source p) by (unfold p0; now destruct (isLoaded p)).
  rewrite Hmod. simpl negb. cbv iota.
  unfold buildModified. rewrite Hsrc, Hr.
  set (p3 := withAttachmentSourcePaths _ _).
  assert (Hremap : snd (remapLinks h w p0 (container ri)) = snd (remapLinks h w p3 (container ri))
                   /\ forall w4 els, fst (remapEls h w4 p0 els) = fst (remapEls h w4 p3 els)
                                     /\ snd (remapEls h w4 p0 els) = snd (remapEls h w4 p3 els)).
  { assert (Hels : forall els w4, remapEls h w4 p0 els = remapEls h w4 p3 els).
    { induction els as [| el els IH]; intros w4; [reflexivity |].
      cbn [remapEls]. unfold remapEl.
      assert (Hres : resolveLink h w4 p0 (Some (attr el)) = resolveLink h w4 p3 (Some (attr el)))
        by reflexivity.
      rewrite Hres. destruct (resolveLink h w4 p3 (Some (attr el))) as [nh w5].
      now rewrite IH. }
    split.
    - unfold remapLinks. now rewrite Hels.
    - intros w4 els. now rewrite Hels. }
  destruct Hremap as [Hw4 Hels]. rewrite Hw4.
  destruct (remapLinks h w p3 (container ri)) as [c4 w4] eqn:H4. cbn [snd].
  assert (Hsrc4 : srcEls c4 = srcEls (container ri)).
  { unfold remapLinks in H4. destruct (remapEls h w p3 (hrefEls (container ri))).
    now injection H4 as <- _. }
  destruct (Hels w4 (srcEls (container ri))) as [-> _].
  unfold remapEmbedLinks. rewrite Hsrc4.
  destruct (remapEls h w4 p3 (srcEls (container ri))) as [els5 w5]. cbn [fst].
  set (c5 := {| hrefEls := hrefEls c4; srcEls := els5; headingEls := headingEls c4;
                textNodes := textNodes c4; pageTitleEl := pageTitleEl c4 |}).
  pose proof (fillMetadataAfterRender_lists h w5 (withContent p3 (Some c5)))
    as (Hpath & Hlinks & _ & Hatts).
  pose proof (steps_fillMetadataAfterRender h keepsKnown keepsKnown_refl keepsKnown_trans
                getTargetFilePath_keepsKnown w5 (withContent p3 (Some c5))) as Hknown.
  pose proof (getRenderedHeadings_identity h (withContent p3 (Some c5))) as [_ Hasp].
  assert (Hasp6 : attachmentSourcePaths (fst (fillMetadataAfterRender h w5
                                                (withContent p3 (Some c5))))
                  = getLinksToAttachments h (Some (container ri))).
  { unfold fillMetadataAfterRender.
    destruct (getRenderedHeadings h (withContent p3 (Some c5))) as [hs p1].
    destruct (getBacklinks h w5 p1) as [bs w']. cbn [fst snd] in *. exact Hasp. }
  destruct (fillMetadataAfterRender h w5 (withContent p3 (Some c5))) as [p6 w6].
  cbn [fst snd] in *.
  set (p7 := withTemplate (appendLayout h p6) _).
  assert (H7 : graphOf p7 = graphOf p6) by reflexivity.
  assert (H8 : graphOf (if optAddTitle (options w) then addTitle p7 else p7) = graphOf p6).
  { destruct (optAddTitle (options w)); [now rewrite addTitle_graph | exact H7]. }
  set (p8 := if optAddTitle (options w) then addTitle p7 else p7) in *.
  unfold graphOf in H8. injection H8 as Hp8 Hl8 Ha8 Hs8.
  rewrite Hs8, Hl8, Ha8, Hp8, Hasp6, Hlinks, Hatts, Hpath.
  split; [reflexivity |]. split; [reflexivity |].
  apply List.Forall_forall. intros l Hin.
    apply filter_In in Hin as [Hin Hns].
    unfold getLinksToOtherPages in Hin.
  apply filter_In in Hin as [Hin Hhas]. apply filter_In in Hin as [_ Hloc].
  split; [exact Hloc |]. split.
  - intros ->. unfold notSelf in Hns. now rewrite String.eqb_refl in Hns.
  - now apply Hknown.
Qed.

End RecordedLinks.

Lemma build_records_known_links_witness :
  let '(_, p', _) := build BacklinkFixtures.linking BacklinkFixtures.w1
                       (Fixtures.pageOf BacklinkFixtures.w1 BacklinkFixtures.aFile) in
  Forall (fun l => l <> wpPath (pageMeta p')) (links (pageMeta p')).
Proof.
  pose proof (build_records_known_links BacklinkFixtures.linking BacklinkFixtures.w1
                (Fixtures.pageOf BacklinkFixtures.w1 BacklinkFixtures.aFile)
                (Fixtures.rendered ["b.md"] [] []) eq_refl eq_refl) as Hb.
  cbv zeta in Hb.
  destruct (build _ _ _) as [[o p'] w']. destruct Hb as (_ & _ & Hl).
  eapply List.Forall_impl; [| exact Hl]. intros l (_ & Hne & _). exact Hne.
Defined.

(** ** Which links are marked unresolved *)

Section UnresolvedMark.
Context `{PathLib}.
Variable h : Host.

Lemma resolveLink_defined (w : Website) (p : Webpage) (link : string) :
  isPassThrough link = false ->
  exists href, fst (resolveLink h w p (Some link)) = Some href.
Proof.
  intros Hpt. unfold isPassThrough, isExternalURL in Hpt.
  apply orb_false_iff in Hpt as [Hpt Hq]. apply orb_false_iff in Hpt as [He Hd].
  unfold resolveLink. destruct (negb (JS.truthy link)); [cbn; eauto |].
  rewrite He, Hd, Hq. destruct (JS.startsWith link "#"); [cbn; eauto |].
  destruct (getTargetFilePath w _ None false) as [tp w']. cbn. eauto.
Qed.

(** X22. After [remapLinks] or [remapEmbedLinks] has gone over an
    element, the element carries the class [is-unresolved] exactly when
    its link is an external URL, a [data:] URI or a query string (for
    which [resolveLink] returns undefined), or when the value written
    back is empty; its other classes are as before. *)
Theorem unresolved_mark (w : Website) (p : Webpage) (el : LinkEl) :
  let el' := fst (remapEl h w p el) in
  (In "is-unresolved" (classes el') <-> isPassThrough (attr el) = true \/ attr el' = "")
  /\ (forall c, c <> "is-unresolved" -> (In c (classes el') <-> In c (classes el))).
Proof.
  cbv zeta. unfold remapEl.
  destruct (isPassThrough (attr el)) eqn:Hpt.
  - rewrite (resolveLink_pass_through h w p _ Hpt). cbn [fst classes attr JS.truthyOpt negb].
    destruct (toggleClass_on "is-unresolved" (classes el)) as [Hin Hother].
    split; [| exact Hother]. split; auto.
  - destruct (resolveLink_defined w p (attr el) Hpt) as [href Hhref].
    destruct (resolveLink h w p (Some (attr el))) as [newHref w'].
    cbn [fst] in Hhref. subst newHref.
    cbn [fst classes attr JS.truthyOpt]. change (default (attr el) (Some href)) with href.
    destruct (JS.truthy href) eqn:Ht; cbn [negb].
    + destruct (toggleClass_off "is-unresolved" (classes el)) as [Hnin Hother].
      split; [| exact Hother]. split; [contradiction |].
      intros [Hc | ->]; [discriminate | discriminate].
    + destruct (toggleClass_on "is-unresolved" (classes el)) as [Hin Hother].
      split; [| exact Hother]. split; [| auto].
      intros _. right. now apply truthy_false_iff.
Qed.

End UnresolvedMark.

(** ** The base document of the combined output *)

Section CombinedBase.
Import Combined.
Variable parseIds : string -> list string.

(** X23. [getCombinedHTML] fails (returns the empty string) exactly
    when the page it would start from has no data: that page is the first
    page named [index.html] if it has data, and the first page of the
    index otherwise; a later page with data is not looked for.  When it
    succeeds, the document is that page as parsed, and the first data
    block appended to its head is the manifest. *)
Theorem combined_html_base (pages : list IndexPage) (site : SiteData) :
  (getCombinedHTML parseIds pages site = None <-> hasData (basePage pages) = false)
  /\ (forall doc, getCombinedHTML parseIds pages site = Some doc ->
        exists page html,
          basePage pages = Some page /\ data page = Some html /\ JS.truthy html = true
          /\ authoredIds doc = parseIds html
          /\ List.hd_error (headData doc)
             = Some (mkDataEl "website-metadata" (encodeURI (manifestJson site)))).
Proof.
  unfold getCombinedHTML.
  set (index0 := List.find _ pages).
  assert (Hbase : (if negb (hasData index0) && (0 <? length pages)%nat
                   then List.hd_error pages else index0) = basePage pages).
  { unfold basePage. fold index0. destruct (hasData index0) eqn:Hi; [reflexivity |].
    destruct pages as [| p0 rest]; [| reflexivity].
    cbn. subst index0. reflexivity. }
  rewrite Hbase. destruct (hasData (basePage pages)) eqn:Hd; cbn [negb].
  - split; [split; discriminate |].
    intros doc [= <-].
    destruct (basePage pages) as [page |]; [| discriminate].
    cbn in Hd. destruct (data page) as [html |] eqn:Hhtml; [| discriminate].
    exists page, html. split; [reflexivity |]. split; [exact Hhtml |].
    split; [exact Hd |].
    destruct (CombinedProps.embedFileInfo_spec (fileInfo site)
                (embedWebpages
                   (createData (mkHtmlDoc (parseIds html) []) "website-metadata"
                      (encodeURI (manifestJson site)))
                   (webpagesInfo site)))
      as (Ha & _ & _ & added & Hh & _).
    destruct (CombinedProps.embedWebpages_spec (webpagesInfo site)
                (createData (mkHtmlDoc (parseIds html) []) "website-metadata"
                   (encodeURI (manifestJson site))))
      as (Ha' & Hh').
    cbn [mbind option_bind default] in *.
    change (default "" (Some page ≫= data)) with (default "" (data page)).
    rewrite Hhtml. change (default "" (Some html)) with html.
    split; [now rewrite Ha, Ha' |].
    rewrite Hh, Hh'. reflexivity.
  - split; [split; reflexivity | discriminate].
Qed.

End CombinedBase.

(** ** C3: which sources share a target *)

Lemma join_split (c : ascii) (s : string) : JS.join (String c "") (JS.split c s) = s.
Proof.
  induction s as [| a r IH]; [reflexivity |].
  cbn [JS.split]. destruct (split_cons c r) as (p & rest & Hs). rewrite Hs in *.
  destruct (Ascii.eqb a c) eqn:Hac.
  - apply Ascii.eqb_eq in Hac. subst a.
    change (String c (JS.join (String c "") (p :: rest)) = String c r). now rewrite IH.
  - destruct rest as [| q rest]; [cbn in *; now subst |].
    change (String a (JS.join (String c "") (p :: q :: rest)) = String a r). now rewrite IH.
Qed.

Lemma split_pieces (c : ascii) (s : string) :
  Forall (fun x => hasChar c x = false) (JS.split c s).
Proof.
  induction s as [| a r IH]; [repeat constructor |].
  cbn [JS.split]. destruct (Ascii.eqb a c) eqn:Hac; [now constructor |].
  destruct (JS.split c r) as [| p rest]; [repeat constructor; cbn; now rewrite Hac |].
  apply Forall_cons_iff in IH as [Hp Hrest].
  constructor; [cbn; now rewrite Hac, Hp | exact Hrest].
Qed.

(** The pieces of a string hold no character the string does not hold. *)
Lemma split_pieces_other (c d : ascii) (s : string) :
  hasChar d s = false -> Forall (fun x => hasChar d x = false) (JS.split c s).
Proof.
  induction s as [| a r IH]; [repeat constructor |].
  cbn [hasChar JS.split]. intros Hd. apply orb_false_iff in Hd as [Had Hr].
  specialize (IH Hr). destruct (Ascii.eqb a c); [now constructor |].
  destruct (JS.split c r) as [| p rest]; [repeat constructor; cbn; now rewrite Had |].
  apply Forall_cons_iff in IH as [Hp Hrest].
  constructor; [cbn; now rewrite Had, Hp | exact Hrest].
Qed.

Lemma split_app_sep (c : ascii) (p r : string) :
  hasChar c p = false -> JS.split c (p ++ String c r) = p :: JS.split c r.
Proof.
  induction p as [| a p IH]; intros Hp.
  - change (JS.split c (String c r) = "" :: JS.split c r).
    cbn [JS.split]. now rewrite Ascii.eqb_refl.
  - cbn [hasChar] in Hp. apply orb_false_iff in Hp as [Hac Hp].
    change (JS.split c (String a (p ++ String c r)) = String a p :: JS.split c r).
    cbn [JS.split]. now rewrite Hac, (IH Hp).
Qed.

Lemma split_join (c : ascii) (l : list string) :
  l <> [] -> Forall (fun x => hasChar c x = false) l ->
  JS.split c (JS.join (String c "") l) = l.
Proof.
  induction l as [| p l IH]; intros Hne Hall; [contradiction |].
  apply Forall_cons_iff in Hall as [Hp Hl].
  destruct l as [| q l]; [now apply split_absent |].
  change (JS.split c (p ++ String c (JS.join (String c "") (q :: l))) = p :: q :: l).
  rewrite (split_app_sep _ _ _ Hp). f_equal. now apply IH.
Qed.

Lemma hasChar_join (d : ascii) (sep : string) (l : list string) :
  hasChar d sep = false -> Forall (fun x => hasChar d x = false) l ->
  hasChar d (JS.join sep l) = false.
Proof.
  intros Hsep. induction l as [| p l IH]; intros Hall; [reflexivity |].
  apply Forall_cons_iff in Hall as [Hp Hl].
  destruct l as [| q l]; [exact Hp |].
  change (hasChar d (p ++ sep ++ JS.join sep (q :: l)) = false).
  now rewrite !hasChar_app, Hp, Hsep, (IH Hl).
Qed.

Lemma slugChar_slash (c : ascii) :
  Ascii.eqb (SpecPath.slugChar c) "/" = Ascii.eqb c "/".
Proof. destruct c as [[] [] [] [] [] [] [] []]; vm_compute; reflexivity. Qed.

Lemma slug_hasSlash (s : string) : hasChar "/" (SpecPath.slug s) = hasChar "/" s.
Proof.
  induction s as [| c s IH]; [reflexivity |].
  cbn [SpecPath.slug hasChar]. now rewrite slugChar_slash, IH.
Qed.

Lemma slug_app (a b : string) :
  SpecPath.slug (a ++ b) = (SpecPath.slug a ++ SpecPath.slug b)%string.
Proof.
  induction a as [| c a IH]; [reflexivity |].
  change (String (SpecPath.slugChar c) (SpecPath.slug (a ++ b))
          = String (SpecPath.slugChar c) (SpecPath.slug a ++ SpecPath.slug b)).
  now f_equal.
Qed.

Lemma slug_join (l : list string) :
  SpecPath.slug (JS.join "/" l) = JS.join "/" (List.map SpecPath.slug l).
Proof.
  induction l as [| p l IH]; [reflexivity |].
  destruct l as [| q l]; [reflexivity |].
  change (SpecPath.slug (p ++ "/" ++ JS.join "/" (q :: l))
          = (SpecPath.slug p ++ "/" ++ JS.join "/" (List.map SpecPath.slug (q :: l)))%string).
  now rewrite !slug_app, IH.
Qed.

Lemma append_inj_r (a b c : string) : (a ++ c = b ++ c)%string -> a = b.
Proof.
  intros Heq. apply (f_equal JS.rev) in Heq. rewrite !rev_app in Heq.
  apply String.app_inj in Heq.
  rewrite <- (rev_involutive a), <- (rev_involutive b). now f_equal.
Qed.

Lemma substring_all (s : string) : String.substring 0 (String.length s) s = s.
Proof. induction s as [| c s IH]; [reflexivity |]. cbn. now rewrite IH. Qed.

(** A string that starts with a prefix is the prefix followed by what
    [substring] leaves. *)
Lemma startsWith_substring (p r : string) :
  JS.startsWith p r = true -> p = (r ++ JS.substringFrom (String.length r) p)%string.
Proof.
  unfold JS.startsWith, JS.substringFrom. revert p.
  induction r as [| a r IH]; intros p Hp.
  - cbn [String.length]. rewrite Nat.sub_0_r. now rewrite substring_all.
  - destruct p as [| b p]; [discriminate |]. cbn [String.prefix] in Hp.
    destruct (ascii_dec a b) as [<- | _]; [| discriminate].
    change (String a p = String a (r ++ String.substring (String.length r)
                                          (String.length p - String.length r) p)).
    f_equal. now apply IH.
Qed.

Lemma cutRoot_inj (o : Options) (p1 p2 : string) :
  JS.startsWith p1 (exportRoot o) = JS.startsWith p2 (exportRoot o) ->
  cutRoot o p1 = cutRoot o p2 -> p1 = p2.
Proof.
  unfold cutRoot. intros Hsame. rewrite <- Hsame.
  destruct (JS.startsWith p1 (exportRoot o)) eqn:H1; [| auto].
  symmetry in Hsame. intros Heq.
  rewrite (startsWith_substring _ _ H1), (startsWith_substring _ _ Hsame). now f_equal.
Qed.

(** The segments of a path: its directory segments, then its file
    name, none of them holding a slash. *)
Lemma segments_spec (s : string) :
  SpecPath.segments s = List.removelast (SpecPath.segments s) ++ [SpecPath.fullName s]
  /\ Forall (fun x => hasChar "/" x = false) (List.removelast (SpecPath.segments s))
  /\ hasChar "/" (SpecPath.fullName s) = false.
Proof.
  unfold SpecPath.fullName, SpecPath.segments.
  destruct (split_cons "/" s) as (p & rest & Hs).
  assert (Hne : JS.split "/" s <> []) by (rewrite Hs; discriminate).
  pose proof (app_removelast_last "" Hne) as Hl.
  pose proof (split_pieces "/" s) as Hall. rewrite Hl in Hall at 1.
  apply Forall_app in Hall as [Hd Hf]. apply Forall_cons_iff in Hf as [Hf _].
  auto.
Qed.

Lemma basename_noSlash (s : string) : hasChar "/" (SpecPath.basename s) = false.
Proof.
  destruct (segments_spec s) as (_ & _ & Hf).
  unfold SpecPath.basename, SpecPath.nameParts.
  pose proof (split_pieces_other "." "/" _ Hf) as Hall.
  destruct (JS.split "." (SpecPath.fullName s)) as [| a [| b rest]] eqn:Hp;
    [exact Hf | exact Hf |].
  apply hasChar_join; [reflexivity |].
  assert (Hne : a :: b :: rest <> []) by discriminate.
  rewrite (app_removelast_last "" Hne) in Hall.
  now apply Forall_app in Hall as [Hd _].
Qed.

Lemma webName_noSlash (o : Options) (s : string) :
  hasChar "/" s = false -> hasChar "/" (webName o s) = false.
Proof. unfold webName. destruct (slugifyPaths o); [now rewrite slug_hasSlash | auto]. Qed.

(** The segments of the html path of a stem are the stem. *)
Lemma htmlPathOf_segments (o : Options) (s : string) :
  JS.split "/" (htmlPathOf (stemOf o s))
  = fst (stemOf o s) ++ [(snd (stemOf o s) ++ ".html")%string].
Proof.
  unfold htmlPathOf. apply split_join; [now destruct (fst (stemOf o s)) |].
  destruct (segments_spec s) as (_ & Hd & _).
  apply Forall_app. split.
  - unfold stemOf. cbn [fst]. apply List.Forall_forall. intros x Hx.
    apply in_map_iff in Hx as (y & <- & Hy). apply webName_noSlash.
    rewrite List.Forall_forall in Hd. now apply Hd.
  - repeat constructor. cbn [snd stemOf]. rewrite hasChar_app.
    now rewrite (webName_noSlash o _ (basename_noSlash s)).
Qed.

Lemma htmlPathOf_inj (o : Options) (s1 s2 : string) :
  htmlPathOf (stemOf o s1) = htmlPathOf (stemOf o s2) -> stemOf o s1 = stemOf o s2.
Proof.
  intros Heq. apply (f_equal (JS.split "/")) in Heq.
  rewrite !htmlPathOf_segments in Heq.
  apply app_inj_tail in Heq as [Hd Hb]. apply append_inj_r in Hb.
  destruct (stemOf o s1), (stemOf o s2). cbn in *. congruence.
Qed.

(** The target the export derives from a source: the html path of its
    stem, with the export root cut off. *)
Lemma derivedTarget_stem (o : Options) (s : string) :
  derivedTarget o s = cutRoot o (htmlPathOf (stemOf o s)).
Proof.
  destruct (segments_spec s) as (Hsegs & Hd & Hf).
  pose proof (basename_noSlash s) as Hb.
  set (dirs := List.removelast (SpecPath.segments s)) in *.
  set (name := (SpecPath.basename s ++ ".html")%string).
  assert (Hq : SpecPath.withExtension "html" s = JS.join "/" (dirs ++ [name])) by reflexivity.
  assert (Hsplit : JS.split "/" (JS.join "/" (dirs ++ [name])) = dirs ++ [name]).
  { apply split_join; [now destruct dirs |].
    apply Forall_app. split; [exact Hd |]. repeat constructor.
    unfold name. now rewrite hasChar_app, Hb. }
  assert (Hname : htmlFileName s = name).
  { unfold htmlFileName. cbn [fullNameOf setExtension parsePath specPath].
    unfold SpecPath.fullName, SpecPath.segments. rewrite Hq, Hsplit.
    apply last_last. }
  assert (Htruthy : JS.truthy name = true).
  { unfold name. destruct (SpecPath.basename s); reflexivity. }
  unfold derivedTarget, computeTarget. rewrite Hname, Htruthy.
  cbn [parsePath setFullName slugify specPath].
  change (SpecPath.withFullName name s) with (JS.join "/" (dirs ++ [name])).
  assert (Hp2 : (if slugifyPaths o then SpecPath.slug (JS.join "/" (dirs ++ [name]))
                 else JS.join "/" (dirs ++ [name]))
                = htmlPathOf (stemOf o s)).
  { unfold htmlPathOf, stemOf, webName. cbn [fst snd]. fold dirs.
    destruct (slugifyPaths o).
    - rewrite slug_join, List.map_app. cbn [List.map]. unfold name.
      now rewrite slug_app.
    - now rewrite List.map_id. }
  rewrite Hp2. reflexivity.
Qed.

(** C3 (amended). Within one export run every exported source path is
    entered into the source-to-target table with the html path of its
    stem (its directory segments and the base name of its file, in slug
    form when web-style names are on), the export root cut off.  Two
    exported sources that are both below the export root, or both
    outside it, have the same target exactly when they have the same
    stem: the mapping is injective on the sources whose stems differ,
    and sources that differ only in their extension, or, with web-style
    names, only in what the slug form levels (case, spaces against
    hyphens), share one target. *)
Theorem targets_differ_iff_stems_differ
    (w : Website) (srcs : list string) (s1 s2 : string) :
  In s1 srcs -> In s2 srcs ->
  let o := options w in
  let w' := initTables w srcs in
  JS.startsWith (htmlPathOf (stemOf o s1)) (exportRoot o)
  = JS.startsWith (htmlPathOf (stemOf o s2)) (exportRoot o) ->
  targetOfSource w' s1 = Some (cutRoot o (htmlPathOf (stemOf o s1)))
  /\ targetOfSource w' s2 = Some (cutRoot o (htmlPathOf (stemOf o s2)))
  /\ (targetOfSource w' s1 = targetOfSource w' s2 <-> stemOf o s1 = stemOf o s2).
Proof.
  intros H1 H2 o w' Hroot. subst w'.
  rewrite (initTables_lookup w srcs s1 H1), (initTables_lookup w srcs s2 H2).
  fold o. rewrite !derivedTarget_stem.
  split; [reflexivity |]. split; [reflexivity |]. split.
  - intros [= Heq]. apply htmlPathOf_inj. now apply (cutRoot_inj o).
  - now intros ->.
Qed.

Lemma targets_differ_iff_stems_differ_witness :
  targetOfSource MappingFixtures.slugged "notes.md" = Some "notes.html"
  /\ targetOfSource MappingFixtures.slugged "docs/My Page.md" = Some "docs/my-page.html"
  /\ targetOfSource MappingFixtures.slugged "notes.md"
     <> targetOfSource MappingFixtures.slugged "docs/My Page.md"
  /\ targetOfSource MappingFixtures.slugged "notes.md"
     = targetOfSource MappingFixtures.slugged "Notes.md".
Proof.
  pose proof (targets_differ_iff_stems_differ
                (Fixtures.site Fixtures.slugOptions [])
                ["Notes.md"; "notes.md"; "docs/My Page.md"]
                "notes.md" "docs/My Page.md"
                (or_intror (or_introl eq_refl))
                (or_intror (or_intror (or_introl eq_refl))) eq_refl) as (H1 & H2 & H3).
  pose proof (targets_differ_iff_stems_differ
                (Fixtures.site Fixtures.slugOptions [])
                ["Notes.md"; "notes.md"; "docs/My Page.md"]
                "notes.md" "Notes.md"
                (or_intror (or_introl eq_refl))
                (or_introl eq_refl) eq_refl) as (_ & _ & H4).
  split; [exact H1 |]. split; [exact H2 |]. split.
  - intros Heq. apply H3 in Heq. vm_compute in Heq. discriminate.
  - apply H4. vm_compute. reflexivity.
Defined.

(** ** C2: links, backlinks and the host *)

Section HostLinks.
Context `{PathLib}.
Variable h : Host.







End HostLinks.


(** ** The two tables of [initMetadata] are inverse when no target is shared *)

Section InverseTables.
Context `{PathLib}.

Lemma registerFile_registered (o : Options) (pre : list string) (w : Website) (a : string) :
  registered o pre w -> ~ In a pre -> registered o (pre ++ [a]) (registerFile w a).
Proof.
  intros (Ho & Hin & Hout & Hall & Hinv) Ha.
  unfold registerFile, getTargetFilePath. unfold targetOfSource in *.
  rewrite (Hout a Ha). cbn [JS.truthyOpt snd]. rewrite Ho.
  fold (derivedTarget o a).
  unfold registered, targetOfSource.
  cbn [options metadata setMetadata sourceToTarget targetToSource allFiles].
  split; [exact Ho |]. split; [| split; [| split]].
  - intros s Hs. apply in_app_or in Hs as [Hs | [<- | []]].
    + rewrite lookup_insert_ne by (intros ->; contradiction). now apply Hin.
    + apply lookup_insert_eq.
  - intros s Hs. rewrite lookup_insert_ne.
    + apply Hout. intros Hp. apply Hs. apply in_or_app. now left.
    + intros ->. apply Hs. apply in_or_app. right. now left.
  - rewrite Hall, List.map_app. reflexivity.
  - intros t. rewrite List.rev_app_distr. cbn [List.rev app List.find].
    destruct (decide (derivedTarget o a = t)) as [<- | Hne].
    + rewrite lookup_insert_eq. now rewrite bool_decide_eq_true_2.
    + rewrite lookup_insert_ne by assumption.
      rewrite bool_decide_eq_false_2 by assumption. apply Hinv.
Qed.

Lemma fold_registered (o : Options) (srcs : list string) :
  forall pre w,
    registered o pre w -> List.NoDup (pre ++ srcs) ->
    registered o (pre ++ srcs) (fold_left registerFile srcs w).
Proof.
  induction srcs as [| a srcs IH]; intros pre w Hreg Hnd.
  - now rewrite app_nil_r.
  - cbn [fold_left].
    assert (Ha : ~ In a pre).
    { apply List.NoDup_remove_2 in Hnd. intros Hp. apply Hnd. apply in_or_app. now left. }
    replace (pre ++ a :: srcs) with ((pre ++ [a]) ++ srcs) in * by (now rewrite <- app_assoc).
    apply IH; [now apply registerFile_registered | exact Hnd].
Qed.

Lemma initTables_registered (w : Website) (srcs : list string) :
  List.NoDup srcs -> registered (options w) srcs (initTables w srcs).
Proof.
  intros Hnd. unfold initTables.
  apply (fold_registered (options w) srcs []); [| exact Hnd].
  unfold registered, targetOfSource.
  cbn [options metadata setMetadata sourceToTarget targetToSource allFiles List.map List.rev
       List.find].
  split; [reflexivity |]. split; [intros s [] |].
  split; [intros s _; apply lookup_empty |]. split; [reflexivity |].
  intros t. apply lookup_empty.
Qed.

Lemma NoDup_map_injective {A B} (f : A -> B) (l : list A) :
  List.NoDup l ->
  (List.NoDup (List.map f l)
   <-> forall x y, In x l -> In y l -> f x = f y -> x = y).
Proof.
  induction 1 as [| a l Ha Hnd IH]; cbn [List.map].
  - split; [intros _ x y [] | constructor].
  - rewrite List.NoDup_cons_iff, IH. split.
    + intros [Hfa Hinj] x y [<- | Hx] [<- | Hy] Heq.
      * reflexivity.
      * exfalso. apply Hfa. rewrite Heq. now apply in_map.
      * exfalso. apply Hfa. rewrite <- Heq. now apply in_map.
      * now apply Hinj.
    + intros Hinj. split.
      * intros Hfa. apply in_map_iff in Hfa as (x & Heq & Hx).
        apply Ha. rewrite <- (Hinj x a (or_intror Hx) (or_introl eq_refl) Heq). exact Hx.
      * intros x y Hx Hy. apply Hinj; now right.
Qed.

(** X25. The loop of [initMetadata], run over sources that are pairwise
    different, gives every source a target, lists the targets in
    [allFiles] in the order of the sources, and does nothing about a
    target that two sources share: the source-to-target table is
    injective on the sources exactly when the target-to-source table
    sends the target of every source back to it, and exactly when
    [allFiles] holds no path twice. *)
Theorem tables_inverse_iff_targets_distinct (w : Website) (srcs : list string) :
  List.NoDup srcs ->
  let w' := initTables w srcs in
  let injective :=
    forall s1 s2, In s1 srcs -> In s2 srcs ->
                  targetOfSource w' s1 = targetOfSource w' s2 -> s1 = s2 in
  (forall s, In s srcs -> is_Some (targetOfSource w' s))
  /\ List.map Some (allFiles (metadata w')) = List.map (targetOfSource w') srcs
  /\ (injective
      <-> forall s t, In s srcs -> targetOfSource w' s = Some t ->
                      targetToSource (metadata w') !! t = Some s)
  /\ (injective <-> List.NoDup (allFiles (metadata w'))).
Proof.
  intros Hnd w' injective.
  destruct (initTables_registered w srcs Hnd) as (_ & Hin & _ & Hall & Hinv).
  fold w' in Hin, Hall, Hinv. set (d := derivedTarget (options w)) in *.
  assert (Hinj : injective <-> forall x y, In x srcs -> In y srcs -> d x = d y -> x = y).
  { unfold injective. split; intros Hi x y Hx Hy Heq; apply Hi; auto.
    - rewrite (Hin x Hx), (Hin y Hy). now f_equal.
    - rewrite (Hin x Hx), (Hin y Hy) in Heq. now injection Heq. }
  split; [intros s Hs; rewrite (Hin s Hs); eauto |].
  split.
  { rewrite Hall, List.map_map. apply List.map_ext_in. intros s Hs. now rewrite (Hin s Hs). }
  split.
  - rewrite Hinj. split.
    + intros Hi s t Hs Ht. rewrite (Hin s Hs) in Ht. injection Ht as <-.
      rewrite Hinv.
      destruct (List.find _ (List.rev srcs)) as [s' |] eqn:Hf.
      * apply List.find_some in Hf as [Hs' Hd]. apply bool_decide_eq_true in Hd.
        apply List.in_rev in Hs'. f_equal. now apply Hi.
      * exfalso. pose proof (List.find_none _ _ Hf s (proj1 (List.in_rev _ _) Hs)) as Hd.
        cbv beta in Hd. now rewrite bool_decide_eq_true_2 in Hd.
    + intros Hrt x y Hx Hy Heq.
      pose proof (Hrt x (d x) Hx (Hin x Hx)) as H1.
      pose proof (Hrt y (d y) Hy (Hin y Hy)) as H2.
      rewrite Heq in H1. congruence.
  - rewrite Hinj, Hall. symmetry. now apply NoDup_map_injective.
Qed.

End InverseTables.

Lemma tables_inverse_iff_targets_distinct_witness :
  let w' := MappingFixtures.slugged in
  targetOfSource w' "Notes.md" = Some "notes.html"
  /\ targetToSource (metadata w') !! "notes.html" = Some "notes.md"
  /\ allFiles (metadata w') = ["notes.html"; "notes.html"; "docs/my-page.html"]
  /\ ~ List.NoDup (allFiles (metadata w')).
Proof.
  cbv zeta.
  split; [vm_compute; reflexivity |]. split; [vm_compute; reflexivity |].
  split; [vm_compute; reflexivity |].
  assert (Hnd : List.NoDup ["Notes.md"; "notes.md"; "docs/My Page.md"]).
  { repeat constructor; cbn; intuition discriminate. }
  destruct (tables_inverse_iff_targets_distinct (Fixtures.site Fixtures.slugOptions [])
              ["Notes.md"; "notes.md"; "docs/My Page.md"] Hnd) as (_ & _ & Hrt & Hnodup).
  intros Hall. unfold MappingFixtures.slugged in Hall.
  pose proof (proj2 Hnodup Hall) as Hinj. clear Hall. rename Hinj into Hall.
  specialize (Hall "Notes.md" "notes.md" (or_introl eq_refl)
                (or_intror (or_introl eq_refl)) eq_refl).
  discriminate Hall.
Defined.
